(** * Multiplayer Minesweeper server: map oracle, repository, cell state
      engine and action dispatcher

    A shallow embedding of the server-side core of
    [minesweeper-server]:

    - [core/gameUtils.js]            ([GameUtils]: [isMine],
      [calculateAdjacentMines]);
    - [db/repository.js]             ([Repository]: the SQL statements on
      the [map_state] and [players] tables);
    - [core/gameStateManager.js]     ([GameStateManager]: [revealCell],
      [performSafeReveal], [toggleFlag]);
    - [controllers/gameController.js] ([GameController]: the validation
      done by [handleMessage]).

    Every engine call is run to completion before the next one starts:
    the embedding is the sequential semantics of one [async] call, with
    the database as an explicit value threaded through it. *)

From Stdlib Require Import ZArith Lia List String Ascii QArith.
From Stdlib Require Import DecimalString.
From stdpp Require Import gmap strings list fin_maps.

Local Open Scope Z_scope.

(** ** The SHA-256 primitive of Node's [crypto] module (FIPS 180-4)

    32-bit words are [Z] values in [[0, 2^32)]; every addition and left
    shift is truncated to its low 32 bits. *)
Module Sha256.

Definition mask32 : Z := 0xffffffff.

Definition w32 (z : Z) : Z := Z.land z mask32.

Definition add32 (a b : Z) : Z := w32 (a + b).

Definition rotr (n x : Z) : Z :=
  Z.lor (Z.shiftr x n) (w32 (Z.shiftl x (32 - n))).

Definition not32 (x : Z) : Z := Z.lxor x mask32.

Definition Ch (x y z : Z) : Z :=
  Z.lxor (Z.land x y) (Z.land (not32 x) z).

Definition Maj (x y z : Z) : Z :=
  Z.lxor (Z.lxor (Z.land x y) (Z.land x z)) (Z.land y z).

Definition bigSigma0 (x : Z) : Z :=
  Z.lxor (Z.lxor (rotr 2 x) (rotr 13 x)) (rotr 22 x).

Definition bigSigma1 (x : Z) : Z :=
  Z.lxor (Z.lxor (rotr 6 x) (rotr 11 x)) (rotr 25 x).

Definition smallSigma0 (x : Z) : Z :=
  Z.lxor (Z.lxor (rotr 7 x) (rotr 18 x)) (Z.shiftr x 3).

Definition smallSigma1 (x : Z) : Z :=
  Z.lxor (Z.lxor (rotr 17 x) (rotr 19 x)) (Z.shiftr x 10).

(** The first 64 primes. *)
Definition primes : list Z :=
[ 2; 3; 5; 7; 11; 13; 17; 19; 23; 29; 31; 37; 41; 43; 47; 53;
  59; 61; 67; 71; 73; 79; 83; 89; 97; 101; 103; 107; 109; 113; 127; 131;
  137; 139; 149; 151; 157; 163; 167; 173; 179; 181; 191; 193; 197; 199;
  211; 223; 227; 229; 233; 239; 241; 251; 257; 263; 269; 271; 277; 281;
  283; 293; 307; 311 ].

(** [floor (cbrt n)], found bit by bit from bit [bits - 1] down. *)
Fixpoint icbrt (bits : nat) (n r : Z) : Z :=
  match bits with
  | O => r
  | S b =>
      let r' := r + 2 ^ Z.of_nat b in
      icbrt b n (if r' * r' * r' <=? n then r' else r)
  end.

(** The round constants: the first 32 bits of the fractional parts of
    the cube roots of the first 64 primes. *)
Definition K : list Z :=
  Eval vm_compute in map (fun p => w32 (icbrt 40 (p * 2 ^ 96) 0)) primes.

(** The initial hash value: the first 32 bits of the fractional parts of
    the square roots of the first 8 primes. *)
Definition H0 : list Z :=
  Eval vm_compute in map (fun p => w32 (Z.sqrt (p * 2 ^ 64))) (firstn 8 primes).

(** Padding: the byte [0x80], zero bytes up to 56 modulo 64, then the
    bit length as a 64-bit big-endian integer. *)
Definition be_bytes (n : nat) (z : Z) : list Z :=
  map (fun i => Z.land (Z.shiftr z (8 * Z.of_nat i)) 255) (rev (seq 0 n)).

Definition pad (msg : list Z) : list Z :=
  let len := Z.of_nat (length msg) in
  let zeros := Z.to_nat ((55 - len) mod 64) in
  msg ++ 128 :: repeat 0 zeros ++ be_bytes 8 (8 * len).

Definition be_word (bs : list Z) : Z :=
  fold_left (fun acc b => acc * 256 + b) bs 0.

(** Splits a list into consecutive chunks of [n] elements. *)
Fixpoint chunks (fuel n : nat) (l : list Z) : list (list Z) :=
  match fuel, l with
  | _, [] => []
  | O, _ => []
  | S f, _ => firstn n l :: chunks f n (skipn n l)
  end.

Definition words_of_block (block : list Z) : list Z :=
  map be_word (chunks 16 4 block).

(** The message schedule, built most recent word first: [rw] holds
    [W_{t-1}; W_{t-2}; ...]. *)
Fixpoint schedule (n : nat) (rw : list Z) : list Z :=
  match n with
  | O => rw
  | S n' =>
      let wt := add32 (add32 (smallSigma1 (nth 1 rw 0)) (nth 6 rw 0))
                      (add32 (smallSigma0 (nth 14 rw 0)) (nth 15 rw 0)) in
      schedule n' (wt :: rw)
  end.

Definition message_schedule (block : list Z) : list Z :=
  rev (schedule 48 (rev (words_of_block block))).

Record regs := Regs { ra : Z; rb : Z; rc : Z; rd : Z;
                      re : Z; rf : Z; rg : Z; rh : Z }.

Definition round (r : regs) (kw : Z * Z) : regs :=
  let t1 := add32 (add32 (add32 (rh r) (bigSigma1 (re r)))
                         (add32 (Ch (re r) (rf r) (rg r)) (fst kw)))
                  (snd kw) in
  let t2 := add32 (bigSigma0 (ra r)) (Maj (ra r) (rb r) (rc r)) in
  Regs (add32 t1 t2) (ra r) (rb r) (rc r) (add32 (rd r) t1) (re r) (rf r) (rg r).

Definition regs_of_list (h : list Z) : regs :=
  Regs (nth 0 h 0) (nth 1 h 0) (nth 2 h 0) (nth 3 h 0)
       (nth 4 h 0) (nth 5 h 0) (nth 6 h 0) (nth 7 h 0).

Definition list_of_regs (r : regs) : list Z :=
  [ra r; rb r; rc r; rd r; re r; rf r; rg r; rh r].

Definition compress (h : list Z) (block : list Z) : list Z :=
  let r := fold_left round (combine K (message_schedule block)) (regs_of_list h) in
  map (fun p => add32 (fst p) (snd p)) (combine h (list_of_regs r)).

(** The digest as its eight 32-bit words. *)
Definition digest_words (msg : list Z) : list Z :=
  let padded := pad msg in
  fold_left compress (chunks (length padded) 64 padded) H0.

(** [createHash('sha256').update(s).digest()]: the 32 digest bytes. *)
Definition digest (msg : list Z) : list Z :=
  concat (map (be_bytes 4) (digest_words msg)).

(** The UTF-8 bytes [update] hashes; a [string] here is that byte
    sequence. *)
Definition bytes_of_string (s : string) : list Z :=
  map (fun c => Z.of_N (N_of_ascii c)) (list_ascii_of_string s).

End Sha256.


(** ** IEEE-754 binary64 values, as far as the map oracle needs them

    A finite double is a pair of a signed significand and a binary
    exponent, denoting [mant * 2^expo].  Rounding is to nearest, ties to
    even, with a 53-bit significand.  The exponent range is not modelled:
    every value the oracle computes lies between [2^-64] and [2^64]. *)
Module Double.

Record double := Mk { mant : Z; expo : Z }.

Definition zero : double := Mk 0 0.

(** The integer nearest to [n / d] for [0 <= n], [0 < d]; a tie goes to
    the even neighbour. *)
Definition round_half_even (n d : Z) : Z :=
  let q := n / d in
  let r := n mod d in
  if 2 * r <? d then q
  else if d <? 2 * r then q + 1
  else if Z.even q then q else q + 1.

(** [floor (log2 (n / d))] for [0 < n], [0 < d]. *)
Definition ilog2_rat (n d : Z) : Z :=
  let e0 := Z.log2 n - Z.log2 d in
  let reaches := if 0 <=? e0 then d * 2 ^ e0 <=? n
                 else d <=? n * 2 ^ (- e0) in
  if reaches then e0 else e0 - 1.

(** The double nearest to the rational [n / d], [0 <= n], [0 < d]. *)
Definition round_rat (n d : Z) : double :=
  if n =? 0 then zero
  else
    let e := ilog2_rat n d - 52 in
    let m := if 0 <=? e then round_half_even n (d * 2 ^ e)
             else round_half_even (n * 2 ^ (- e)) d in
    Mk m e.

(** [Number(b)] for a non-negative BigInt [b]. *)
Definition of_bigint (b : Z) : double := round_rat b 1.

(** [a / b] for [0 <= a] and [0 < b]: the double nearest to the exact
    quotient. *)
Definition div (a b : double) : double :=
  let e := Z.min (expo a) (expo b) in
  round_rat (mant a * 2 ^ (expo a - e)) (mant b * 2 ^ (expo b - e)).

(** [a < b] on finite doubles. *)
Definition ltb (a b : double) : bool :=
  if expo a <=? expo b
  then mant a <? mant b * 2 ^ (expo b - expo a)
  else mant a * 2 ^ (expo a - expo b) <? mant b.

(** The rational a double denotes. *)
Definition to_Q (a : double) : Q :=
  if 0 <=? expo a then inject_Z (mant a * 2 ^ expo a)
  else Qmake (mant a) (Z.to_pos (2 ^ (- expo a))).

End Double.

(** ** [config/mapConstants.js] *)
Module MapConstants.

Definition MAP_WIDTH : Z := 640.
Definition MAP_HEIGHT : Z := 640.

(** The literal [0.15]: the double nearest to 15/100. *)
Definition MINE_DENSITY : Double.double := Double.round_rat 15 100.

End MapConstants.

(** ** [core/gameUtils.js] *)
Module GameUtils.
Import MapConstants.

(** Template-literal rendering of an integer coordinate. *)
Definition decimal (z : Z) : string := NilZero.string_of_int (Z.to_int z).

(** [buf.readBigUInt64BE(0)] *)
Definition readBigUInt64BE (buf : list Z) : Z := Sha256.be_word (firstn 8 buf).

(** The comparison [Number(hashInt) / Number(2n**64n) < MINE_DENSITY]. *)
Definition belowDensity (hashInt : Z) : bool :=
  let normalizedValue :=
    Double.div (Double.of_bigint hashInt) (Double.of_bigint (2 ^ 64)) in
  Double.ltb normalizedValue MINE_DENSITY.

Section WithSeed.
Variable MAP_SEED : string.

Definition seedInput (x y : Z) : string :=
  (MAP_SEED ++ ":" ++ decimal x ++ "," ++ decimal y)%string.

Definition hashInt (x y : Z) : Z :=
  readBigUInt64BE (Sha256.digest (Sha256.bytes_of_string (seedInput x y))).

Definition isMine (x y : Z) : bool :=
  if (x <? 0) || (x >=? MAP_WIDTH) || (y <? 0) || (y >=? MAP_HEIGHT)
  then false
  else belowDensity (hashInt x y).

(** One pass of the inner loop body of [calculateAdjacentMines]. *)
Definition countNeighbor (x y : Z) (mineCount dx dy : Z) : Z :=
  if (dx =? 0) && (dy =? 0) then mineCount
  else
    let nx := x + dx in
    let ny := y + dy in
    let eff_nx := Z.rem (nx + MAP_WIDTH) MAP_WIDTH in
    let eff_ny := Z.rem (ny + MAP_HEIGHT) MAP_HEIGHT in
    if isMine eff_nx eff_ny then mineCount + 1 else mineCount.

Definition calculateAdjacentMines (x y : Z) : Z :=
  if (x <? 0) || (x >=? MAP_WIDTH) || (y <? 0) || (y >=? MAP_HEIGHT)
  then 0
  else
    fold_left (fun mineCount dx =>
      fold_left (fun mineCount dy => countNeighbor x y mineCount dx dy)
                [-1; 0; 1] mineCount)
      [-1; 0; 1] 0.

End WithSeed.

End GameUtils.

(** ** [db/repository.js]: the SQLite tables and the statements run on
       them *)
Module Repository.

(** A row of [map_state], without its primary key [(x, y)].
    [revealed] and [flag_state] are [INTEGER NOT NULL DEFAULT 0];
    [is_mine] and [adjacent_mines] are nullable. *)
Record CellRow := MkCellRow {
  revealed : Z;
  is_mine : option Z;
  adjacent_mines : option Z;
  flag_state : Z
}.

(** A row of [players], without its primary key [player_id]. *)
Record PlayerRow := MkPlayerRow {
  score : Z;
  last_seen : string
}.

Record Db := MkDb {
  map_state : gmap (Z * Z) CellRow;
  players : gmap string PlayerRow
}.

(** The [cellData] objects handed to [upsertRevealedCellState]. *)
Record CellData := MkCellData {
  cd_x : Z;
  cd_y : Z;
  cd_is_mine : Z;
  cd_adjacent_mines : option Z
}.

Definition cd_key (c : CellData) : Z * Z := (cd_x c, cd_y c).

(** [SELECT * FROM map_state WHERE x = ? AND y = ?] *)
Definition getCellState (db : Db) (x y : Z) : option CellRow :=
  map_state db !! (x, y).

(** The [WHERE] clause of [getCellStatesInRegion] is a conjunction of
    conditions, each bound to two parameters. *)
Inductive Column := ColX | ColY.

Inductive Condition :=
| Between (c : Column) (lo hi : Z)     (* c BETWEEN ? AND ? *)
| GeOrLe (c : Column) (lo hi : Z).     (* (c >= ? OR c <= ?) *)

Definition column_value (c : Column) (key : Z * Z) : Z :=
  match c with ColX => fst key | ColY => snd key end.

Definition eval_condition (key : Z * Z) (c : Condition) : bool :=
  match c with
  | Between col lo hi =>
      (lo <=? column_value col key) && (column_value col key <=? hi)
  | GeOrLe col lo hi =>
      (lo <=? column_value col key) || (column_value col key <=? hi)
  end.

Definition region_conditions (xMin yMin xMax yMax : Z) : list Condition :=
  let conditions := [] in
  let conditions :=
    if xMin <=? xMax then conditions ++ [Between ColX xMin xMax]
    else conditions ++ [GeOrLe ColX xMin xMax] in
  let conditions :=
    if yMin <=? yMax then conditions ++ [Between ColY yMin yMax]
    else conditions ++ [GeOrLe ColY yMin yMax] in
  conditions.

(** [SELECT * FROM map_state WHERE <conditions joined by AND>] *)
Definition getCellStatesInRegion (db : Db) (xMin yMin xMax yMax : Z)
  : list (Z * Z * CellRow) :=
  let conditions := region_conditions xMin yMin xMax yMax in
  List.filter (fun row => forallb (eval_condition (fst row)) conditions)
              (map_to_list (map_state db)).

(** [INSERT OR REPLACE INTO map_state (x, y, revealed, is_mine,
    adjacent_mines, flag_state) VALUES (?, ?, 1, ?, ?, 0)] *)
Definition upsertRevealedCellState (db : Db) (cellData : CellData) : Db :=
  MkDb (<[ (cd_x cellData, cd_y cellData) :=
             MkCellRow 1 (Some (cd_is_mine cellData))
                       (cd_adjacent_mines cellData) 0 ]> (map_state db))
       (players db).

(** [flagValue === 1]: [INSERT OR IGNORE INTO map_state (x, y, revealed,
    flag_state) VALUES (?, ?, 0, 1)]; otherwise [DELETE FROM map_state
    WHERE x = ? AND y = ? AND revealed = 0]. *)
Definition setFlagState (db : Db) (x y flagValue : Z) : Db :=
  if flagValue =? 1 then
    match map_state db !! (x, y) with
    | Some _ => db
    | None =>
        MkDb (<[ (x, y) := MkCellRow 0 None None 1 ]> (map_state db))
             (players db)
    end
  else
    match map_state db !! (x, y) with
    | Some r =>
        if revealed r =? 0
        then MkDb (delete (x, y) (map_state db)) (players db)
        else db
    | None => db
    end.

(** [UPDATE players SET score = score + ? WHERE player_id = ?] *)
Definition updatePlayerScore (db : Db) (playerId : string) (scoreDelta : Z) : Db :=
  MkDb (map_state db)
       (alter (fun r => MkPlayerRow (score r + scoreDelta) (last_seen r))
              playerId (players db)).

(** [SELECT score FROM players WHERE player_id = ?], 0 for no row. *)
Definition getPlayerScore (db : Db) (playerId : string) : Z :=
  match players db !! playerId with
  | Some r => score r
  | None => 0
  end.

End Repository.

(** ** [core/gameStateManager.js]

    Coordinates are integers, the database is passed in and handed back,
    and [playerId] is the key of the caller in [players]. *)
Module GameStateManager.
Import MapConstants Repository.

Definition SCORE_REVEAL_SAFE : Z := 1.
Definition SCORE_HIT_MINE_PENALTY : Z := -50.
Definition STUN_DURATION_MS : Z := 3000.

(** The [state] strings of the cells sent to clients. *)
Inductive StateName := StMine | StRevealed | StFlagged | StHidden.

Record ClientCell := MkClientCell {
  cell_x : Z;
  cell_y : Z;
  cell_state : StateName;
  cell_value : option Z
}.

Definition cell_key (c : ClientCell) : Z * Z := (cell_x c, cell_y c).

(** The object returned by [revealCell], by [status]. *)
Inductive RevealResult :=
| Ignored
| MineHit (scoreDelta stunDurationMs : Z) (revealedCells : list ClientCell)
| Revealed (scoreDelta : Z) (revealedCells : list ClientCell).

(** The object returned by [toggleFlag], by [status]; [cellState] has no
    [value]. *)
Inductive FlagResult :=
| FlagIgnored
| Flagged (x y : Z) (state : StateName)
| Unflagged (x y : Z) (state : StateName).

(** [s?.revealed === 1 || s?.flag_state === 1] *)
Definition revealedOrFlagged (s : option CellRow) : bool :=
  match s with
  | None => false
  | Some r => (revealed r =? 1) || (flag_state r =? 1)
  end.

(** [!s || (s.revealed !== 1 && s.flag_state !== 1)] *)
Definition hiddenUnflagged (s : option CellRow) : bool :=
  match s with
  | None => true
  | Some r => negb (revealed r =? 1) && negb (flag_state r =? 1)
  end.

(** [s?.revealed === 1] *)
Definition isRevealed (s : option CellRow) : bool :=
  match s with
  | None => false
  | Some r => revealed r =? 1
  end.

(** [s?.flag_state === 1] *)
Definition isFlagged (s : option CellRow) : bool :=
  match s with
  | None => false
  | Some r => flag_state r =? 1
  end.

(** The local variables of [performSafeReveal]'s loop.  [visited] holds
    the keys [`${x},${y}`] as coordinate pairs.  Two history fields are
    added for the statements about the loop: [peeked] lists, in order,
    the cells read by the neighbour query; [pushed] lists every cell
    ever put on [queue]. *)
Record FloodState := MkFlood {
  queue : list (Z * Z);
  visited : gset (Z * Z);
  cellsToReveal : list CellData;
  scoreChange : Z;
  peeked : list (Z * Z);
  pushed : list (Z * Z)
}.

Definition floodInit (startX startY : Z) : FloodState :=
  MkFlood [(startX, startY)] {[ (startX, startY) ]} [] 0 [] [(startX, startY)].

(** Body of the two nested [for] loops, for one [(dx, dy)]. *)
Definition visitNeighbor (db : Db) (x y : Z) (fs : FloodState) (dx dy : Z)
  : FloodState :=
  if (dx =? 0) && (dy =? 0) then fs
  else
    let nx := x + dx in
    let ny := y + dy in
    let eff_nx := Z.rem (nx + MAP_WIDTH) MAP_WIDTH in
    let eff_ny := Z.rem (ny + MAP_HEIGHT) MAP_HEIGHT in
    let neighborKey := (eff_nx, eff_ny) in
    if (0 <=? eff_nx) && (eff_nx <? MAP_WIDTH) &&
       (0 <=? eff_ny) && (eff_ny <? MAP_HEIGHT) &&
       negb (bool_decide (neighborKey ∈ visited fs))
    then
      let neighborState := getCellState db eff_nx eff_ny in
      if hiddenUnflagged neighborState
      then MkFlood (queue fs ++ [neighborKey])
                   ({[ neighborKey ]} ∪ visited fs)
                   (cellsToReveal fs) (scoreChange fs)
                   (peeked fs ++ [neighborKey])
                   (pushed fs ++ [neighborKey])
      else MkFlood (queue fs) (visited fs)
                   (cellsToReveal fs) (scoreChange fs)
                   (peeked fs ++ [neighborKey])
                   (pushed fs)
    else fs.

Definition visitNeighbors (db : Db) (x y : Z) (fs : FloodState) : FloodState :=
  fold_left (fun fs dx =>
    fold_left (fun fs dy => visitNeighbor db x y fs dx dy) [-1; 0; 1] fs)
    [-1; 0; 1] fs.

Section WithSeed.
Variable MAP_SEED : string.

(** One turn of the [while] loop, after [queue.shift()] returned
    [(x, y)] and left [fs]. *)
Definition floodIter (db : Db) (x y : Z) (fs : FloodState) : FloodState :=
  let currentState := getCellState db x y in
  if revealedOrFlagged currentState then fs
  else
    let adjacentMines := GameUtils.calculateAdjacentMines MAP_SEED x y in
    let cellData := MkCellData x y 0 (Some adjacentMines) in
    let fs := MkFlood (queue fs) (visited fs)
                      (cellsToReveal fs ++ [cellData])
                      (scoreChange fs + SCORE_REVEAL_SAFE)
                      (peeked fs) (pushed fs) in
    if adjacentMines =? 0 then visitNeighbors db x y fs else fs.

(** The [while (queue.length > 0)] loop, cut off after [fuel] turns:
    [None] means the queue was not yet empty then. *)
Fixpoint floodLoop (fuel : nat) (db : Db) (fs : FloodState)
  : option FloodState :=
  match queue fs with
  | [] => Some fs
  | (x, y) :: rest =>
      match fuel with
      | O => None
      | S fuel' =>
          floodLoop fuel' db
            (floodIter db x y
               (MkFlood rest (visited fs) (cellsToReveal fs)
                        (scoreChange fs) (peeked fs) (pushed fs)))
      end
  end.

(** Enough turns for every run of the loop (see [floodLoop_total]). *)
Definition flood_fuel : nat := S (Z.to_nat (MAP_WIDTH * MAP_HEIGHT)).

(** The loop of one [performSafeReveal] call. *)
Definition floodRun (db : Db) (startX startY : Z) : option FloodState :=
  floodLoop flood_fuel db (floodInit startX startY).

(** The writes after the loop: one upsert per element of
    [cellsToReveal]. *)
Definition upsertAll (db : Db) (cells : list CellData) : Db :=
  fold_left upsertRevealedCellState cells db.

(** Returns the database after the writes and the pair
    [(revealedCells, scoreDelta)].  The [None] branch is never taken
    ([floodRun_total]). *)
Definition performSafeReveal (db : Db) (startX startY : Z) (playerId : string)
  : Db * (list CellData * Z) :=
  match floodRun db startX startY with
  | Some fs =>
      let db :=
        if (0 <? Z.of_nat (length (cellsToReveal fs)))
        then updatePlayerScore (upsertAll db (cellsToReveal fs))
                               playerId (scoreChange fs)
        else db in
      (db, (cellsToReveal fs, scoreChange fs))
  | None => (db, ([], 0))
  end.

Definition revealCell (db : Db) (playerId : string) (x y : Z)
  : Db * RevealResult :=
  let existingState := getCellState db x y in
  if revealedOrFlagged existingState then (db, Ignored)
  else
    let isMine := GameUtils.isMine MAP_SEED x y in
    if isMine then
      let cellData := MkCellData x y 1 None in
      let db := upsertRevealedCellState db cellData in
      let db := updatePlayerScore db playerId SCORE_HIT_MINE_PENALTY in
      (db, MineHit SCORE_HIT_MINE_PENALTY STUN_DURATION_MS
                   [MkClientCell x y StMine (Some (-1))])
    else
      let '(db, (revealedCells, scoreDelta)) :=
        performSafeReveal db x y playerId in
      if Z.of_nat (length revealedCells) =? 0 then (db, Ignored)
      else
        (db, Revealed scoreDelta
               (map (fun cell => MkClientCell (cd_x cell) (cd_y cell)
                                   StRevealed (cd_adjacent_mines cell))
                    revealedCells)).

End WithSeed.

Definition toggleFlag (db : Db) (playerId : string) (x y : Z)
  : Db * FlagResult :=
  let existingState := getCellState db x y in
  if isRevealed existingState then (db, FlagIgnored)
  else if isFlagged existingState then
    let db := setFlagState db x y 0 in
    (db, Unflagged x y StHidden)
  else
    let db := setFlagState db x y 1 in
    (db, Flagged x y StFlagged).

(** A finite run of engine calls. *)
Inductive Op :=
| OpReveal (playerId : string) (x y : Z)
| OpToggleFlag (playerId : string) (x y : Z).

Definition runOp (MAP_SEED : string) (db : Db) (op : Op) : Db :=
  match op with
  | OpReveal p x y => fst (revealCell MAP_SEED db p x y)
  | OpToggleFlag p x y => fst (toggleFlag db p x y)
  end.

Definition runOps (MAP_SEED : string) (db : Db) (ops : list Op) : Db :=
  fold_left (runOp MAP_SEED) ops db.

End GameStateManager.

(** ** [controllers/gameController.js]: validation and routing in
       [handleMessage] *)
Module GameController.
Import MapConstants.

(** A JavaScript number.  A finite double is a rational; the
    comparisons of [handleMessage] against integer constants are exact
    on it. *)
Inductive JsNumber :=
| NaN
| PosInfinity
| NegInfinity
| Finite (q : Q).

(** The values [JSON.parse] can put under [data.x] and [data.y]
    ([JsUndefined] for a missing key), and [NaN] besides. *)
Inductive JsValue :=
| JsUndefined
| JsNull
| JsBoolean (b : bool)
| JsString (s : string)
| JsNum (n : JsNumber)
| JsObject.

(** [a < k] *)
Definition num_lt (a : JsNumber) (k : Z) : bool :=
  match a with
  | NaN => false
  | PosInfinity => false
  | NegInfinity => true
  | Finite q => negb (Qle_bool (inject_Z k) q)
  end.

(** [a >= k] *)
Definition num_ge (a : JsNumber) (k : Z) : bool :=
  match a with
  | NaN => false
  | PosInfinity => true
  | NegInfinity => false
  | Finite q => Qle_bool (inject_Z k) q
  end.

(** [typeof x !== 'number' || typeof y !== 'number' || x < 0 ||
    x >= MAP_WIDTH || y < 0 || y >= MAP_HEIGHT] *)
Definition invalidCell (x y : JsValue) : bool :=
  match x, y with
  | JsNum a, JsNum b =>
      num_lt a 0 || num_ge a MAP_WIDTH || num_lt b 0 || num_ge b MAP_HEIGHT
  | _, _ => true
  end.

(** [typeof x !== 'number' || typeof y !== 'number'] *)
Definition invalidPosition (x y : JsValue) : bool :=
  match x, y with
  | JsNum _, JsNum _ => false
  | _, _ => true
  end.

(** A parsed message: its [type], and [data.x], [data.y]; [msg_data] is
    [None] when [message.data] is [undefined] or [null], on which the
    destructuring throws. *)
Record Message := MkMessage {
  msg_type : string;
  msg_data : option (JsValue * JsValue)
}.

(** What [handleMessage] does with a message, up to the engine call. *)
Inductive Handling :=
| NoPlayer                       (* no session for the socket: return *)
| InvalidCoordinates             (* logged; return *)
| CallRevealCell (playerId : string) (x y : JsValue)
| CallToggleFlag (playerId : string) (x y : JsValue)
| CallUpdatePlayerPosition (playerId : string) (x y : JsValue)
| UnknownType                    (* logged; break *)
| Threw.                         (* caught: an [error] reply is sent *)

(** [playerId] is [Some] when the socket has a player id and that player
    is in the active map; the refresh of [last_seen] is left out. *)
Definition handleMessage (playerId : option string) (message : Message)
  : Handling :=
  match playerId with
  | None => NoPlayer
  | Some playerId =>
      if String.eqb (msg_type message) "clickCell" then
        match msg_data message with
        | None => Threw
        | Some (x, y) =>
            if invalidCell x y then InvalidCoordinates
            else CallRevealCell playerId x y
        end
      else if String.eqb (msg_type message) "flagCell" then
        match msg_data message with
        | None => Threw
        | Some (x, y) =>
            if invalidCell x y then InvalidCoordinates
            else CallToggleFlag playerId x y
        end
      else if String.eqb (msg_type message) "updatePosition" then
        match msg_data message with
        | None => Threw
        | Some (x, y) =>
            if invalidPosition x y then InvalidCoordinates
            else CallUpdatePlayerPosition playerId x y
        end
      else UnknownType
  end.

(** Whether a JavaScript value is an integer-valued number. *)
Definition isInteger (v : JsValue) : Prop :=
  exists z : Z, exists q : Q, v = JsNum (Finite q) /\ (q == inject_Z z)%Q.

End GameController.

(** ** Vocabulary of the statements *)

Import MapConstants Repository GameStateManager.

(** The eight neighbour offsets. *)
Definition offsets8 : list (Z * Z) :=
  [(-1, -1); (-1, 0); (-1, 1); (0, -1); (0, 1); (1, -1); (1, 0); (1, 1)].

Definition mineIndicator (MAP_SEED : string) (x y : Z) : Z :=
  if GameUtils.isMine MAP_SEED x y then 1 else 0.

Definition sumZ (l : list Z) : Z := fold_right Z.add 0 l.

(** The wrap-aware interval of a region along one axis. *)
Definition inWrappedInterval (lo hi v : Z) : Prop :=
  if decide (lo <= hi) then lo <= v <= hi else (lo <= v \/ v <= hi).

(** Cells of the map. *)
Definition inGrid (c : Z * Z) : Prop :=
  0 <= fst c < MAP_WIDTH /\ 0 <= snd c < MAP_HEIGHT.

(** The threshold of [belowDensity] on the 64-bit hash value. *)
Definition DENSITY_CUTOFF : Z := 2767011611056432384.

(** The largest integer [h] with [h / 2^64 < 15/100] as rationals. *)
Definition EXACT_CUTOFF : Z := 2767011611056432742.

(** A seed and a database used to run the engine on concrete inputs. *)
Definition test_seed : string := "TEST_SEED_A1B2C3D4".

Definition test_db : Db :=
  MkDb ∅ (<[ "p1"%string := MkPlayerRow 0 "2025-03-29T00:00:00.000Z" ]> ∅).

(** A finite number inside [[0, bound)], integer or not. *)
Definition finiteInRange (bound : Z) (v : GameController.JsValue) : Prop :=
  exists q : Q,
    v = GameController.JsNum (GameController.Finite q)
    /\ (0 <= q)%Q /\ (q < inject_Z bound)%Q.

(** A value the four comparisons of the coordinate check let through:
    [NaN], on which every comparison is false, or a finite number
    inside [[0, bound)]. *)
Definition passesCheck (bound : Z) (v : GameController.JsValue) : Prop :=
  v = GameController.JsNum GameController.NaN \/ finiteInRange bound v.

(** Not a number, an infinity, or a finite number outside [[0, bound)]. *)
Definition refusedValue (bound : Z) (v : GameController.JsValue) : Prop :=
  match v with
  | GameController.JsNum GameController.NaN => False
  | GameController.JsNum (GameController.Finite q) =>
      (q < 0)%Q \/ (inject_Z bound <= q)%Q
  | _ => True
  end.

(** An inbound [clickCell] message carrying [x] and [y]. *)
Definition clickCell (x y : GameController.JsValue) : GameController.Message :=
  GameController.MkMessage "clickCell" (Some (x, y)).

(** The JSON number [3.5]. *)
Definition three_and_a_half : GameController.JsValue :=
  GameController.JsNum (GameController.Finite (7 # 2)).

Definition js_zero : GameController.JsValue :=
  GameController.JsNum (GameController.Finite 0).

(** A cell the neighbour query finds neither revealed nor flagged. *)
Definition hiddenAt (db : Db) (c : Z * Z) : Prop :=
  hiddenUnflagged (getCellState db (fst c) (snd c)) = true.

#[global] Instance hiddenAt_dec (db : Db) (c : Z * Z) : Decision (hiddenAt db c).
Proof. unfold hiddenAt. apply _. Defined.

(** What an entry of [cellsToReveal] is: a cell that was neither revealed
    nor flagged, recorded as safe with its adjacency count. *)
Definition freshSafeCell (MAP_SEED : string) (db : Db) (cd : CellData) : Prop :=
  revealedOrFlagged (getCellState db (cd_x cd) (cd_y cd)) = false
  /\ cd_is_mine cd = 0
  /\ cd_adjacent_mines cd
     = Some (GameUtils.calculateAdjacentMines MAP_SEED (cd_x cd) (cd_y cd)).

(** The loop invariant of [performSafeReveal], for a flood started at
    [start] whose loop has so far taken the cells [popped] off the
    queue. *)
Record FloodInv (MAP_SEED : string) (db : Db) (start : Z * Z)
    (popped : list (Z * Z)) (fs : FloodState) : Prop := MkFloodInv {
  inv_nodup : NoDup (pushed fs);
  inv_visited : visited fs = list_to_set (pushed fs);
  inv_queue : pushed fs = popped ++ queue fs;
  inv_cells : map cd_key (cellsToReveal fs) `sublist_of` popped;
  inv_pushed : pushed fs = start :: filter (hiddenAt db) (peeked fs);
  inv_peeked : Forall inGrid (peeked fs);
  inv_start : start ∉ peeked fs;
  inv_celldata : Forall (freshSafeCell MAP_SEED db) (cellsToReveal fs);
  inv_score : scoreChange fs = Z.of_nat (length (cellsToReveal fs))
}.

(** All cells of the map, column by column. *)
Definition gridCells : list (Z * Z) :=
  list_prod (seqZ 0 MAP_WIDTH) (seqZ 0 MAP_HEIGHT).

(** The cells listed in a reveal result. *)
Definition resultCells (r : RevealResult) : list ClientCell :=
  match r with
  | Ignored => []
  | MineHit _ _ cells => cells
  | Revealed _ cells => cells
  end.

(** The client cells [revealCell] builds from [cellsToReveal]. *)
Definition clientCells (cells : list CellData) : list ClientCell :=
  map (fun cell => MkClientCell (cd_x cell) (cd_y cell) StRevealed
                     (cd_adjacent_mines cell)) cells.

(** The four ways a [revealCell] call ends: the database it leaves and
    the object it returns. *)
Inductive RevealSpec (MAP_SEED : string) (db : Db) (p : string) (x y : Z)
  : Db -> RevealResult -> Prop :=
| RevealSpec_ignored :
    revealedOrFlagged (getCellState db x y) = true ->
    RevealSpec MAP_SEED db p x y db Ignored
| RevealSpec_mine :
    revealedOrFlagged (getCellState db x y) = false ->
    GameUtils.isMine MAP_SEED x y = true ->
    RevealSpec MAP_SEED db p x y
      (updatePlayerScore (upsertRevealedCellState db (MkCellData x y 1 None))
                         p SCORE_HIT_MINE_PENALTY)
      (MineHit SCORE_HIT_MINE_PENALTY STUN_DURATION_MS
               [MkClientCell x y StMine (Some (-1))])
| RevealSpec_empty (fs : FloodState) (popped : list (Z * Z)) :
    revealedOrFlagged (getCellState db x y) = false ->
    GameUtils.isMine MAP_SEED x y = false ->
    floodRun MAP_SEED db x y = Some fs ->
    FloodInv MAP_SEED db (x, y) popped fs ->
    cellsToReveal fs = [] ->
    RevealSpec MAP_SEED db p x y db Ignored
| RevealSpec_safe (fs : FloodState) (popped : list (Z * Z)) :
    revealedOrFlagged (getCellState db x y) = false ->
    GameUtils.isMine MAP_SEED x y = false ->
    floodRun MAP_SEED db x y = Some fs ->
    FloodInv MAP_SEED db (x, y) popped fs ->
    cellsToReveal fs <> [] ->
    RevealSpec MAP_SEED db p x y
      (updatePlayerScore (upsertAll db (cellsToReveal fs)) p (scoreChange fs))
      (Revealed (scoreChange fs) (clientCells (cellsToReveal fs))).

(** [test_db] after [(0, 7)], a mine under [test_seed], was revealed. *)
Definition test_db_mine : Db :=
  fst (revealCell test_seed test_db "p1" 0 7).

(** [test_db] after [(12, 21)] was flagged.  Under [test_seed] the cells
    [(11, 20)] and [(12, 20)] are safe with no adjacent mine, and
    [(12, 21)] is a neighbour of both. *)
Definition test_db_flag : Db :=
  fst (toggleFlag test_db "p1" 12 21).

Definition test_ops : list Op :=
  [OpToggleFlag "p2" 0 7; OpReveal "p1" 0 7; OpReveal "p2" 11 20;
   OpToggleFlag "p1" 0 8; OpReveal "p2" 0 7].

(** The row [row] of cell [c] is still there after a call with result
    [r], and [c] is not among the cells the call returns. *)
Definition rowKept (c : Z * Z) (row : CellRow) (r : Db * RevealResult) : Prop :=
  getCellState (fst r) (fst c) (snd c) = Some row
  /\ c ∉ map cell_key (resultCells (snd r)).

(** The flood [run] finished without enqueueing [c] or listing it for
    writing. *)
Definition floodAvoids (c : Z * Z) (run : option FloodState) : Prop :=
  match run with
  | Some fs => (c ∉ pushed fs) /\ (c ∉ map cd_key (cellsToReveal fs))
  | None => False
  end.

(** What [visitNeighbor] does for the neighbour [(dx, dy)] of the cell
    [(u, v)] of the map. *)
Definition neighbourStep (db : Db) (fs : FloodState) (u v dx dy : Z) : Prop :=
  let key := ((u + dx) mod MAP_WIDTH, (v + dy) mod MAP_HEIGHT) in
  let fs' := visitNeighbor db u v fs dx dy in
  if decide (key ∈ visited fs) then fs' = fs
  else peeked fs' = peeked fs ++ [key]
       /\ if decide (hiddenAt db key)
          then queue fs' = queue fs ++ [key] /\ visited fs' = {[key]} ∪ visited fs
          else queue fs' = queue fs /\ visited fs' = visited fs.

(** The flood [run] from [start] finished, and its [visited] set is the
    set of the cells it enqueued: the start cell and the cells read and
    found hidden, none of them twice. *)
Definition visitedIffEnqueued (db : Db) (start : Z * Z)
    (run : option FloodState) : Prop :=
  match run with
  | Some fs =>
      visited fs = list_to_set (pushed fs)
      /\ pushed fs = start :: filter (hiddenAt db) (peeked fs)
      /\ NoDup (pushed fs)
      /\ NoDup (filter (hiddenAt db) (peeked fs))
      /\ (forall c, c ∈ peeked fs -> ~ hiddenAt db c -> c ∉ visited fs)
  | None => False
  end.

(** ** [db/repository.js]: the statements on [players] run at connect and
       on every message *)
Module PlayerRepository.
Import Repository.

(** [UPDATE players SET last_seen = ? WHERE player_id = ?], with the
    [changes] count SQLite reports. *)
Definition touchLastSeen (db : Db) (now playerId : string) : Db * Z :=
  match players db !! playerId with
  | Some r =>
      (MkDb (map_state db)
            (<[ playerId := MkPlayerRow (score r) now ]> (players db)), 1)
  | None => (db, 0)
  end.

(** [INSERT OR IGNORE INTO players (player_id, score, last_seen)
    VALUES (?, 0, ?)] *)
Definition insertPlayerOrIgnore (db : Db) (playerId now : string) : Db :=
  match players db !! playerId with
  | Some _ => db
  | None =>
      MkDb (map_state db) (<[ playerId := MkPlayerRow 0 now ]> (players db))
  end.

(** [SELECT * FROM players WHERE player_id = ?] *)
Definition selectPlayer (db : Db) (playerId : string) : option PlayerRow :=
  players db !! playerId.

(** [now] is the timestamp [new Date().toISOString()] of the call.  The
    returned row is the local object [player], whose [last_seen] the
    last step overwrites. *)
Definition findOrCreatePlayer (db : Db) (playerId now : string)
  : Db * option PlayerRow :=
  let '(db, changes) := touchLastSeen db now playerId in
  let '(db, player) :=
    if changes =? 0 then
      let db := insertPlayerOrIgnore db playerId now in
      (db, selectPlayer db playerId)
    else (db, selectPlayer db playerId) in
  match player with
  | Some p =>
      if negb (String.eqb (last_seen p) now)
      then (fst (touchLastSeen db now playerId), Some (MkPlayerRow (score p) now))
      else (db, Some p)
  | None => (db, None)
  end.

Definition updatePlayerLastSeen (db : Db) (playerId now : string) : Db :=
  fst (touchLastSeen db now playerId).

End PlayerRepository.

(** ** JavaScript [Map] objects: association lists in insertion order *)
Module JsMap.
Section WithKey.
Context {K V : Type} `{EqDecision K}.

(** [m.get(k)] *)
Fixpoint mapGet (m : list (K * V)) (k : K) : option V :=
  match m with
  | [] => None
  | (k', v) :: m' => if decide (k' = k) then Some v else mapGet m' k
  end.

(** [m.has(k)] *)
Definition mapHas (m : list (K * V)) (k : K) : bool :=
  match mapGet m k with Some _ => true | None => false end.

(** [m.set(k, v)]: a present key keeps its place, a new one goes last. *)
Fixpoint mapSet (m : list (K * V)) (k : K) (v : V) : list (K * V) :=
  match m with
  | [] => [(k, v)]
  | (k', v') :: m' =>
      if decide (k' = k) then (k, v) :: m' else (k', v') :: mapSet m' k v
  end.

(** [m.delete(k)] *)
Fixpoint mapDelete (m : list (K * V)) (k : K) : list (K * V) :=
  match m with
  | [] => []
  | (k', v') :: m' =>
      if decide (k' = k) then m' else (k', v') :: mapDelete m' k
  end.

End WithKey.
End JsMap.

(** ** [managers/playerManager.js] *)
Module PlayerManager.
Import MapConstants Repository GameController JsMap.

(** [a > b], [a >= b] and [a <= b] on numbers. *)
Definition js_le (a b : JsNumber) : bool :=
  match a, b with
  | NaN, _ | _, NaN => false
  | NegInfinity, _ => true
  | _, PosInfinity => true
  | PosInfinity, _ => false
  | _, NegInfinity => false
  | Finite p, Finite q => Qle_bool p q
  end.

Definition js_ge (a b : JsNumber) : bool := js_le b a.

Definition js_gt (a b : JsNumber) : bool :=
  match a, b with
  | NaN, _ | _, NaN => false
  | _, _ => negb (js_le a b)
  end.

(** [Math.min(a, b)] and [Math.max(a, b)]. *)
Definition js_min (a b : JsNumber) : JsNumber :=
  match a, b with
  | NaN, _ | _, NaN => NaN
  | _, _ => if js_le a b then a else b
  end.

Definition js_max (a b : JsNumber) : JsNumber :=
  match a, b with
  | NaN, _ | _, NaN => NaN
  | _, _ => if js_le a b then b else a
  end.

Definition ofZ (z : Z) : JsNumber := Finite (inject_Z z).

(** The objects held in [activePlayers]; [pl_ws] names the WebSocket
    object. *)
Record Player := MkPlayer {
  pl_ws : nat;
  pl_id : string;
  pl_x : JsNumber;
  pl_y : JsNumber;
  pl_score : Z
}.

(** [{ id, x, y, score }] *)
Record PlayerData := MkPlayerData {
  pd_id : string;
  pd_x : JsNumber;
  pd_y : JsNumber;
  pd_score : Z
}.

(** [{ id, x, y }] *)
Record PlayerPos := MkPlayerPos {
  pp_id : string;
  pp_x : JsNumber;
  pp_y : JsNumber
}.

(** The two module-level maps. *)
Record Registry := MkRegistry {
  activePlayers : list (string * Player);
  wsToPlayerId : list (nat * string)
}.

Definition emptyRegistry : Registry := MkRegistry [] [].

(** [Math.floor(MAP_WIDTH / 2)] and [Math.floor(MAP_HEIGHT / 2)] *)
Definition START_X : Z := MAP_WIDTH / 2.
Definition START_Y : Z := MAP_HEIGHT / 2.

(** [playerId] is the value [crypto.randomUUID()] returned and [now] the
    timestamp of the call.  [None] is the [null] returned when the
    database gave no row. *)
Definition addPlayer (db : Db) (reg : Registry) (ws : nat) (playerId now : string)
  : Db * Registry * option PlayerData :=
  let '(db, dbPlayer) := PlayerRepository.findOrCreatePlayer db playerId now in
  match dbPlayer with
  | None => (db, reg, None)
  | Some row =>
      let player := MkPlayer ws playerId (ofZ START_X) (ofZ START_Y) (score row) in
      (db,
       MkRegistry (mapSet (activePlayers reg) playerId player)
                  (mapSet (wsToPlayerId reg) ws playerId),
       Some (MkPlayerData (pl_id player) (pl_x player) (pl_y player)
                          (pl_score player)))
  end.

(** A string is truthy when it is not empty. *)
Definition truthy (s : string) : bool := negb (String.eqb s "").

Definition removePlayer (db : Db) (reg : Registry) (ws : nat) (now : string)
  : Db * Registry * option string :=
  match mapGet (wsToPlayerId reg) ws with
  | Some playerId =>
      if truthy playerId && mapHas (activePlayers reg) playerId then
        (PlayerRepository.updatePlayerLastSeen db playerId now,
         MkRegistry (mapDelete (activePlayers reg) playerId)
                    (mapDelete (wsToPlayerId reg) ws),
         Some playerId)
      else (db, reg, None)
  | None => (db, reg, None)
  end.

(** [Math.max(0, Math.min(bound - 1, v))] *)
Definition clamp (bound : Z) (v : JsNumber) : JsNumber :=
  js_max (ofZ 0) (js_min (ofZ (bound - 1)) v).

Definition updatePlayerPosition (reg : Registry) (playerId : string)
    (x y : JsNumber) : Registry :=
  match mapGet (activePlayers reg) playerId with
  | Some player =>
      MkRegistry
        (mapSet (activePlayers reg) playerId
           (MkPlayer (pl_ws player) (pl_id player)
                     (clamp MAP_WIDTH x) (clamp MAP_HEIGHT y) (pl_score player)))
        (wsToPlayerId reg)
  | None => reg
  end.

Definition updatePlayerScore (reg : Registry) (playerId : string) (newScore : Z)
  : Registry :=
  match mapGet (activePlayers reg) playerId with
  | Some player =>
      MkRegistry
        (mapSet (activePlayers reg) playerId
           (MkPlayer (pl_ws player) (pl_id player) (pl_x player) (pl_y player)
                     newScore))
        (wsToPlayerId reg)
  | None => reg
  end.

Definition getPlayerById (reg : Registry) (playerId : string) : option Player :=
  mapGet (activePlayers reg) playerId.

Definition getPlayerIdByWs (reg : Registry) (ws : nat) : option string :=
  mapGet (wsToPlayerId reg) ws.

(** The test of one coordinate against one axis of the region. *)
Definition inRegionAxis (checkWrap : bool) (lo hi v : JsNumber) : bool :=
  if checkWrap then js_ge v lo || js_le v hi
  else js_ge v lo && js_le v hi.

(** [excludePlayerId] is [None] for [null]. *)
Definition getPlayersInRegion (reg : Registry) (xMin yMin xMax yMax : JsNumber)
    (excludePlayerId : option string) : list PlayerPos :=
  let checkXWrap := js_gt xMin xMax in
  let checkYWrap := js_gt yMin yMax in
  fold_left
    (fun nearbyPlayers entry =>
       let '(id, player) := entry in
       if bool_decide (Some id = excludePlayerId) then nearbyPlayers
       else if negb (inRegionAxis checkXWrap xMin xMax (pl_x player))
       then nearbyPlayers
       else if inRegionAxis checkYWrap yMin yMax (pl_y player)
       then nearbyPlayers
            ++ [MkPlayerPos (pl_id player) (pl_x player) (pl_y player)]
       else nearbyPlayers)
    (activePlayers reg) [].

Definition getAllActivePlayers (reg : Registry) : list PlayerData :=
  map (fun entry =>
         MkPlayerData (pl_id (snd entry)) (pl_x (snd entry)) (pl_y (snd entry))
                      (pl_score (snd entry)))
      (activePlayers reg).

End PlayerManager.

(** ** [controllers/gameController.js]: what the handlers do after
       validation

    Centres of regions and cell coordinates are integers, on which the
    region arithmetic is exact.  A handler returns the messages it sends,
    in order, each with the WebSocket it is sent on.  The cases of
    [handleMessage] start from the database that the refresh of
    [last_seen], issued first by [handleMessage], has left. *)
Module GameControllerFlow.
Import MapConstants Repository GameStateManager GameController PlayerManager.

Definition VIEWPORT_RADIUS_X : Z := 30.
Definition VIEWPORT_RADIUS_Y : Z := 20.

(** The messages sent to clients, by [type]. *)
Inductive Outbound :=
| InitialState (playerId : string) (score : Z) (cells : list ClientCell)
               (players : list PlayerPos) (selfX selfY : JsNumber)
| MapUpdate (cells : list ClientCell)
| PlayerJoined (id : string) (x y : JsNumber)
| PlayerLeft (id : string)
| PlayerPositionUpdate (players : list PlayerPos)
| ScoreUpdate (score : Z)
| PlayerPenalty (score stunDurationMs : Z)
| ErrorReply.

(** The bounding box [(xMin, yMin, xMax, yMax)] computed by
    [broadcastToRegion] and [handleConnect]. *)
Definition regionBounds (centerX centerY radiusX radiusY : Z) : Z * Z * Z * Z :=
  let xMin := Z.rem (centerX - radiusX + MAP_WIDTH) MAP_WIDTH in
  let xMax := Z.rem (centerX + radiusX) MAP_WIDTH in
  let yMin := Z.rem (centerY - radiusY + MAP_HEIGHT) MAP_HEIGHT in
  let yMax := Z.rem (centerY + radiusY) MAP_HEIGHT in
  (xMin, yMin, xMax, yMax).

(** JavaScript truthiness of a column value. *)
Definition truthyZ (z : Z) : bool := negb (z =? 0).

Definition truthyOpt (o : option Z) : bool :=
  match o with
  | Some z => truthyZ z
  | None => false
  end.

(** The projection of a stored row into a client cell, as in
    [handleConnect]. *)
Definition projectCell (row : Z * Z * CellRow) : ClientCell :=
  let '(x, y, cell) := row in
  MkClientCell x y
    (if truthyZ (revealed cell)
     then (if truthyOpt (is_mine cell) then StMine else StRevealed)
     else (if truthyZ (flag_state cell) then StFlagged else StHidden))
    (if truthyZ (revealed cell) && negb (truthyOpt (is_mine cell))
     then adjacent_mines cell
     else if truthyZ (revealed cell) && truthyOpt (is_mine cell)
          then Some (-1)
          else None).

(** The integer a number is, if it is one.  The handlers that take the
    centre of a region from a player's position are modelled where that
    position is a pair of integers. *)
Definition integerOf (v : JsNumber) : option Z :=
  match v with
  | Finite q =>
      if (Qnum q) mod (Z.pos (Qden q)) =? 0
      then Some (Qnum q / Z.pos (Qden q))
      else None
  | _ => None
  end.

Section WithSockets.
(** [ws.readyState === WebSocket.OPEN] *)
Variable isOpen : nat -> bool.

Definition broadcastToRegion (reg : Registry)
    (centerX centerY radiusX radiusY : Z) (message : Outbound)
    (excludePlayerId : option string) : list (nat * Outbound) :=
  let '(xMin, yMin, xMax, yMax) :=
    regionBounds centerX centerY radiusX radiusY in
  let playersInRegion :=
    getPlayersInRegion reg (ofZ xMin) (ofZ yMin) (ofZ xMax) (ofZ yMax)
                       excludePlayerId in
  flat_map
    (fun p =>
       match getPlayerById reg (pp_id p) with
       | Some playerSession =>
           if isOpen (pl_ws playerSession)
           then [(pl_ws playerSession, message)]
           else []
       | None => []
       end)
    playersInRegion.

(** What [handleConnect] leaves: the socket closed, or the messages
    sent. *)
Inductive ConnectOutcome :=
| SocketClosed
| Connected (sent : list (nat * Outbound)).

(** The new player starts at [(START_X, START_Y)]; the region is taken
    around that point. *)
Definition handleConnect (db : Db) (reg : Registry) (ws : nat)
    (newPlayerId now : string) : Db * Registry * ConnectOutcome :=
  let '(db, reg, newPlayerData) := addPlayer db reg ws newPlayerId now in
  match newPlayerData with
  | Some data =>
      let playerId := pd_id data in
      let '(xMin, yMin, xMax, yMax) :=
        regionBounds START_X START_Y VIEWPORT_RADIUS_X VIEWPORT_RADIUS_Y in
      let cellsData := getCellStatesInRegion db xMin yMin xMax yMax in
      let mapChunk := map projectCell cellsData in
      let nearbyPlayers :=
        getPlayersInRegion reg (ofZ xMin) (ofZ yMin) (ofZ xMax) (ofZ yMax)
                           (Some playerId) in
      let initialStateMessage :=
        InitialState playerId (pd_score data) mapChunk nearbyPlayers
                     (pd_x data) (pd_y data) in
      let playerJoinedMessage := PlayerJoined playerId (pd_x data) (pd_y data) in
      (db, reg,
       Connected
         ((ws, initialStateMessage)
          :: broadcastToRegion reg START_X START_Y
               VIEWPORT_RADIUS_X VIEWPORT_RADIUS_Y playerJoinedMessage
               (Some playerId)))
  | None => (db, reg, SocketClosed)
  end.

(** The object [player] that [handleMessage] took from the registry
    under [playerId] is the one the registry holds: a field read after
    [updatePlayerScore] is the updated field. *)
Definition playerObject (reg : Registry) (playerId : string) (player : Player)
  : Player :=
  match getPlayerById reg playerId with
  | Some held => held
  | None => player
  end.

Section WithSeed.
Variable MAP_SEED : string.

(** The [clickCell] case of [handleMessage] after validation, for the
    player [player] found for [playerId]. *)
Definition handleClickCell (db : Db) (reg : Registry) (ws : nat)
    (playerId : string) (player : Player) (x y : Z)
  : Db * Registry * list (nat * Outbound) :=
  let '(db, result) := revealCell MAP_SEED db playerId x y in
  match result with
  | Ignored => (db, reg, [])
  | MineHit scoreDelta stunDurationMs revealedCells =>
      let reg :=
        PlayerManager.updatePlayerScore reg playerId
          (pl_score player + scoreDelta) in
      let player := playerObject reg playerId player in
      (db, reg,
       (ws, PlayerPenalty (pl_score player + scoreDelta) stunDurationMs)
       :: broadcastToRegion reg x y VIEWPORT_RADIUS_X VIEWPORT_RADIUS_Y
            (MapUpdate revealedCells) None)
  | Revealed scoreDelta revealedCells =>
      let reg :=
        PlayerManager.updatePlayerScore reg playerId
          (pl_score player + scoreDelta) in
      let player := playerObject reg playerId player in
      (db, reg,
       (ws, ScoreUpdate (pl_score player + scoreDelta))
       :: broadcastToRegion reg x y VIEWPORT_RADIUS_X VIEWPORT_RADIUS_Y
            (MapUpdate revealedCells) None)
  end.

End WithSeed.

(** The [flagCell] case of [handleMessage] after validation. *)
Definition handleFlagCell (db : Db) (reg : Registry) (playerId : string)
    (x y : Z) : Db * Registry * list (nat * Outbound) :=
  let '(db, result) := toggleFlag db playerId x y in
  match result with
  | Flagged cx cy state | Unflagged cx cy state =>
      (db, reg,
       broadcastToRegion reg x y VIEWPORT_RADIUS_X VIEWPORT_RADIUS_Y
         (MapUpdate [MkClientCell cx cy state None]) None)
  | FlagIgnored => (db, reg, [])
  end.

(** [handleDisconnect]; [now] is the time of the call.  The result is
    [None] when the last position is not a pair of integers. *)
Definition handleDisconnect (db : Db) (reg : Registry) (ws : nat) (now : string)
  : option (Db * Registry * list (nat * Outbound)) :=
  match getPlayerIdByWs reg ws with
  | Some playerId =>
      if truthy playerId then
        let player := getPlayerById reg playerId in
        let lastX :=
          match player with Some player => pl_x player | None => ofZ START_X end in
        let lastY :=
          match player with Some player => pl_y player | None => ofZ START_Y end in
        let '(db, reg, _) := removePlayer db reg ws now in
        let playerLeftMessage := PlayerLeft playerId in
        match integerOf lastX, integerOf lastY with
        | Some centerX, Some centerY =>
            Some (db, reg,
                  broadcastToRegion reg centerX centerY
                    VIEWPORT_RADIUS_X VIEWPORT_RADIUS_Y playerLeftMessage None)
        | _, _ => None
        end
      else Some (db, reg, [])
  | None => Some (db, reg, [])
  end.

(** The [updatePosition] case of [handleMessage] after validation, for
    the player [player] found for [playerId].  The message and the
    centre of the broadcast are read from the player object after
    [updatePlayerPosition] changed it.  The result is [None] when the
    new position is not a pair of integers. *)
Definition handleUpdatePosition (reg : Registry) (playerId : string)
    (player : Player) (x y : JsNumber)
  : option (Registry * list (nat * Outbound)) :=
  let reg := updatePlayerPosition reg playerId x y in
  let player := playerObject reg playerId player in
  let positionUpdateMessage :=
    PlayerPositionUpdate [MkPlayerPos playerId (pl_x player) (pl_y player)] in
  match integerOf (pl_x player), integerOf (pl_y player) with
  | Some centerX, Some centerY =>
      Some (reg,
            broadcastToRegion reg centerX centerY
              VIEWPORT_RADIUS_X VIEWPORT_RADIUS_Y positionUpdateMessage
              (Some playerId))
  | _, _ => None
  end.

End WithSockets.

End GameControllerFlow.

(** ** [public/js/app.js]: the state a client keeps *)
Module Client.
Import MapConstants GameStateManager GameController PlayerManager
       GameControllerFlow.

(** An entry of [mapData]: [{ state, value }]. *)
Record CellView := MkCellView {
  cv_state : StateName;
  cv_value : option Z
}.

(** An entry of [players]: [{ id, x, y, isSelf }]. *)
Record PlayerView := MkPlayerView {
  pv_id : string;
  pv_x : JsNumber;
  pv_y : JsNumber;
  pv_isSelf : bool
}.

(** The globals [playerId], [score], [mapData] and [players]; the keys
    [`${x},${y}`] of [mapData] are coordinate pairs. *)
Record ClientState := MkClient {
  cl_playerId : option string;
  cl_score : Z;
  cl_mapData : gmap (Z * Z) CellView;
  cl_players : gmap string PlayerView
}.

Definition initialClient : ClientState := MkClient None 0 ∅ ∅.

(** [cells.forEach(cell => mapData[key] = { state, value })] *)
Definition storeCells (mapData : gmap (Z * Z) CellView) (cells : list ClientCell)
  : gmap (Z * Z) CellView :=
  fold_left
    (fun mapData cell =>
       <[ (cell_x cell, cell_y cell) :=
            MkCellView (cell_state cell) (cell_value cell) ]> mapData)
    cells mapData.

Definition handleWebSocketMessage (st : ClientState) (message : Outbound)
  : ClientState :=
  match message with
  | InitialState playerId score cells players selfX selfY =>
      let mapData := storeCells ∅ cells in
      let others :=
        fold_left
          (fun acc p =>
             <[ pp_id p := MkPlayerView (pp_id p) (pp_x p) (pp_y p) false ]> acc)
          players ∅ in
      MkClient (Some playerId) score mapData
               (<[ playerId := MkPlayerView playerId selfX selfY true ]> others)
  | MapUpdate cells =>
      MkClient (cl_playerId st) (cl_score st)
               (storeCells (cl_mapData st) cells) (cl_players st)
  | PlayerJoined id x y =>
      if bool_decide (Some id = cl_playerId st) then st
      else MkClient (cl_playerId st) (cl_score st) (cl_mapData st)
                    (<[ id := MkPlayerView id x y false ]> (cl_players st))
  | PlayerLeft id =>
      MkClient (cl_playerId st) (cl_score st) (cl_mapData st)
               (delete id (cl_players st))
  | PlayerPositionUpdate players =>
      MkClient (cl_playerId st) (cl_score st) (cl_mapData st)
        (fold_left
           (fun acc p =>
              match acc !! pp_id p with
              | Some view =>
                  if bool_decide (Some (pp_id p) = cl_playerId st) then acc
                  else <[ pp_id p :=
                            MkPlayerView (pv_id view) (pp_x p) (pp_y p)
                                         (pv_isSelf view) ]> acc
              | None => acc
              end)
           players (cl_players st))
  | ScoreUpdate score =>
      MkClient (cl_playerId st) score (cl_mapData st) (cl_players st)
  | PlayerPenalty score _ =>
      MkClient (cl_playerId st) score (cl_mapData st) (cl_players st)
  | ErrorReply => st
  end.

(** [screenToMapCoords] from the floored map coordinates
    [Math.floor(screen / CELL_SIZE + viewport)] on. *)
Definition wrapMapCoords (mapX mapY : Z) : Z * Z :=
  (Z.rem (mapX + MAP_WIDTH) MAP_WIDTH, Z.rem (mapY + MAP_HEIGHT) MAP_HEIGHT).

End Client.

(** ** Vocabulary of the further statements *)

(** The neighbour of the cell [c] at offset [d], around the edges of the
    map. *)
Definition neighbour (c d : Z * Z) : Z * Z :=
  ((fst c + fst d) mod MAP_WIDTH, (snd c + snd d) mod MAP_HEIGHT).

(** The cells a flood from [start] can reach: [start], and every
    neighbour, neither revealed nor flagged, of a reached cell without an
    adjacent mine. *)
Inductive Reach (MAP_SEED : string) (db : Db) (start : Z * Z) : Z * Z -> Prop :=
| Reach_start : Reach MAP_SEED db start start
| Reach_step (c d : Z * Z) :
    Reach MAP_SEED db start c ->
    GameUtils.calculateAdjacentMines MAP_SEED (fst c) (snd c) = 0 ->
    d ∈ offsets8 ->
    hiddenAt db (neighbour c d) ->
    Reach MAP_SEED db start (neighbour c d).

(** What the loop of [performSafeReveal] keeps besides [FloodInv], when
    it starts on a cell of the map: every cell marked visited can be
    reached, and the neighbours of the cells already taken off the queue
    have been looked at. *)
Record FloodReach (MAP_SEED : string) (db : Db) (start : Z * Z)
    (popped : list (Z * Z)) (fs : FloodState) : Prop := MkFloodReach {
  fr_reach : forall c, c ∈ visited fs -> Reach MAP_SEED db start c;
  fr_closed : forall c d,
    c ∈ popped ->
    GameUtils.calculateAdjacentMines MAP_SEED (fst c) (snd c) = 0 ->
    d ∈ offsets8 ->
    hiddenAt db (neighbour c d) ->
    neighbour c d ∈ visited fs
}.

(** The client cell of a safe cell [c]. *)
Definition safeCell (MAP_SEED : string) (c : Z * Z) : ClientCell :=
  MkClientCell (fst c) (snd c) StRevealed
    (Some (GameUtils.calculateAdjacentMines MAP_SEED (fst c) (snd c))).

(** The client cell of a mine at [c]. *)
Definition mineCell (c : Z * Z) : ClientCell :=
  MkClientCell (fst c) (snd c) StMine (Some (-1)).

(** How a [revealCell] call on [(x, y)] ends, by what the database holds
    for the cell and what the map has there: [db'] is the database left
    and [r] the object returned. *)
Definition revealOutcome (MAP_SEED : string) (db : Db) (x y : Z)
    (db' : Db) (r : RevealResult) : Prop :=
  if revealedOrFlagged (getCellState db x y) then db' = db /\ r = Ignored
  else if GameUtils.isMine MAP_SEED x y
       then r = MineHit (-50) 3000 [mineCell (x, y)]
       else exists rest,
              r = Revealed (1 + Z.of_nat (length rest))
                           (safeCell MAP_SEED (x, y) :: rest).

(** The row [upsertRevealedCellState] stores for a returned cell. *)
Definition storedRow (cell : ClientCell) : CellRow :=
  match cell_state cell with
  | StMine => MkCellRow 1 (Some 1) None 0
  | _ => MkCellRow 1 (Some 0) (cell_value cell) 0
  end.

(** A returned cell tells the truth about the map: a mine where the map
    has one, and otherwise the number of mines around it. *)
Definition truthfulCell (MAP_SEED : string) (cell : ClientCell) : Prop :=
  if GameUtils.isMine MAP_SEED (cell_x cell) (cell_y cell)
  then cell = mineCell (cell_key cell)
  else cell = safeCell MAP_SEED (cell_key cell).

(** A stored row agrees with the map: it is the row of a flag, or the
    revealed row of a mine where the map has a mine, or the revealed row
    of a safe cell, with its adjacency count, where the map has none. *)
Definition rowConsistent (MAP_SEED : string) (c : Z * Z) (r : CellRow) : Prop :=
  r = MkCellRow 0 None None 1
  \/ (r = MkCellRow 1 (Some 1) None 0
      /\ GameUtils.isMine MAP_SEED (fst c) (snd c) = true)
  \/ (r = MkCellRow 1 (Some 0)
            (Some (GameUtils.calculateAdjacentMines MAP_SEED (fst c) (snd c))) 0
      /\ GameUtils.isMine MAP_SEED (fst c) (snd c) = false).

(** Every stored row is the row of a cell of the map and agrees with
    the map. *)
Definition dbConsistent (MAP_SEED : string) (db : Db) : Prop :=
  forall c r, map_state db !! c = Some r -> inGrid c /\ rowConsistent MAP_SEED c r.

(** A call on a cell of the map, as [handleMessage] lets through. *)
Definition opInGrid (op : Op) : Prop :=
  match op with
  | OpReveal _ x y => inGrid (x, y)
  | OpToggleFlag _ x y => inGrid (x, y)
  end.

(** Two numbers with the same value. *)
Definition sameNumber (a b : GameController.JsNumber) : Prop :=
  match a, b with
  | GameController.NaN, GameController.NaN => True
  | GameController.PosInfinity, GameController.PosInfinity => True
  | GameController.NegInfinity, GameController.NegInfinity => True
  | GameController.Finite p, GameController.Finite q => (p == q)%Q
  | _, _ => False
  end.

(** A number inside [[0, bound - 1]]. *)
Definition inMapRange (bound : Z) (v : GameController.JsNumber) : Prop :=
  PlayerManager.js_le (PlayerManager.ofZ 0) v = true
  /\ PlayerManager.js_le v (PlayerManager.ofZ (bound - 1)) = true.

(** The two maps of the registry describe the same sessions: no key
    occurs twice, every socket with a player id has that player in
    [activePlayers], and every active player is stored under its own id
    with its socket known. *)
Record registryConsistent (reg : PlayerManager.Registry) : Prop := MkRegistryConsistent {
  rc_players_nodup : NoDup (map fst (PlayerManager.activePlayers reg));
  rc_sockets_nodup : NoDup (map fst (PlayerManager.wsToPlayerId reg));
  rc_socket : forall ws id,
    JsMap.mapGet (PlayerManager.wsToPlayerId reg) ws = Some id ->
    exists player,
      JsMap.mapGet (PlayerManager.activePlayers reg) id = Some player
      /\ PlayerManager.pl_ws player = ws;
  rc_player : forall id player,
    JsMap.mapGet (PlayerManager.activePlayers reg) id = Some player ->
    PlayerManager.pl_id player = id
    /\ id <> ""%string
    /\ JsMap.mapGet (PlayerManager.wsToPlayerId reg) (PlayerManager.pl_ws player)
       = Some id
}.

(** A registry with two sessions, used to run the handlers on concrete
    inputs. *)
Definition test_registry : PlayerManager.Registry :=
  PlayerManager.MkRegistry
    [("p1"%string,
      PlayerManager.MkPlayer 1 "p1" (PlayerManager.ofZ 320) (PlayerManager.ofZ 320) 0);
     ("p2"%string,
      PlayerManager.MkPlayer 2 "p2" (PlayerManager.ofZ 5) (PlayerManager.ofZ 630) 7)]
    [(1%nat, "p1"%string); (2%nat, "p2"%string)].

(** The registry a step of the player manager leaves. *)
Definition afterAdd (db : Db) (reg : PlayerManager.Registry) (ws : nat)
    (playerId now : string) : PlayerManager.Registry :=
  snd (fst (PlayerManager.addPlayer db reg ws playerId now)).

Definition afterRemove (db : Db) (reg : PlayerManager.Registry) (ws : nat)
    (now : string) : PlayerManager.Registry :=
  snd (fst (PlayerManager.removePlayer db reg ws now)).

(** The distance of [a] and [b] on a circle of [M] cells. *)
Definition torusDist (M a b : Z) : Z := Z.min ((a - b) mod M) ((b - a) mod M).

(** The cell [(x, y)] lies within the viewport radii of the cell
    [(cx, cy)], around the edges of the map. *)
Definition inViewport (cx cy x y : Z) : Prop :=
  torusDist MAP_WIDTH x cx <= GameControllerFlow.VIEWPORT_RADIUS_X
  /\ torusDist MAP_HEIGHT y cy <= GameControllerFlow.VIEWPORT_RADIUS_Y.

(** The cursor of [player] is on the cell [(x, y)]. *)
Definition playerAt (player : PlayerManager.Player) (x y : Z) : Prop :=
  PlayerManager.pl_x player = PlayerManager.ofZ x
  /\ PlayerManager.pl_y player = PlayerManager.ofZ y.

(** The cursor of [player] is on a cell of the map within the viewport
    radii of [(cx, cy)]. *)
Definition playerNear (cx cy : Z) (player : PlayerManager.Player) : Prop :=
  exists x y, inGrid (x, y) /\ playerAt player x y /\ inViewport cx cy x y.

(** Every active player has its cursor on a cell of the map. *)
Definition registryOnGrid (reg : PlayerManager.Registry) : Prop :=
  forall id player,
    PlayerManager.getPlayerById reg id = Some player ->
    exists x y, inGrid (x, y) /\ playerAt player x y.

(** Whether the loop of [getPlayersInRegion] keeps an entry of
    [activePlayers], and what it pushes for it. *)
Definition keptEntry (xMin yMin xMax yMax : GameController.JsNumber)
    (exclude : option string) (entry : string * PlayerManager.Player) : bool :=
  negb (bool_decide (Some (fst entry) = exclude))
  && PlayerManager.inRegionAxis (PlayerManager.js_gt xMin xMax) xMin xMax
       (PlayerManager.pl_x (snd entry))
  && PlayerManager.inRegionAxis (PlayerManager.js_gt yMin yMax) yMin yMax
       (PlayerManager.pl_y (snd entry)).

Definition entryPos (entry : string * PlayerManager.Player)
  : PlayerManager.PlayerPos :=
  PlayerManager.MkPlayerPos (PlayerManager.pl_id (snd entry))
    (PlayerManager.pl_x (snd entry)) (PlayerManager.pl_y (snd entry)).

(** The score change a reveal result carries. *)
Definition resultDelta (r : RevealResult) : Z :=
  match r with
  | Ignored => 0
  | MineHit scoreDelta _ _ => scoreDelta
  | Revealed scoreDelta _ => scoreDelta
  end.

(** The reply to the clicking player, by the result of the reveal, for a
    player whose cached score was [oldScore] when the message came in. *)
Definition clickReply (oldScore : Z) (r : RevealResult)
  : option GameControllerFlow.Outbound :=
  match r with
  | Ignored => None
  | MineHit scoreDelta stunDurationMs _ =>
      Some (GameControllerFlow.PlayerPenalty (oldScore + 2 * scoreDelta)
              stunDurationMs)
  | Revealed scoreDelta _ =>
      Some (GameControllerFlow.ScoreUpdate (oldScore + 2 * scoreDelta))
  end.

(** A reply to the socket [ws], followed by a broadcast; nothing is
    sent without a reply. *)
Definition replyThenBroadcast (ws : nat)
    (reply : option GameControllerFlow.Outbound)
    (broadcast : list (nat * GameControllerFlow.Outbound))
  : list (nat * GameControllerFlow.Outbound) :=
  match reply with
  | Some message => (ws, message) :: broadcast
  | None => []
  end.

(** What the client stores for a cell it is sent. *)
Definition cellView (cell : ClientCell) : Client.CellView :=
  Client.MkCellView (cell_state cell) (cell_value cell).

(** Where the wrap of [screenToMapCoords] gives a coordinate of the map:
    from one map size below zero on, and at the multiples of the map
    size. *)
Definition wrapsIntoMap (M v : Z) : Prop := - M <= v \/ v mod M = 0.

(** An inbound [flagCell] message carrying [x] and [y]. *)
Definition flagCell (x y : GameController.JsValue) : GameController.Message :=
  GameController.MkMessage "flagCell" (Some (x, y)).

(** The JSON number of an integer. *)
Definition jsInt (z : Z) : GameController.JsValue :=
  GameController.JsNum (PlayerManager.ofZ z).

(** An integer coordinate after the clamp of [updatePlayerPosition]. *)
Definition clampZ (bound v : Z) : Z := Z.max 0 (Z.min (bound - 1) v).

(** The open sockets of the active players whose cursor is within the
    viewport radii of the cell [(x, y)]. *)
Definition audience (isOpen : nat -> bool) (reg : PlayerManager.Registry)
    (x y : Z) (ws : nat) : Prop :=
  isOpen ws = true
  /\ exists id player,
       PlayerManager.getPlayerById reg id = Some player
       /\ PlayerManager.pl_ws player = ws
       /\ playerNear x y player.

(** What a flag toggle on [(x, y)] leaves and reports, by what the
    database held for the cell. *)
Definition flagOutcome (db : Db) (x y : Z) (db' : Db) (cells : option ClientCell)
  : Prop :=
  match getCellState db x y with
  | None =>
      db' = MkDb (<[ (x, y) := MkCellRow 0 None None 1 ]> (map_state db)) (players db)
      /\ cells = Some (MkClientCell x y StFlagged None)
  | Some row =>
      if revealed row =? 1 then db' = db /\ cells = None
      else db' = MkDb (delete (x, y) (map_state db)) (players db)
           /\ cells = Some (MkClientCell x y StHidden None)
  end.

(** What the client stores for another player it is told about. *)
Definition otherView (id : string) (player : PlayerManager.Player)
  : Client.PlayerView :=
  Client.MkPlayerView id (PlayerManager.pl_x player) (PlayerManager.pl_y player)
    false.

(** The first message a connect sends on the new socket, handled by a
    client in state [st]; [st] itself when the connect sent nothing. *)
Definition clientAfterConnect (st : Client.ClientState)
    (outcome : GameControllerFlow.ConnectOutcome) : Client.ClientState :=
  match outcome with
  | GameControllerFlow.Connected ((_, message) :: _) =>
      Client.handleWebSocketMessage st message
  | _ => st
  end.

(** The ids a client lists. *)
Definition listed (st : Client.ClientState) (id : string) : Prop :=
  is_Some (Client.cl_players st !! id).

(** ** Vocabulary of the scoring statement *)




(** * Properties *)

Arguments GameUtils.isMine : simpl never.
Arguments GameUtils.calculateAdjacentMines : simpl never.
Arguments GameUtils.hashInt : simpl never.

Lemma MAP_WIDTH_pos : 0 < MAP_WIDTH.
Proof. reflexivity. Qed.

Lemma MAP_HEIGHT_pos : 0 < MAP_HEIGHT.
Proof. reflexivity. Qed.

(** ** The primitives on known values *)

Example sha256_abc :
  Sha256.digest_words (Sha256.bytes_of_string "abc")
  = [0xba7816bf; 0x8f01cfea; 0x414140de; 0x5dae2223;
     0xb00361a3; 0x96177a9c; 0xb410ff61; 0xf20015ad].
Proof. vm_compute. reflexivity. Qed.

Example sha256_empty :
  Sha256.digest_words []
  = [0xe3b0c442; 0x98fc1c14; 0x9afbf4c8; 0x996fb924;
     0x27ae41e4; 0x649b934c; 0xa495991b; 0x7852b855].
Proof. vm_compute. reflexivity. Qed.

Example sha256_two_blocks :
  Sha256.digest_words
    (Sha256.bytes_of_string
       "abcdbcdecdefdefgefghfghighijhijkijkljklmklmnlmnomnopnopq")
  = [0x248d6a61; 0xd20638b8; 0xe5c02693; 0x0c3e6039;
     0xa33ce459; 0x64ff2167; 0xf6ecedd4; 0x19db06c1].
Proof. vm_compute. reflexivity. Qed.

Example sha256_digest_length :
  length (Sha256.digest (Sha256.bytes_of_string "abc")) = 32%nat.
Proof. vm_compute. reflexivity. Qed.

Example seedInput_format :
  GameUtils.seedInput test_seed 100 7 = "TEST_SEED_A1B2C3D4:100,7"%string
  /\ GameUtils.seedInput test_seed 0 639 = "TEST_SEED_A1B2C3D4:0,639"%string.
Proof. split; vm_compute; reflexivity. Qed.

(** Integers up to [2^53] convert exactly; above, ties go to the even
    significand. *)
Example of_bigint_rounding :
  Double.of_bigint 5 = Double.Mk 5629499534213120 (-50)
  /\ Double.of_bigint (2 ^ 53 + 1) = Double.Mk (2 ^ 52) 1
  /\ Double.of_bigint (2 ^ 53 + 3) = Double.Mk (2 ^ 52 + 2) 1
  /\ Double.of_bigint (2 ^ 64 - 1) = Double.Mk (2 ^ 53) 11.
Proof. repeat split; vm_compute; reflexivity. Qed.

(** The double [0.15] is [0x1.3333333333333p-3], just below 15/100. *)
Example MINE_DENSITY_below :
  MINE_DENSITY = Double.Mk 0x13333333333333 (-55)
  /\ (Double.to_Q MINE_DENSITY < 15 # 100)%Q.
Proof. split; vm_compute; reflexivity. Qed.

(** ** The map oracle *)

(** The wrap [(n + M) % M] of the code, with JavaScript's truncating
    [%], is the mathematical residue for a neighbour of an in-range
    coordinate. *)
Lemma wrap_rem_mod (M v d : Z) :
  0 < M -> 0 <= v < M -> -1 <= d <= 1 ->
  Z.rem (v + d + M) M = (v + d) mod M.
Proof.
  intros HM Hv Hd.
  rewrite Z.rem_mod_nonneg by lia.
  replace (v + d + M) with (v + d + 1 * M) by lia.
  apply Z_mod_plus_full.
Qed.

(** C9: for in-range [(x, y)], [calculateAdjacentMines] is the sum of
    [isMine] over the eight neighbours taken modulo the map size, and it
    lies in [[0, 8]]. *)
Theorem calculateAdjacentMines_sum (MAP_SEED : string) (x y : Z) :
  0 <= x < MAP_WIDTH -> 0 <= y < MAP_HEIGHT ->
  GameUtils.calculateAdjacentMines MAP_SEED x y =
    sumZ (map (fun d => mineIndicator MAP_SEED ((x + fst d) mod MAP_WIDTH)
                                       ((y + snd d) mod MAP_HEIGHT))
              offsets8)
  /\ 0 <= GameUtils.calculateAdjacentMines MAP_SEED x y <= 8.
Proof.
  intros Hx Hy.
  assert (Hguard : (x <? 0) || (x >=? MAP_WIDTH) || (y <? 0) || (y >=? MAP_HEIGHT) = false).
  { repeat (apply orb_false_intro); lia. }
  unfold GameUtils.calculateAdjacentMines. rewrite Hguard.
  unfold GameUtils.countNeighbor, offsets8, sumZ, mineIndicator.
  cbn [fold_left map fold_right fst snd Z.eqb andb].
  rewrite !(wrap_rem_mod MAP_WIDTH x) by (auto using MAP_WIDTH_pos; lia).
  rewrite !(wrap_rem_mod MAP_HEIGHT y) by (auto using MAP_HEIGHT_pos; lia).
  repeat match goal with
         | |- context [GameUtils.isMine ?s ?a ?b] =>
             destruct (GameUtils.isMine s a b)
         end; split; lia.
Qed.


Lemma calculateAdjacentMines_sum_witness :
  0 <= 11 < MAP_WIDTH /\ 0 <= 20 < MAP_HEIGHT
  /\ GameUtils.calculateAdjacentMines test_seed 11 20 =
       sumZ (map (fun d => mineIndicator test_seed ((11 + fst d) mod MAP_WIDTH)
                                          ((20 + snd d) mod MAP_HEIGHT))
                 offsets8)
  /\ 0 <= GameUtils.calculateAdjacentMines test_seed 11 20 <= 8.
Proof.
  assert (H1 : 0 <= 11 < MAP_WIDTH) by (split; [discriminate | reflexivity]).
  assert (H2 : 0 <= 20 < MAP_HEIGHT) by (split; [discriminate | reflexivity]).
  exact (conj H1 (conj H2 (calculateAdjacentMines_sum test_seed 11 20 H1 H2))).
Defined.

(** ** The flag toggle *)

(** C10: on a cell without a stored record, the first [toggleFlag]
    reports [Flagged] and stores [revealed = 0, flag_state = 1]; the
    second reports [Unflagged] and removes the record, which gives back
    the database the two calls started from. *)
Theorem toggleFlag_twice (db : Db) (p1 p2 : string) (x y : Z) :
  getCellState db x y = None ->
  let r1 := toggleFlag db p1 x y in
  let r2 := toggleFlag (fst r1) p2 x y in
  snd r1 = Flagged x y StFlagged
  /\ getCellState (fst r1) x y = Some (MkCellRow 0 None None 1)
  /\ snd r2 = Unflagged x y StHidden
  /\ getCellState (fst r2) x y = None
  /\ fst r2 = db.
Proof.
  intros Hnone. unfold getCellState in Hnone.
  unfold toggleFlag, getCellState, setFlagState. rewrite Hnone. cbn.
  rewrite !lookup_insert_eq. cbn.
  rewrite lookup_delete_eq, delete_insert_eq, (delete_id _ _ Hnone).
  repeat split; auto. destruct db; reflexivity.
Qed.

Lemma toggleFlag_twice_witness :
  getCellState test_db 50 50 = None /\
  let r1 := toggleFlag test_db "p1" 50 50 in
  let r2 := toggleFlag (fst r1) "p1" 50 50 in
  snd r1 = Flagged 50 50 StFlagged
  /\ getCellState (fst r1) 50 50 = Some (MkCellRow 0 None None 1)
  /\ snd r2 = Unflagged 50 50 StHidden
  /\ getCellState (fst r2) 50 50 = None
  /\ fst r2 = test_db.
Proof.
  split; [reflexivity | apply (toggleFlag_twice test_db "p1" "p1" 50 50); reflexivity].
Defined.

(** ** Region queries *)

Lemma eval_condition_x (key : Z * Z) (lo hi : Z) :
  eval_condition key (if lo <=? hi then Between ColX lo hi else GeOrLe ColX lo hi) = true
  <-> inWrappedInterval lo hi (fst key).
Proof.
  unfold inWrappedInterval. destruct (Z.leb_spec lo hi); case_decide; try lia; cbn; lia.
Qed.

Lemma eval_condition_y (key : Z * Z) (lo hi : Z) :
  eval_condition key (if lo <=? hi then Between ColY lo hi else GeOrLe ColY lo hi) = true
  <-> inWrappedInterval lo hi (snd key).
Proof.
  unfold inWrappedInterval. destruct (Z.leb_spec lo hi); case_decide; try lia; cbn; lia.
Qed.

Lemma region_conditions_spec (key : Z * Z) (xMin yMin xMax yMax : Z) :
  forallb (eval_condition key) (region_conditions xMin yMin xMax yMax) = true
  <-> inWrappedInterval xMin xMax (fst key) /\ inWrappedInterval yMin yMax (snd key).
Proof.
  rewrite <- eval_condition_x, <- eval_condition_y.
  unfold region_conditions.
  destruct (xMin <=? xMax), (yMin <=? yMax); cbn [app forallb];
    rewrite !andb_true_iff; tauto.
Qed.

Lemma getCellStatesInRegion_spec (db : Db) (xMin yMin xMax yMax x y : Z) (r : CellRow) :
  (x, y, r) ∈ getCellStatesInRegion db xMin yMin xMax yMax
  <-> getCellState db x y = Some r
      /\ inWrappedInterval xMin xMax x /\ inWrappedInterval yMin yMax y.
Proof.
  unfold getCellStatesInRegion, getCellState.
  rewrite list_elem_of_In, filter_In, <- list_elem_of_In.
  rewrite elem_of_map_to_list, region_conditions_spec. cbn. tauto.
Qed.

(** C5: the region query returns, without repetition, exactly the stored
    rows whose key satisfies the wrap-aware interval predicate on both
    axes; the region [(W-2, 2, H-2, 2)] contains both [(1, 1)] and
    [(W-1, H-1)] when they are stored. *)
Theorem getCellStatesInRegion_exact (db : Db) (xMin yMin xMax yMax : Z) :
  (forall x y r,
     (x, y, r) ∈ getCellStatesInRegion db xMin yMin xMax yMax
     <-> getCellState db x y = Some r
         /\ inWrappedInterval xMin xMax x /\ inWrappedInterval yMin yMax y)
  /\ NoDup (getCellStatesInRegion db xMin yMin xMax yMax)
  /\ (forall r1 r2,
        getCellState db 1 1 = Some r1 ->
        getCellState db (MAP_WIDTH - 1) (MAP_HEIGHT - 1) = Some r2 ->
        (1, 1, r1) ∈ getCellStatesInRegion db (MAP_WIDTH - 2) (MAP_HEIGHT - 2) 2 2
        /\ (MAP_WIDTH - 1, MAP_HEIGHT - 1, r2)
             ∈ getCellStatesInRegion db (MAP_WIDTH - 2) (MAP_HEIGHT - 2) 2 2).
Proof.
  split; [| split].
  - intros x y r. apply getCellStatesInRegion_spec.
  - unfold getCellStatesInRegion. apply NoDup_ListNoDup, List.NoDup_filter.
    apply NoDup_ListNoDup, NoDup_map_to_list.
  - intros r1 r2 H1 H2. rewrite !getCellStatesInRegion_spec.
    unfold inWrappedInterval.
    split; (split; [assumption | split; case_decide; unfold MAP_WIDTH, MAP_HEIGHT in *; lia]).
Qed.

Lemma getCellStatesInRegion_exact_witness :
  let db := upsertRevealedCellState
              (upsertRevealedCellState test_db (MkCellData 1 1 0 (Some 0)))
              (MkCellData 639 639 1 None) in
  getCellState db 1 1 = Some (MkCellRow 1 (Some 0) (Some 0) 0)
  /\ getCellState db (MAP_WIDTH - 1) (MAP_HEIGHT - 1) = Some (MkCellRow 1 (Some 1) None 0)
  /\ (1, 1, MkCellRow 1 (Some 0) (Some 0) 0)
       ∈ getCellStatesInRegion db (MAP_WIDTH - 2) (MAP_HEIGHT - 2) 2 2
  /\ (MAP_WIDTH - 1, MAP_HEIGHT - 1, MkCellRow 1 (Some 1) None 0)
       ∈ getCellStatesInRegion db (MAP_WIDTH - 2) (MAP_HEIGHT - 2) 2 2.
Proof.
  intros db.
  split; [reflexivity | split; [reflexivity |]].
  apply (getCellStatesInRegion_exact db 0 0 0 0); reflexivity.
Defined.

(** ** The mine threshold *)

Lemma MINE_DENSITY_value : MINE_DENSITY = Double.Mk 5404319552844595 (-55).
Proof. vm_compute. reflexivity. Qed.

Lemma ilog2_rat_int (h : Z) : 0 < h -> Double.ilog2_rat h 1 = Z.log2 h.
Proof.
  intros Hh. unfold Double.ilog2_rat. cbn [Z.log2].
  rewrite Z.sub_0_r.
  pose proof (Z.log2_nonneg h) as Hn.
  pose proof (Z.log2_spec h Hh) as [Hlo _].
  destruct (Z.leb_spec 0 (Z.log2 h)); [| lia].
  destruct (Z.leb_spec (1 * 2 ^ Z.log2 h) h); [reflexivity | lia].
Qed.

Lemma two64_value : Double.of_bigint (2 ^ 64) = Double.Mk 4503599627370496 12.
Proof. vm_compute. reflexivity. Qed.

(** Dividing a normalised double by [2^64] only lowers its exponent. *)
Lemma div_two64 (m ea : Z) :
  2 ^ 52 <= m < 2 ^ 53 -> ea <= 12 ->
  Double.div (Double.Mk m ea) (Double.Mk 4503599627370496 12)
  = Double.Mk m (ea - 64).
Proof.
  intros Hm Hea. unfold Double.div. cbn [Double.mant Double.expo].
  rewrite Z.min_l, Z.sub_diag, Z.pow_0_r, Z.mul_1_r by lia.
  set (D := 2 ^ (12 - ea)).
  assert (HD : 0 < D) by (apply Z.pow_pos_nonneg; lia).
  change 4503599627370496 with (2 ^ 52).
  assert (Hlm : Z.log2 m = 52) by (apply Z.log2_unique; lia).
  assert (Hd : 2 ^ 52 * D = 2 ^ (64 - ea)).
  { unfold D. rewrite <- Z.pow_add_r by lia. f_equal. lia. }
  assert (Hld : Z.log2 (2 ^ 52 * D) = 64 - ea).
  { rewrite Hd. apply Z.log2_pow2. lia. }
  unfold Double.round_rat. destruct (Z.eqb_spec m 0) as [-> | _]; [lia |].
  assert (Hlog : Double.ilog2_rat m (2 ^ 52 * D) = ea - 12).
  { unfold Double.ilog2_rat. rewrite Hlm, Hld.
    replace (52 - (64 - ea)) with (ea - 12) by lia.
    destruct (Z.leb_spec 0 (ea - 12)).
    - replace (ea - 12) with 0 by lia. rewrite Z.pow_0_r, Z.mul_1_r.
      assert (D = 1) as -> by (unfold D; replace (12 - ea) with 0 by lia; reflexivity).
      destruct (Z.leb_spec (2 ^ 52 * 1) m); [reflexivity | lia].
    - replace (- (ea - 12)) with (12 - ea) by lia. fold D.
      destruct (Z.leb_spec (2 ^ 52 * D) (m * D)); [reflexivity | nia]. }
  rewrite Hlog. replace (ea - 12 - 52) with (ea - 64) by lia.
  destruct (Z.leb_spec 0 (ea - 64)); [lia |].
  replace (- (ea - 64)) with (64 - ea) by lia. rewrite <- Hd.
  unfold Double.round_half_even.
  rewrite Z.div_mul, Z.mod_mul by lia.
  destruct (Z.ltb_spec (2 * 0) (2 ^ 52 * D)); [reflexivity | lia].
Qed.

(** [belowDensity] once the binary exponent of [h] is known. *)
Lemma belowDensity_binade (h k : Z) :
  0 < h -> Z.log2 h = k ->
  GameUtils.belowDensity h =
    Double.ltb
      (Double.div
         (Double.Mk (if 0 <=? k - 52 then Double.round_half_even h (1 * 2 ^ (k - 52))
                     else Double.round_half_even (h * 2 ^ (- (k - 52))) 1)
                    (k - 52))
         (Double.Mk 4503599627370496 12))
      (Double.Mk 5404319552844595 (-55)).
Proof.
  intros Hh Hk. unfold GameUtils.belowDensity.
  rewrite two64_value, MINE_DENSITY_value.
  unfold Double.of_bigint, Double.round_rat.
  rewrite ilog2_rat_int, Hk by assumption.
  destruct (Z.eqb_spec h 0); [lia |]. reflexivity.
Qed.

Lemma log2_bounds (h k : Z) : 0 < h -> Z.log2 h = k -> 2 ^ k <= h < 2 ^ (k + 1).
Proof.
  intros Hh Hk. pose proof (Z.log2_spec h Hh) as Hs. rewrite Hk in Hs.
  replace (Z.succ k) with (k + 1) in Hs by lia. exact Hs.
Qed.

Ltac has_var t := match t with context [?x] => is_var x end.

(** Evaluates the comparisons between constants. *)
Ltac eval_closed_tests :=
  repeat match goal with
         | |- context [?a <=? ?b] =>
             tryif has_var (a <=? b) then fail else
             let v := eval vm_compute in (a <=? b) in
             match v with
             | true => change (a <=? b) with true
             | false => change (a <=? b) with false
             end
         | |- context [?a <? ?b] =>
             tryif has_var (a <? b) then fail else
             let v := eval vm_compute in (a <? b) in
             match v with
             | true => change (a <? b) with true
             | false => change (a <? b) with false
             end
         end;
  cbv iota.

Ltac eval_powers :=
  repeat match goal with
         | |- context [2 ^ ?e] =>
             let v := eval vm_compute in (2 ^ e) in change (2 ^ e) with v
         end;
  repeat match goal with
         | H : context [2 ^ ?e] |- _ =>
             let v := eval vm_compute in (2 ^ e) in change (2 ^ e) with v in H
         end.

(** The quotient by [2^64], by whether the significand was rounded up to
    [2^53]. *)
Ltac divide_by_two64 :=
  match goal with
  | |- context [Double.div (Double.Mk ?M ?ea) ?b] =>
      let HM := fresh "HM" in
      destruct (Z.eq_dec M 9007199254740992) as [HM | HM];
      [ rewrite HM;
        let v := eval vm_compute in (Double.div (Double.Mk 9007199254740992 ea) b) in
        change (Double.div (Double.Mk 9007199254740992 ea) b) with v
      | rewrite (div_two64 M ea)
          by (change (2 ^ 52) with 4503599627370496;
              change (2 ^ 53) with 9007199254740992;
              first [ lia | split; Z.div_mod_to_equations; lia ]) ]
  end.

Ltac close_binade :=
  eval_closed_tests; eval_powers;
  rewrite ?Z.mul_1_l;
  repeat match goal with
         | |- context [if ?a <? ?b then _ else _] => destruct (Z.ltb_spec a b)
         end;
  try match goal with
      | |- context [Z.even ?q] =>
          let Ev := fresh "Ev" in
          destruct (Z.even q) eqn:Ev;
          [| assert (q <> 5404319552844594)
               by (let Hq := fresh in intros Hq; rewrite Hq in Ev; vm_compute in Ev; discriminate)]
      end;
  divide_by_two64;
  unfold Double.ltb; cbn [Double.mant Double.expo];
  eval_closed_tests; eval_powers;
  rewrite ?Z.ltb_lt;
  Z.div_mod_to_equations; first [ lia | split; intros; first [ discriminate | lia ] ].

(** The floating-point comparison of [isMine], as a cutoff on the hash
    value. *)
Lemma belowDensity_cutoff (h : Z) :
  0 <= h < 2 ^ 64 -> (GameUtils.belowDensity h = true <-> h <= DENSITY_CUTOFF).
Proof.
  intros Hh. destruct (Z.eq_dec h 0) as [-> | Hnz].
  { vm_compute. split; [discriminate | reflexivity]. }
  assert (Hpos : 0 < h) by lia.
  assert (Hk : 0 <= Z.log2 h < 64).
  { split; [apply Z.log2_nonneg | apply Z.log2_lt_pow2; lia]. }
  remember (Z.log2 h) as k eqn:Ek. symmetry in Ek.
  pose proof (log2_bounds h k Hpos Ek) as Hb.
  rewrite (belowDensity_binade h k Hpos Ek).
  unfold DENSITY_CUTOFF, Double.round_half_even.
  assert (Hc : In k (map Z.of_nat (seq 0 64))).
  { apply in_map_iff. exists (Z.to_nat k). split; [lia | apply in_seq; lia]. }
  clear Hk Ek Hh Hnz.
  cbv [map seq Z.of_nat Pos.of_succ_nat Pos.succ In] in Hc.
  repeat (destruct Hc as [Hc | Hc]; [subst k; close_binade |]).
  contradiction.
Qed.

Lemma be_bytes_range (n : nat) (z : Z) :
  Forall (fun b => 0 <= b < 256) (Sha256.be_bytes n z).
Proof.
  unfold Sha256.be_bytes. apply Forall_map, Forall_forall. intros i _.
  change 255 with (Z.ones 8). rewrite Z.land_ones by lia.
  apply Z.mod_pos_bound. lia.
Qed.

Lemma digest_range (msg : list Z) :
  Forall (fun b => 0 <= b < 256) (Sha256.digest msg).
Proof.
  unfold Sha256.digest. apply Forall_concat, Forall_map, Forall_forall.
  intros w _. apply be_bytes_range.
Qed.

Lemma be_word_acc_range (bs : list Z) :
  Forall (fun b => 0 <= b < 256) bs ->
  forall acc, 0 <= acc ->
    0 <= fold_left (fun acc b => acc * 256 + b) bs acc
      < (acc + 1) * 256 ^ Z.of_nat (length bs).
Proof.
  induction 1 as [| b bs Hb _ IH]; intros acc Hacc.
  - cbn. lia.
  - cbn [fold_left length]. specialize (IH (acc * 256 + b) ltac:(lia)).
    rewrite Nat2Z.inj_succ, Z.pow_succ_r by lia.
    assert (0 < 256 ^ Z.of_nat (length bs)) by (apply Z.pow_pos_nonneg; lia).
    nia.
Qed.

Lemma hashInt_range (MAP_SEED : string) (x y : Z) :
  0 <= GameUtils.hashInt MAP_SEED x y < 2 ^ 64.
Proof.
  unfold GameUtils.hashInt, GameUtils.readBigUInt64BE, Sha256.be_word.
  set (bs := firstn 8 _).
  assert (Hbs : Forall (fun b => 0 <= b < 256) bs) by apply Forall_take, digest_range.
  assert (Hlen : (length bs <= 8)%nat) by apply firstn_le_length.
  pose proof (be_word_acc_range bs Hbs 0 ltac:(lia)) as Hr.
  assert (256 ^ Z.of_nat (length bs) <= 256 ^ 8) by (apply Z.pow_le_mono_r; lia).
  change (2 ^ 64) with (256 ^ 8). lia.
Qed.

(** X24: for in-range [(x, y)], [isMine] holds
    exactly when the 64-bit hash value [h] is at most
    2767011611056432384, the integers whose nearest double, divided by
    [2^64], is below the double nearest to 0.15; every such [h] also
    satisfies the exact inequality [h / 2^64 < 15/100]. *)
Theorem isMine_cutoff (MAP_SEED : string) (x y : Z) :
  0 <= x < MAP_WIDTH -> 0 <= y < MAP_HEIGHT ->
  let h := GameUtils.hashInt MAP_SEED x y in
  0 <= h < 2 ^ 64
  /\ (GameUtils.isMine MAP_SEED x y = true <-> h <= DENSITY_CUTOFF)
  /\ (GameUtils.isMine MAP_SEED x y = true -> (h # 18446744073709551616 < 15 # 100)%Q).
Proof.
  intros Hx Hy h. pose proof (hashInt_range MAP_SEED x y) as Hr. fold h in Hr.
  assert (Hguard : (x <? 0) || (x >=? MAP_WIDTH) || (y <? 0) || (y >=? MAP_HEIGHT) = false).
  { repeat (apply orb_false_intro); lia. }
  assert (Hiff : GameUtils.isMine MAP_SEED x y = true <-> h <= DENSITY_CUTOFF).
  { unfold GameUtils.isMine. rewrite Hguard. apply belowDensity_cutoff, Hr. }
  split; [exact Hr | split; [exact Hiff |]].
  intros Hm. apply Hiff in Hm. unfold DENSITY_CUTOFF in Hm.
  unfold Qlt. cbn. lia.
Qed.

Lemma isMine_cutoff_witness :
  0 <= 100 < MAP_WIDTH /\ 0 <= 98 < MAP_HEIGHT /\
  let h := GameUtils.hashInt test_seed 100 98 in
  0 <= h < 2 ^ 64
  /\ (GameUtils.isMine test_seed 100 98 = true <-> h <= DENSITY_CUTOFF)
  /\ (GameUtils.isMine test_seed 100 98 = true -> (h # 18446744073709551616 < 15 # 100)%Q).
Proof.
  split; [cbv; split; congruence | split; [cbv; split; congruence |]].
  apply (isMine_cutoff test_seed 100 98); cbv; split; congruence.
Defined.

(** X26: for in-range [(x, y)], the answer of [isMine] and the exact
    comparison [h / 2^64 < 15/100] of rationals agree on the hash value
    [h] of the cell unless [h] is one of the 358 integers from
    2767011611056432385 to 2767011611056432742, and on each of those
    they differ: the exact comparison holds and [isMine] is [false]. *)
Theorem isMine_exact_gap (MAP_SEED : string) (x y : Z) :
  0 <= x < MAP_WIDTH -> 0 <= y < MAP_HEIGHT ->
  let h := GameUtils.hashInt MAP_SEED x y in
  ((GameUtils.isMine MAP_SEED x y = true
    <-> (h # 18446744073709551616 < 15 # 100)%Q)
   <-> ~ (DENSITY_CUTOFF < h <= EXACT_CUTOFF))
  /\ (DENSITY_CUTOFF < h <= EXACT_CUTOFF ->
      GameUtils.isMine MAP_SEED x y = false
      /\ (h # 18446744073709551616 < 15 # 100)%Q)
  /\ EXACT_CUTOFF - DENSITY_CUTOFF = 358.
Proof.
  intros Hx Hy h. pose proof (hashInt_range MAP_SEED x y) as Hr. fold h in Hr.
  assert (Hguard : (x <? 0) || (x >=? MAP_WIDTH) || (y <? 0) || (y >=? MAP_HEIGHT) = false).
  { repeat (apply orb_false_intro); lia. }
  assert (Hiff : GameUtils.isMine MAP_SEED x y = true <-> h <= DENSITY_CUTOFF).
  { unfold GameUtils.isMine. rewrite Hguard. apply belowDensity_cutoff, Hr. }
  assert (Hexact : (h # 18446744073709551616 < 15 # 100)%Q <-> h <= EXACT_CUTOFF).
  { unfold Qlt, EXACT_CUTOFF. cbn [Qnum Qden]. lia. }
  unfold DENSITY_CUTOFF, EXACT_CUTOFF in *.
  split; [| split; [| reflexivity]].
  - rewrite Hiff, Hexact. lia.
  - intros Hgap. split; [| apply Hexact; lia].
    destruct (GameUtils.isMine MAP_SEED x y); [| reflexivity].
    assert (h <= 2767011611056432384) by (by apply Hiff). lia.
Qed.

Lemma isMine_exact_gap_witness :
  0 <= 100 < MAP_WIDTH /\ 0 <= 98 < MAP_HEIGHT
  /\ ~ (DENSITY_CUTOFF < GameUtils.hashInt test_seed 100 98 <= EXACT_CUTOFF)
  /\ (GameUtils.isMine test_seed 100 98 = true
      <-> (GameUtils.hashInt test_seed 100 98 # 18446744073709551616 < 15 # 100)%Q).
Proof.
  assert (Hx : 0 <= 100 < MAP_WIDTH) by (cbv; split; congruence).
  assert (Hy : 0 <= 98 < MAP_HEIGHT) by (cbv; split; congruence).
  assert (Hout : ~ (DENSITY_CUTOFF < GameUtils.hashInt test_seed 100 98 <= EXACT_CUTOFF)).
  { intros [Hlo Hhi]. vm_compute in Hlo, Hhi. congruence. }
  destruct (isMine_exact_gap test_seed 100 98 Hx Hy) as [Hagree _].
  exact (conj Hx (conj Hy (conj Hout (proj2 Hagree Hout)))).
Defined.

(** ** The dispatcher *)

Import GameController.

Lemma num_lt_finite (q : Q) (k : Z) :
  num_lt (Finite q) k = true <-> (q < inject_Z k)%Q.
Proof.
  cbn. rewrite negb_true_iff, <- not_true_iff_false, Qle_bool_iff.
  split; [apply Qnot_le_lt | apply Qlt_not_le].
Qed.

Lemma num_ge_finite (q : Q) (k : Z) :
  num_ge (Finite q) k = true <-> (inject_Z k <= q)%Q.
Proof. cbn. apply Qle_bool_iff. Qed.

Lemma invalidCell_finite (a b : Q) :
  invalidCell (JsNum (Finite a)) (JsNum (Finite b)) = false
  <-> ((0 <= a)%Q /\ (a < inject_Z MAP_WIDTH)%Q)
      /\ ((0 <= b)%Q /\ (b < inject_Z MAP_HEIGHT)%Q).
Proof.
  unfold invalidCell. rewrite !orb_false_iff.
  rewrite <- !not_true_iff_false, !num_lt_finite, !num_ge_finite.
  change (inject_Z 0) with 0%Q.
  split.
  - intros [[[H1 H2] H3] H4]. repeat split;
      first [by apply Qnot_lt_le | by apply Qnot_le_lt].
  - intros [[H1 H2] [H3 H4]]. repeat split;
      first [by apply Qle_not_lt | by apply Qlt_not_le].
Qed.

Lemma refused_number (n : JsNumber) (bound : Z) :
  refusedValue bound (JsNum n) -> num_lt n 0 || num_ge n bound = true.
Proof.
  destruct n as [| | | q]; cbn [refusedValue]; try reflexivity; try contradiction.
  intros [Hq | Hq]; apply orb_true_iff; [left | right].
  - apply num_lt_finite. exact Hq.
  - apply num_ge_finite. exact Hq.
Qed.

Lemma invalidCell_refused (x y : JsValue) :
  refusedValue MAP_WIDTH x \/ refusedValue MAP_HEIGHT y -> invalidCell x y = true.
Proof.
  intros H. unfold invalidCell.
  destruct x as [| | | | nx |]; try reflexivity.
  destruct y as [| | | | ny |]; try reflexivity.
  destruct H as [H | H]; apply refused_number in H.
  - rewrite H. reflexivity.
  - rewrite <- !orb_assoc, H, !orb_true_r. reflexivity.
Qed.

Lemma passes_number (n : JsNumber) (bound : Z) :
  passesCheck bound (JsNum n) -> num_lt n 0 || num_ge n bound = false.
Proof.
  intros [Hnan | (q & Heq & Hq0 & Hq1)].
  - injection Hnan as ->. reflexivity.
  - injection Heq as ->. apply orb_false_intro.
    + apply not_true_iff_false. rewrite num_lt_finite.
      change (inject_Z 0) with 0%Q. by apply Qle_not_lt.
    + apply not_true_iff_false. rewrite num_ge_finite. by apply Qlt_not_le.
Qed.

Lemma passes_or_refused (bound : Z) (v : JsValue) :
  passesCheck bound v \/ refusedValue bound v.
Proof.
  destruct v as [| | | | [| | | q] |]; try (right; exact I).
  - left. by left.
  - destruct (Qlt_le_dec q 0) as [Hneg | Hpos]; [right; by left |].
    destruct (Qlt_le_dec q (inject_Z bound)) as [Hin | Hout]; [| right; by right].
    left. right. by exists q.
Qed.

(** X25: the coordinate check of the [clickCell] case tests the type
    and the range of [x] and [y] and nothing else.  A [clickCell] whose
    [x] and [y] are each a finite number inside [[0, W)], respectively
    [[0, H)], integer or not, or [NaN], reaches [revealCell]; one whose
    [x] or [y] is not a number, is infinite, or is a finite number
    outside that range is refused; every value is of one of the two
    kinds; and [revealCell] is reached from no other message. *)
Theorem clickCell_routing (p : string) (x y : JsValue) :
  (passesCheck MAP_WIDTH x -> passesCheck MAP_HEIGHT y ->
     handleMessage (Some p) (clickCell x y) = CallRevealCell p x y)
  /\ (refusedValue MAP_WIDTH x \/ refusedValue MAP_HEIGHT y ->
        handleMessage (Some p) (clickCell x y) = InvalidCoordinates)
  /\ (passesCheck MAP_WIDTH x \/ refusedValue MAP_WIDTH x)
  /\ (passesCheck MAP_HEIGHT y \/ refusedValue MAP_HEIGHT y)
  /\ (forall session message,
        handleMessage session message = CallRevealCell p x y ->
        session = Some p /\ message = clickCell x y
        /\ ~ refusedValue MAP_WIDTH x /\ ~ refusedValue MAP_HEIGHT y).
Proof.
  split; [| split; [| split; [| split]]].
  - intros Hx Hy.
    assert (Hv : invalidCell x y = false).
    { assert (Hnum : exists a b, x = JsNum a /\ y = JsNum b).
      { destruct Hx as [-> | (a & -> & _)], Hy as [-> | (b & -> & _)]; eauto. }
      destruct Hnum as (a & b & -> & ->).
      unfold invalidCell. rewrite <- orb_assoc.
      by rewrite (passes_number a MAP_WIDTH Hx), (passes_number b MAP_HEIGHT Hy). }
    unfold handleMessage, clickCell. cbn [msg_type msg_data String.eqb].
    change (String.eqb "clickCell" "clickCell") with true. cbv iota.
    rewrite Hv. reflexivity.
  - intros Href. unfold handleMessage, clickCell. cbn [msg_type msg_data].
    change (String.eqb "clickCell" "clickCell") with true. cbv iota.
    rewrite (invalidCell_refused x y Href). reflexivity.
  - apply passes_or_refused.
  - apply passes_or_refused.
  - intros session [ty data] Hcall. unfold handleMessage in Hcall.
    cbn [msg_type msg_data] in Hcall.
    destruct session as [p' |]; [| discriminate].
    destruct (String.eqb_spec ty "clickCell") as [-> | _].
    + destruct data as [[x' y'] |]; [| discriminate].
      destruct (invalidCell x' y') eqn:Hv; [discriminate |].
      injection Hcall as -> -> ->.
      repeat split; intros Href.
      * rewrite (invalidCell_refused x y (or_introl Href)) in Hv. discriminate.
      * rewrite (invalidCell_refused x y (or_intror Href)) in Hv. discriminate.
    + repeat match type of Hcall with
             | (if ?c then _ else _) = _ => destruct c
             | match ?d with _ => _ end = _ => destruct d as [[? ?] |]
             end; discriminate.
Qed.

Lemma clickCell_routing_witness :
  passesCheck MAP_WIDTH three_and_a_half /\ passesCheck MAP_HEIGHT js_zero
  /\ handleMessage (Some "p1"%string) (clickCell three_and_a_half js_zero)
     = CallRevealCell "p1" three_and_a_half js_zero
  /\ refusedValue MAP_WIDTH (JsNum (Finite (inject_Z 640)))
  /\ handleMessage (Some "p1"%string) (clickCell (JsNum (Finite (inject_Z 640))) js_zero)
     = InvalidCoordinates.
Proof.
  assert (H1 : passesCheck MAP_WIDTH three_and_a_half).
  { right. exists (7 # 2). split; [reflexivity | split; [discriminate | reflexivity]]. }
  assert (H2 : passesCheck MAP_HEIGHT js_zero).
  { right. exists 0%Q. split; [reflexivity | split; [discriminate | reflexivity]]. }
  assert (H3 : refusedValue MAP_WIDTH (JsNum (Finite (inject_Z 640)))).
  { right. discriminate. }
  destruct (clickCell_routing "p1" three_and_a_half js_zero) as [Hok _].
  destruct (clickCell_routing "p1" (JsNum (Finite (inject_Z 640))) js_zero)
    as (_ & Hno & _).
  exact (conj H1 (conj H2 (conj (Hok H1 H2) (conj H3 (Hno (or_introl H3)))))).
Defined.

(** C3, on the message [{type: 'clickCell', data: {x: 3.5, y: 0}}] of a
    connected player: 3.5 is not an integer, and the message is not
    refused as invalid coordinates but reaches [revealCell] with
    [x = 3.5]. *)
Lemma clickCell_non_integer_accepted :
  handleMessage (Some "p1"%string) (clickCell three_and_a_half js_zero)
  = CallRevealCell "p1" three_and_a_half js_zero
  /\ ~ isInteger three_and_a_half.
Proof.
  split; [reflexivity |].
  intros (z & q & Heq & Hq). injection Heq as <-.
  unfold Qeq in Hq. cbn in Hq. lia.
Qed.

(** ** The flood fill *)

Lemma hiddenUnflagged_negb (s : option CellRow) :
  hiddenUnflagged s = negb (revealedOrFlagged s).
Proof. destruct s as [r |]; cbn; [| reflexivity]. by rewrite negb_orb. Qed.

Lemma inGrid_gridCells (c : Z * Z) : inGrid c <-> In c gridCells.
Proof.
  destruct c as [x y]. unfold inGrid, gridCells. rewrite in_prod_iff.
  rewrite <- !list_elem_of_In, !elem_of_seqZ. cbn. lia.
Qed.

Lemma length_gridCells : length gridCells = Z.to_nat (MAP_WIDTH * MAP_HEIGHT).
Proof.
  unfold gridCells. rewrite length_prod, !length_seqZ.
  pose proof MAP_WIDTH_pos. pose proof MAP_HEIGHT_pos. lia.
Qed.

(** Distinct cells of the map are at most [W * H] many. *)
Lemma NoDup_inGrid_length (l : list (Z * Z)) :
  NoDup l -> Forall inGrid l -> (length l <= Z.to_nat (MAP_WIDTH * MAP_HEIGHT))%nat.
Proof.
  intros Hnd Hin. rewrite <- length_gridCells.
  apply NoDup_incl_length; [by apply NoDup_ListNoDup |].
  intros c Hc. apply inGrid_gridCells.
  rewrite Forall_forall in Hin. apply Hin. by apply list_elem_of_In.
Qed.

Lemma Forall_filter_keep {A} (P Q : A -> Prop) `{!forall x, Decision (Q x)} (l : list A) :
  Forall P l -> Forall P (filter Q l).
Proof.
  rewrite !Forall_forall. intros Hall x Hx.
  apply list_elem_of_filter in Hx as [_ Hx]. by apply Hall.
Qed.

Section Flood.
Variable MAP_SEED : string.
Variable db : Db.
Variable start : Z * Z.

Lemma floodInit_inv :
  FloodInv MAP_SEED db start [] (floodInit (fst start) (snd start)).
Proof.
  destruct start as [sx sy]. unfold floodInit. cbn [fst snd].
  split; cbn; try done.
  - apply NoDup_singleton.
  - by rewrite (right_id_L ∅ (∪)).
  - apply not_elem_of_nil.
Qed.

Lemma visitNeighbor_inv (popped : list (Z * Z)) (x y dx dy : Z) (fs : FloodState) :
  FloodInv MAP_SEED db start popped fs ->
  FloodInv MAP_SEED db start popped (visitNeighbor db x y fs dx dy).
Proof.
  intros [Hnd Hvis Hq Hcells Hpush Hpeek Hst Hcd Hsc]. unfold visitNeighbor.
  destruct ((dx =? 0) && (dy =? 0)); [by split |].
  set (ex := Z.rem (x + dx + MAP_WIDTH) MAP_WIDTH).
  set (ey := Z.rem (y + dy + MAP_HEIGHT) MAP_HEIGHT).
  destruct ((0 <=? ex) && (ex <? MAP_WIDTH) && (0 <=? ey) && (ey <? MAP_HEIGHT)
            && negb (bool_decide ((ex, ey) ∈ visited fs))) eqn:Hguard; [| by split].
  rewrite !andb_true_iff, negb_true_iff, bool_decide_eq_false in Hguard.
  destruct Hguard as [Hrange Hfresh].
  assert (Hgrid : inGrid (ex, ey)) by (unfold inGrid; cbn; lia).
  rewrite Hvis, elem_of_list_to_set in Hfresh.
  assert (Hst' : start ∉ peeked fs ++ [(ex, ey)]).
  { rewrite elem_of_app, list_elem_of_singleton. intros [Hin | ->]; [done |].
    apply Hfresh. rewrite Hpush. apply list_elem_of_here. }
  destruct (hiddenUnflagged (getCellState db ex ey)) eqn:Hhid; split; cbn; try done.
  - apply NoDup_app. split; [done |]. split; [| apply NoDup_singleton].
    intros c Hc Hc'. apply list_elem_of_singleton in Hc'. by subst c.
  - rewrite Hvis, list_to_set_app_L. cbn.
    rewrite (right_id_L ∅ (∪)). apply (comm_L (∪)).
  - rewrite Hq. by rewrite app_assoc.
  - rewrite filter_app, Hpush, filter_cons_True by exact Hhid. done.
  - apply Forall_app. split; [done |]. by apply Forall_singleton.
  - rewrite filter_app, filter_cons_False, filter_nil, app_nil_r; [done |].
    unfold hiddenAt. cbn. by rewrite Hhid.
  - apply Forall_app. split; [done |]. by apply Forall_singleton.
Qed.

Lemma visitNeighbors_inv (popped : list (Z * Z)) (x y : Z) (fs : FloodState) :
  FloodInv MAP_SEED db start popped fs ->
  FloodInv MAP_SEED db start popped (visitNeighbors db x y fs).
Proof.
  intros Hinv. unfold visitNeighbors. cbn [fold_left].
  repeat apply visitNeighbor_inv. exact Hinv.
Qed.

Lemma floodIter_inv (popped rest : list (Z * Z)) (x y : Z) (fs : FloodState) :
  queue fs = (x, y) :: rest ->
  FloodInv MAP_SEED db start popped fs ->
  FloodInv MAP_SEED db start (popped ++ [(x, y)])
    (floodIter MAP_SEED db x y
       (MkFlood rest (visited fs) (cellsToReveal fs) (scoreChange fs)
                (peeked fs) (pushed fs))).
Proof.
  intros Hqueue [Hnd Hvis Hq Hcells Hpush Hpeek Hst Hcd Hsc]. unfold floodIter.
  rewrite Hqueue in Hq.
  assert (Hq' : pushed fs = (popped ++ [(x, y)]) ++ rest)
    by (by rewrite <- app_assoc).
  destruct (revealedOrFlagged (getCellState db x y)) eqn:Hrf.
  - split; cbn; try done. by apply sublist_inserts_r.
  - cbn [cellsToReveal scoreChange queue visited peeked pushed].
    assert (Hmid : FloodInv MAP_SEED db start (popped ++ [(x, y)])
              (MkFlood rest (visited fs)
                 (cellsToReveal fs
                  ++ [MkCellData x y 0
                        (Some (GameUtils.calculateAdjacentMines MAP_SEED x y))])
                 (scoreChange fs + SCORE_REVEAL_SAFE) (peeked fs) (pushed fs))).
    { split; cbn; try done.
      - rewrite map_app. by apply sublist_app.
      - apply Forall_app. split; [done |]. apply Forall_singleton. by split.
      - rewrite length_app, Hsc. unfold SCORE_REVEAL_SAFE. cbn. lia. }
    destruct (GameUtils.calculateAdjacentMines MAP_SEED x y =? 0).
    + by apply visitNeighbors_inv.
    + exact Hmid.
Qed.

(** Every cell ever put on the queue is the start cell or a cell of the
    map, so the queue history is short. *)
Lemma FloodInv_pushed_length (popped : list (Z * Z)) (fs : FloodState) :
  FloodInv MAP_SEED db start popped fs ->
  (length (pushed fs) <= S (Z.to_nat (MAP_WIDTH * MAP_HEIGHT)))%nat.
Proof.
  intros [Hnd _ _ _ Hpush Hpeek _ _ _].
  rewrite Hpush in Hnd |- *. apply NoDup_cons in Hnd as [_ Hnd].
  cbn [length]. apply le_n_S, NoDup_inGrid_length; [done |].
  by apply Forall_filter_keep.
Qed.

Lemma FloodInv_pushed_length_inGrid (popped : list (Z * Z)) (fs : FloodState) :
  inGrid start ->
  FloodInv MAP_SEED db start popped fs ->
  (length (pushed fs) <= Z.to_nat (MAP_WIDTH * MAP_HEIGHT))%nat.
Proof.
  intros Hstart [Hnd _ _ _ Hpush Hpeek _ _ _].
  apply NoDup_inGrid_length; [done |].
  rewrite Hpush. apply Forall_cons. split; [done |]. by apply Forall_filter_keep.
Qed.

(** The loop empties its queue within the turns that are left while the
    queue history can still grow. *)
Lemma floodLoop_total (fuel : nat) :
  forall (popped : list (Z * Z)) (fs : FloodState),
    FloodInv MAP_SEED db start popped fs ->
    (S (Z.to_nat (MAP_WIDTH * MAP_HEIGHT)) <= fuel + length popped)%nat ->
    exists fs' popped',
      floodLoop MAP_SEED fuel db fs = Some fs'
      /\ FloodInv MAP_SEED db start popped' fs'
      /\ queue fs' = [].
Proof.
  induction fuel as [| fuel IH]; intros popped fs Hinv Hfuel.
  - destruct (queue fs) as [| [x y] rest] eqn:Hqueue.
    + exists fs, popped. cbn. by rewrite Hqueue.
    + exfalso. pose proof (FloodInv_pushed_length popped fs Hinv) as Hlen.
      rewrite (inv_queue _ _ _ _ _ Hinv), Hqueue, length_app in Hlen.
      cbn in Hlen, Hfuel. lia.
  - destruct (queue fs) as [| [x y] rest] eqn:Hqueue.
    + exists fs, popped. cbn. by rewrite Hqueue.
    + cbn [floodLoop]. rewrite Hqueue.
      apply (IH (popped ++ [(x, y)])).
      * by apply floodIter_inv.
      * rewrite length_app. cbn. lia.
Qed.

(** More turns than needed change nothing. *)
Lemma floodLoop_mono (fuel fuel' : nat) (fs fs' : FloodState) :
  floodLoop MAP_SEED fuel db fs = Some fs' -> (fuel <= fuel')%nat ->
  floodLoop MAP_SEED fuel' db fs = Some fs'.
Proof.
  revert fuel' fs. induction fuel as [| fuel IH]; intros fuel' fs Hrun Hle.
  - destruct fuel'; cbn in Hrun |- *; destruct (queue fs) as [| [x y] rest];
      done.
  - destruct fuel' as [| fuel']; [lia |].
    cbn [floodLoop] in Hrun |- *. destruct (queue fs) as [| [x y] rest]; [done |].
    apply IH; [done | lia].
Qed.

Lemma floodRun_unfold (x y : Z) :
  floodRun MAP_SEED db x y = floodLoop MAP_SEED flood_fuel db (floodInit x y).
Proof. reflexivity. Qed.

(** The loop of [performSafeReveal] always runs to an empty queue. *)
Lemma floodRun_total :
  exists fs popped,
    floodRun MAP_SEED db (fst start) (snd start) = Some fs
    /\ FloodInv MAP_SEED db start popped fs
    /\ queue fs = [].
Proof.
  rewrite floodRun_unfold.
  apply (floodLoop_total _ []); [apply floodInit_inv |].
  unfold flood_fuel. rewrite Nat.add_0_r. apply Nat.le_refl.
Qed.

End Flood.

(** ** The engine calls *)

Lemma upsertAll_players (cells : list CellData) (db : Db) :
  players (upsertAll db cells) = players db.
Proof.
  unfold upsertAll. revert db. induction cells as [| c cells IH]; intros db; [done |].
  cbn [fold_left]. by rewrite IH.
Qed.

Lemma upsertAll_other (cells : list CellData) (db : Db) (c : Z * Z) :
  c ∉ map cd_key cells ->
  map_state (upsertAll db cells) !! c = map_state db !! c.
Proof.
  unfold upsertAll. revert db. induction cells as [| cd cells IH]; intros db Hc; [done |].
  cbn [fold_left]. cbn [map] in Hc. apply not_elem_of_cons in Hc as [Hne Hc].
  rewrite IH by done. cbn. apply lookup_insert_ne. unfold cd_key in Hne. congruence.
Qed.

(** A cell that is revealed or flagged is not among the cells a flood
    will write. *)
Lemma fresh_cells_skip (MAP_SEED : string) (db : Db) (cells : list CellData) (c : Z * Z) :
  Forall (freshSafeCell MAP_SEED db) cells ->
  revealedOrFlagged (getCellState db (fst c) (snd c)) = true ->
  c ∉ map cd_key cells.
Proof.
  intros Hall Hrf Hin. apply list_elem_of_fmap in Hin as (cd & -> & Hcd).
  rewrite Forall_forall in Hall. destruct (Hall cd Hcd) as [Hfresh _].
  cbn in Hrf. congruence.
Qed.

Lemma revealCell_spec (MAP_SEED : string) (db : Db) (p : string) (x y : Z) :
  RevealSpec MAP_SEED db p x y
    (fst (revealCell MAP_SEED db p x y)) (snd (revealCell MAP_SEED db p x y)).
Proof.
  unfold revealCell.
  destruct (revealedOrFlagged (getCellState db x y)) eqn:Hrf; [by constructor |].
  destruct (GameUtils.isMine MAP_SEED x y) eqn:Hmine; [by constructor |].
  destruct (floodRun_total MAP_SEED db (x, y)) as (fs & popped & Hrun & Hinv & _).
  cbn [fst snd] in Hrun. unfold performSafeReveal. rewrite Hrun.
  destruct (cellsToReveal fs) as [| cd cells] eqn:Hcells.
  - cbn. by eapply RevealSpec_empty.
  - cbn [length]. rewrite <- Hcells.
    replace (0 <? Z.of_nat (S (length cells))) with true by (symmetry; apply Z.ltb_lt; lia).
    replace (Z.of_nat (S (length cells)) =? 0) with false by (symmetry; apply Z.eqb_neq; lia).
    cbn [fst snd]. eapply RevealSpec_safe; try done. by rewrite Hcells.
Qed.

Lemma clientCells_keys (cells : list CellData) :
  map cell_key (clientCells cells) = map cd_key cells.
Proof. unfold clientCells. rewrite map_map. reflexivity. Qed.

Lemma revealedOrFlagged_revealed (db : Db) (x y : Z) (row : CellRow) :
  getCellState db x y = Some row -> revealed row = 1 ->
  revealedOrFlagged (getCellState db x y) = true.
Proof. intros -> Hr. cbn. rewrite Hr. reflexivity. Qed.

Lemma revealedOrFlagged_flagged (db : Db) (x y : Z) (row : CellRow) :
  getCellState db x y = Some row -> flag_state row = 1 ->
  revealedOrFlagged (getCellState db x y) = true.
Proof. intros -> Hf. cbn. rewrite Hf. apply orb_true_r. Qed.

(** A reveal leaves every row of a revealed or flagged cell as it was. *)
Lemma revealCell_keeps_marked (MAP_SEED : string) (db : Db) (p : string)
    (x y cx cy : Z) :
  revealedOrFlagged (getCellState db cx cy) = true ->
  getCellState (fst (revealCell MAP_SEED db p x y)) cx cy = getCellState db cx cy.
Proof.
  intros Hmarked.
  destruct (revealCell_spec MAP_SEED db p x y)
    as [Hrf | Hrf Hmine | fs popped Hrf Hmine Hrun Hinv Hcells
        | fs popped Hrf Hmine Hrun Hinv Hcells]; try reflexivity.
  - unfold getCellState. cbn. apply lookup_insert_ne. congruence.
  - unfold getCellState. cbn. apply upsertAll_other.
    apply (fresh_cells_skip MAP_SEED db _ (cx, cy)); [apply Hinv | exact Hmarked].
Qed.

(** ** Revealed cells are final *)

Lemma toggleFlag_keeps_revealed (db : Db) (p : string) (x y cx cy : Z) (row : CellRow) :
  getCellState db cx cy = Some row -> revealed row = 1 ->
  getCellState (fst (toggleFlag db p x y)) cx cy = Some row.
Proof.
  intros Hrow Hrev. unfold toggleFlag.
  destruct (isRevealed (getCellState db x y)) eqn:Hir; [exact Hrow |].
  assert (Hne : (x, y) <> (cx, cy)).
  { intros [= -> ->]. rewrite Hrow in Hir. cbn in Hir. lia. }
  unfold getCellState in *.
  destruct (isFlagged (map_state db !! (x, y))); unfold setFlagState; cbn [Z.eqb fst].
  - destruct (map_state db !! (x, y)) as [r |]; [| exact Hrow].
    destruct (revealed r =? 0); [| exact Hrow].
    cbn. by rewrite lookup_delete_ne.
  - destruct (map_state db !! (x, y)) as [r |]; [exact Hrow |].
    cbn. by rewrite lookup_insert_ne.
Qed.

Lemma runOp_keeps_revealed (MAP_SEED : string) (db : Db) (op : Op) (cx cy : Z)
    (row : CellRow) :
  getCellState db cx cy = Some row -> revealed row = 1 ->
  getCellState (runOp MAP_SEED db op) cx cy = Some row.
Proof.
  intros Hrow Hrev. destruct op as [p x y | p x y]; cbn [runOp].
  - rewrite revealCell_keeps_marked; [exact Hrow |].
    by eapply revealedOrFlagged_revealed.
  - by apply toggleFlag_keeps_revealed.
Qed.

(** C6: once the stored row of a cell has [revealed = 1], every finite
    run of [revealCell] and [toggleFlag] calls leaves that row in place
    and unchanged, and both calls on that cell return their ignored
    result without changing the database. *)
Theorem revealed_is_final (MAP_SEED : string) (ops : list Op) (db : Db)
    (x y : Z) (row : CellRow) :
  getCellState db x y = Some row -> revealed row = 1 ->
  getCellState (runOps MAP_SEED db ops) x y = Some row
  /\ (forall p, revealCell MAP_SEED db p x y = (db, Ignored))
  /\ (forall p, toggleFlag db p x y = (db, FlagIgnored)).
Proof.
  intros Hrow Hrev. split; [| split].
  - unfold runOps. revert db Hrow. induction ops as [| op ops IH]; intros db Hrow.
    + exact Hrow.
    + cbn [fold_left]. apply IH. by apply runOp_keeps_revealed.
  - intros p. unfold revealCell.
    by rewrite (revealedOrFlagged_revealed db x y row).
  - intros p. unfold toggleFlag. rewrite Hrow. cbn. rewrite Hrev. reflexivity.
Qed.

Lemma revealed_is_final_witness :
  getCellState test_db_mine 0 7 = Some (MkCellRow 1 (Some 1) None 0)
  /\ revealed (MkCellRow 1 (Some 1) None 0) = 1
  /\ getCellState (runOps test_seed test_db_mine test_ops) 0 7
     = Some (MkCellRow 1 (Some 1) None 0)
  /\ (forall p, revealCell test_seed test_db_mine p 0 7 = (test_db_mine, Ignored))
  /\ (forall p, toggleFlag test_db_mine p 0 7 = (test_db_mine, FlagIgnored)).
Proof.
  assert (H1 : getCellState test_db_mine 0 7 = Some (MkCellRow 1 (Some 1) None 0))
    by (vm_compute; reflexivity).
  split; [exact H1 | split; [reflexivity |]].
  exact (revealed_is_final test_seed test_ops test_db_mine 0 7
           (MkCellRow 1 (Some 1) None 0) H1 eq_refl).
Defined.

(** ** Flags stop the flood *)

(** C7: a cell whose stored row has [flag_state = 1] keeps that row
    through any [revealCell] call and is not among the cells the call
    returns; when the call starts on a cell that is neither revealed nor
    flagged, its flood neither enqueues the flagged cell nor lists it for
    writing. *)
Theorem flagged_cell_untouched (MAP_SEED : string) (db : Db) (p : string)
    (x y cx cy : Z) (row : CellRow) :
  getCellState db cx cy = Some row -> flag_state row = 1 ->
  rowKept (cx, cy) row (revealCell MAP_SEED db p x y)
  /\ (revealedOrFlagged (getCellState db x y) = false ->
      floodAvoids (cx, cy) (floodRun MAP_SEED db x y)).
Proof.
  intros Hrow Hflag.
  pose proof (revealedOrFlagged_flagged db cx cy row Hrow Hflag) as Hmarked.
  unfold rowKept, floodAvoids. cbn [fst snd].
  split; [split |].
  - rewrite revealCell_keeps_marked by exact Hmarked. exact Hrow.
  - destruct (revealCell_spec MAP_SEED db p x y)
      as [Hrf | Hrf Hmine | fs popped Hrf Hmine Hrun Hinv Hcells
          | fs popped Hrf Hmine Hrun Hinv Hcells]; cbn [resultCells map];
      try apply not_elem_of_nil.
    + rewrite list_elem_of_singleton. intros [= -> ->]. congruence.
    + rewrite clientCells_keys.
      apply (fresh_cells_skip MAP_SEED db _ (cx, cy)); [apply Hinv | exact Hmarked].
  - intros Hstart.
    destruct (floodRun_total MAP_SEED db (x, y)) as (fs & popped & Hrun & Hinv & _).
    cbn [fst snd] in Hrun. rewrite Hrun. split.
    + rewrite (inv_pushed _ _ _ _ _ Hinv), not_elem_of_cons. split.
      * intros [= -> ->]. congruence.
      * rewrite list_elem_of_filter. intros [Hhid _]. unfold hiddenAt in Hhid.
        cbn [fst snd] in Hhid. rewrite hiddenUnflagged_negb, Hmarked in Hhid.
        discriminate.
    + apply (fresh_cells_skip MAP_SEED db _ (cx, cy)); [apply Hinv | exact Hmarked].
Qed.

Lemma flagged_cell_untouched_witness :
  getCellState test_db_flag 12 21 = Some (MkCellRow 0 None None 1)
  /\ flag_state (MkCellRow 0 None None 1) = 1
  /\ revealedOrFlagged (getCellState test_db_flag 11 20) = false
  /\ rowKept (12, 21) (MkCellRow 0 None None 1)
       (revealCell test_seed test_db_flag "p1" 11 20)
  /\ floodAvoids (12, 21) (floodRun test_seed test_db_flag 11 20).
Proof.
  assert (H1 : getCellState test_db_flag 12 21 = Some (MkCellRow 0 None None 1))
    by reflexivity.
  assert (H2 : revealedOrFlagged (getCellState test_db_flag 11 20) = false)
    by reflexivity.
  destruct (flagged_cell_untouched test_seed test_db_flag "p1" 11 20 12 21
              (MkCellRow 0 None None 1) H1 eq_refl) as [Hkept Hflood].
  exact (conj H1 (conj eq_refl (conj H2 (conj Hkept (Hflood H2))))).
Defined.

(** ** Termination and size of the flood *)

(** C8: for every start cell of the map and every database, the loop of
    [performSafeReveal] reaches an empty queue (within [flood_fuel]
    turns, and with the same outcome for any larger number of turns);
    the cells it then writes, one upsert each, are at most [W * H]. *)
Theorem flood_terminates (MAP_SEED : string) (db : Db) (x y : Z) :
  0 <= x < MAP_WIDTH -> 0 <= y < MAP_HEIGHT ->
  exists fs,
    floodRun MAP_SEED db x y = Some fs
    /\ queue fs = []
    /\ (forall fuel, (flood_fuel <= fuel)%nat ->
          floodLoop MAP_SEED fuel db (floodInit x y) = Some fs)
    /\ Z.of_nat (length (cellsToReveal fs)) <= MAP_WIDTH * MAP_HEIGHT
    /\ NoDup (map cd_key (cellsToReveal fs))
    /\ (forall p,
          fst (performSafeReveal MAP_SEED db x y p)
          = if 0 <? Z.of_nat (length (cellsToReveal fs))
            then updatePlayerScore (upsertAll db (cellsToReveal fs)) p (scoreChange fs)
            else db).
Proof.
  intros Hx Hy.
  destruct (floodRun_total MAP_SEED db (x, y)) as (fs & popped & Hrun & Hinv & Hq).
  cbn [fst snd] in Hrun. exists fs.
  assert (Hgrid : inGrid (x, y)) by (split; assumption).
  pose proof (FloodInv_pushed_length_inGrid MAP_SEED db (x, y) popped fs Hgrid Hinv) as Hlen.
  pose proof (inv_queue _ _ _ _ _ Hinv) as Hpq. rewrite Hq, app_nil_r in Hpq.
  pose proof (inv_cells _ _ _ _ _ Hinv) as Hsub.
  repeat split.
  - exact Hrun.
  - exact Hq.
  - intros fuel Hfuel. rewrite floodRun_unfold in Hrun.
    exact (floodLoop_mono MAP_SEED db flood_fuel fuel _ fs Hrun Hfuel).
  - apply sublist_length in Hsub. rewrite length_map in Hsub.
    rewrite Hpq in Hlen. pose proof MAP_WIDTH_pos. pose proof MAP_HEIGHT_pos. lia.
  - eapply sublist_NoDup; [| exact Hsub]. rewrite <- Hpq. apply Hinv.
  - intros p. unfold performSafeReveal. rewrite Hrun. reflexivity.
Qed.

Lemma flood_terminates_witness :
  0 <= 11 < MAP_WIDTH /\ 0 <= 20 < MAP_HEIGHT
  /\ exists fs,
       floodRun test_seed test_db 11 20 = Some fs
       /\ queue fs = []
       /\ (forall fuel, (flood_fuel <= fuel)%nat ->
             floodLoop test_seed fuel test_db (floodInit 11 20) = Some fs)
       /\ Z.of_nat (length (cellsToReveal fs)) <= MAP_WIDTH * MAP_HEIGHT
       /\ NoDup (map cd_key (cellsToReveal fs))
       /\ (forall p,
             fst (performSafeReveal test_seed test_db 11 20 p)
             = if 0 <? Z.of_nat (length (cellsToReveal fs))
               then updatePlayerScore (upsertAll test_db (cellsToReveal fs)) p
                                      (scoreChange fs)
               else test_db).
Proof.
  assert (H1 : 0 <= 11 < MAP_WIDTH) by (split; [discriminate | reflexivity]).
  assert (H2 : 0 <= 20 < MAP_HEIGHT) by (split; [discriminate | reflexivity]).
  split; [exact H1 | split; [exact H2 |]].
  exact (flood_terminates test_seed test_db 11 20 H1 H2).
Defined.

(** ** What the flood marks as visited *)

Lemma offsets8_bounds (dx dy : Z) :
  (dx, dy) ∈ offsets8 ->
  -1 <= dx <= 1 /\ -1 <= dy <= 1 /\ (dx =? 0) && (dy =? 0) = false.
Proof.
  intros Hin. apply list_elem_of_In in Hin. cbn in Hin.
  repeat (destruct Hin as [[= <- <-] | Hin]; [repeat split; (lia || reflexivity) |]).
  contradiction.
Qed.

(** One neighbour of a cell of the map: an unvisited neighbour is read;
    it is put on the queue and into [visited] exactly when the read shows
    it neither revealed nor flagged. *)
Lemma visitNeighbor_step (db : Db) (fs : FloodState) (u v dx dy : Z) :
  inGrid (u, v) -> (dx, dy) ∈ offsets8 -> neighbourStep db fs u v dx dy.
Proof.
  intros [Hu Hv] Hoff. cbn [fst snd] in Hu, Hv.
  destruct (offsets8_bounds dx dy Hoff) as (Hdx & Hdy & Hself).
  unfold neighbourStep, visitNeighbor. cbv zeta. rewrite Hself.
  rewrite (wrap_rem_mod MAP_WIDTH u dx MAP_WIDTH_pos Hu Hdx).
  rewrite (wrap_rem_mod MAP_HEIGHT v dy MAP_HEIGHT_pos Hv Hdy).
  pose proof (Z.mod_pos_bound (u + dx) MAP_WIDTH MAP_WIDTH_pos) as Hbx.
  pose proof (Z.mod_pos_bound (v + dy) MAP_HEIGHT MAP_HEIGHT_pos) as Hby.
  set (ex := (u + dx) mod MAP_WIDTH) in *.
  set (ey := (v + dy) mod MAP_HEIGHT) in *.
  replace ((0 <=? ex) && (ex <? MAP_WIDTH) && (0 <=? ey) && (ey <? MAP_HEIGHT))
    with true
    by (symmetry; rewrite !andb_true_iff; repeat split; lia).
  cbn [andb].
  destruct (decide ((ex, ey) ∈ visited fs)) as [Hin | Hout].
  - by rewrite bool_decide_eq_true_2.
  - rewrite bool_decide_eq_false_2 by done. cbn [negb].
    destruct (decide (hiddenAt db (ex, ey))) as [Hhid | Hhid];
      unfold hiddenAt in Hhid; cbn [fst snd] in Hhid.
    + rewrite Hhid. done.
    + apply not_true_is_false in Hhid. rewrite Hhid. done.
Qed.

(** C2 (as the code has it): an unvisited neighbour of a zero-adjacency
    cell is read, and it is marked visited exactly when it is put on the
    queue, which is when the read shows it neither revealed nor flagged.
    Over a whole flood, [visited] is the set of cells ever enqueued, no
    cell is enqueued twice, the cells read and found hidden are pairwise
    distinct, and a cell read and found revealed or flagged never enters
    [visited]. *)
Theorem flood_visited_iff_enqueued (MAP_SEED : string) (db : Db) (x y : Z) :
  (forall fs u v dx dy,
     inGrid (u, v) -> (dx, dy) ∈ offsets8 -> neighbourStep db fs u v dx dy)
  /\ visitedIffEnqueued db (x, y) (floodRun MAP_SEED db x y).
Proof.
  split; [intros fs u v dx dy; apply visitNeighbor_step |].
  destruct (floodRun_total MAP_SEED db (x, y)) as (fs & popped & Hrun & Hinv & _).
  cbn [fst snd] in Hrun. rewrite Hrun. unfold visitedIffEnqueued.
  destruct Hinv as [Hnd Hvis _ _ Hpush _ Hst _ _].
  repeat split; try done.
  - rewrite Hpush in Hnd. by apply NoDup_cons in Hnd as [_ Hnd].
  - intros c Hc Hhid. rewrite Hvis, elem_of_list_to_set, Hpush, not_elem_of_cons.
    split; [by intros -> |].
    rewrite list_elem_of_filter. tauto.
Qed.

Lemma flood_visited_iff_enqueued_witness :
  inGrid (11, 20) /\ (1, 1) ∈ offsets8
  /\ neighbourStep test_db_flag (floodInit 11 20) 11 20 1 1
  /\ visitedIffEnqueued test_db_flag (11, 20)
       (floodRun test_seed test_db_flag 11 20).
Proof.
  assert (H1 : inGrid (11, 20)) by (repeat split; (discriminate || reflexivity)).
  assert (H2 : (1, 1) ∈ offsets8) by (apply list_elem_of_In; cbn; tauto).
  destruct (flood_visited_iff_enqueued test_seed test_db_flag 11 20)
    as [Hstep Hrun].
  exact (conj H1 (conj H2 (conj (Hstep (floodInit 11 20) 11 20 1 1 H1 H2) Hrun))).
Defined.

(** A flood in which a neighbour is read, is not marked visited, and is
    read again: with [(12, 21)] flagged, the flood from [(11, 20)] reads
    [(12, 21)] as a neighbour of [(11, 20)] and again as a neighbour of
    [(12, 20)]. *)
Lemma flagged_neighbour_read_twice :
  isFlagged (getCellState test_db_flag 12 21) = true
  /\ GameUtils.calculateAdjacentMines test_seed 11 20 = 0
  /\ GameUtils.calculateAdjacentMines test_seed 12 20 = 0
  /\ option_map peeked (floodRun test_seed test_db_flag 11 20)
     = Some [(10, 19); (10, 20); (10, 21); (11, 19); (11, 21); (12, 19);
             (12, 20); (12, 21); (12, 21); (13, 19); (13, 20); (13, 21)]
  /\ option_map (fun fs => bool_decide ((12, 21) ∈ visited fs))
                (floodRun test_seed test_db_flag 11 20)
     = Some false
  /\ ~ (forall fs, floodRun test_seed test_db_flag 11 20 = Some fs ->
                   NoDup (peeked fs)).
Proof.
  assert (Hpeek : option_map peeked (floodRun test_seed test_db_flag 11 20)
     = Some [(10, 19); (10, 20); (10, 21); (11, 19); (11, 21); (12, 19);
             (12, 20); (12, 21); (12, 21); (13, 19); (13, 20); (13, 21)])
    by (vm_compute; reflexivity).
  split; [vm_compute; reflexivity |].
  split; [vm_compute; reflexivity |].
  split; [vm_compute; reflexivity |].
  split; [exact Hpeek |].
  split; [vm_compute; reflexivity |].
  intros Hall.
  destruct (floodRun test_seed test_db_flag 11 20) as [fs |]; [| discriminate Hpeek].
  specialize (Hall fs eq_refl). injection Hpeek as Hpeek.
  rewrite Hpeek in Hall. clear Hpeek.
  apply NoDup_ListNoDup in Hall.
  repeat match goal with
         | H : List.NoDup (_ :: _) |- _ => inversion_clear H
         end.
  match goal with
  | H : ~ In (12, 21) _ |- _ => apply H; left; reflexivity
  end.
Qed.

(** ** The engine on concrete inputs *)

Example reveal_safe_11_20 :
  snd (revealCell test_seed test_db "p1" 11 20)
  = Revealed 12
      (clientCells
         [MkCellData 11 20 0 (Some 0); MkCellData 10 19 0 (Some 2);
          MkCellData 10 20 0 (Some 1); MkCellData 10 21 0 (Some 1);
          MkCellData 11 19 0 (Some 1); MkCellData 11 21 0 (Some 1);
          MkCellData 12 19 0 (Some 1); MkCellData 12 20 0 (Some 0);
          MkCellData 12 21 0 (Some 1); MkCellData 13 19 0 (Some 1);
          MkCellData 13 20 0 (Some 1); MkCellData 13 21 0 (Some 1)])
  /\ getPlayerScore (fst (revealCell test_seed test_db "p1" 11 20)) "p1" = 12.
Proof. split; vm_compute; reflexivity. Qed.

Example reveal_mine_0_7 :
  snd (revealCell test_seed test_db "p1" 0 7)
  = MineHit (-50) 3000 [MkClientCell 0 7 StMine (Some (-1))]
  /\ getPlayerScore test_db_mine "p1" = -50
  /\ getCellState test_db_mine 0 7 = Some (MkCellRow 1 (Some 1) None 0).
Proof. split; [| split]; vm_compute; reflexivity. Qed.

Example reveal_stops_at_flag :
  map cell_key (resultCells (snd (revealCell test_seed test_db_flag "p1" 11 20)))
  = [(11, 20); (10, 19); (10, 20); (10, 21); (11, 19); (11, 21); (12, 19);
     (12, 20); (13, 19); (13, 20); (13, 21)]
  /\ getCellState (fst (revealCell test_seed test_db_flag "p1" 11 20)) 12 21
     = Some (MkCellRow 0 None None 1).
Proof. split; vm_compute; reflexivity. Qed.

(** * Further properties *)

Import JsMap PlayerRepository GameControllerFlow Client.

(** ** The cells a flood reaches *)

Lemma visitNeighbor_centre (db : Db) (u v : Z) (fs : FloodState) :
  visitNeighbor db u v fs 0 0 = fs.
Proof. reflexivity. Qed.

Lemma visitNeighbor_cells (db : Db) (u v dx dy : Z) (fs : FloodState) :
  cellsToReveal (visitNeighbor db u v fs dx dy) = cellsToReveal fs.
Proof. unfold visitNeighbor. repeat case_match; reflexivity. Qed.

Lemma visitNeighbors_cells (db : Db) (u v : Z) (fs : FloodState) :
  cellsToReveal (visitNeighbors db u v fs) = cellsToReveal fs.
Proof.
  unfold visitNeighbors. cbn [fold_left]. by rewrite !visitNeighbor_cells.
Qed.

Lemma elem_of_offsets8 (d : Z * Z) :
  d ∈ offsets8 <->
  d = (-1, -1) \/ d = (-1, 0) \/ d = (-1, 1) \/ d = (0, -1) \/ d = (0, 1)
  \/ d = (1, -1) \/ d = (1, 0) \/ d = (1, 1).
Proof.
  unfold offsets8. rewrite !elem_of_cons, elem_of_nil. tauto.
Qed.

(** One neighbour: the visited set gains it exactly when it is neither
    revealed nor flagged. *)
Lemma visitNeighbor_visited (db : Db) (fs : FloodState) (u v dx dy : Z) (k : Z * Z) :
  inGrid (u, v) -> (dx, dy) ∈ offsets8 ->
  k ∈ visited (visitNeighbor db u v fs dx dy)
  <-> k ∈ visited fs \/ (k = neighbour (u, v) (dx, dy) /\ hiddenAt db k).
Proof.
  intros Hg Hoff. pose proof (visitNeighbor_step db fs u v dx dy Hg Hoff) as Hstep.
  unfold neighbourStep in Hstep. cbv zeta in Hstep.
  unfold neighbour. cbn [fst snd].
  set (key := ((u + dx) mod MAP_WIDTH, (v + dy) mod MAP_HEIGHT)) in *.
  destruct (decide (key ∈ visited fs)) as [Hin | Hout].
  - rewrite Hstep. split; [tauto |]. by intros [? | [-> _]].
  - destruct Hstep as [_ Hstep].
    destruct (decide (hiddenAt db key)) as [Hhid | Hhid]; destruct Hstep as [_ ->].
    + rewrite elem_of_union, elem_of_singleton. split; [| intros [? | [-> _]]; tauto].
      intros [-> | ?]; tauto.
    + split; [tauto |]. by intros [? | [-> ?]].
Qed.

(** All eight neighbours of a cell of the map. *)
Lemma visitNeighbors_visited (db : Db) (fs : FloodState) (u v : Z) (k : Z * Z) :
  inGrid (u, v) ->
  k ∈ visited (visitNeighbors db u v fs)
  <-> k ∈ visited fs
      \/ exists d, d ∈ offsets8 /\ k = neighbour (u, v) d /\ hiddenAt db k.
Proof.
  intros Hg. unfold visitNeighbors. cbn [fold_left].
  rewrite visitNeighbor_centre.
  rewrite !visitNeighbor_visited
    by (try exact Hg; apply elem_of_offsets8; tauto).
  split.
  - intros H.
    repeat match type of H with
           | _ \/ _ => destruct H as [H | H]
           end;
      [by left | ..];
      (right; refine (ex_intro _ _ (conj _ H)); apply elem_of_offsets8; tauto).
  - intros [H | (d & Hd & Hk)]; [tauto |].
    apply elem_of_offsets8 in Hd.
    repeat destruct Hd as [-> | Hd]; try subst d; tauto.
Qed.

(** An invariant of the loop body that holds at the start holds when the
    loop ends, together with [FloodInv] and the empty queue. *)
Lemma floodLoop_invariant (MAP_SEED : string) (db : Db) (start : Z * Z)
    (P : list (Z * Z) -> FloodState -> Prop) :
  (forall popped rest x y fs,
     queue fs = (x, y) :: rest ->
     FloodInv MAP_SEED db start popped fs -> P popped fs ->
     P (popped ++ [(x, y)])
       (floodIter MAP_SEED db x y
          (MkFlood rest (visited fs) (cellsToReveal fs) (scoreChange fs)
                   (peeked fs) (pushed fs)))) ->
  forall (fuel : nat) (popped : list (Z * Z)) (fs fs' : FloodState),
    FloodInv MAP_SEED db start popped fs -> P popped fs ->
    floodLoop MAP_SEED fuel db fs = Some fs' ->
    exists popped',
      FloodInv MAP_SEED db start popped' fs' /\ P popped' fs' /\ queue fs' = [].
Proof.
  intros Hstep. induction fuel as [| fuel IH]; intros popped fs fs' Hinv HP Hrun.
  - cbn in Hrun. destruct (queue fs) as [| [x y] rest] eqn:Hqueue; [| done].
    injection Hrun as <-. by exists popped.
  - cbn [floodLoop] in Hrun. destruct (queue fs) as [| [x y] rest] eqn:Hqueue.
    + injection Hrun as <-. by exists popped.
    + apply (IH (popped ++ [(x, y)])) in Hrun; [done | |].
      * by apply floodIter_inv.
      * by apply Hstep.
Qed.

Section FloodFromHidden.
Variable MAP_SEED : string.
Variable db : Db.
Variable start : Z * Z.
Hypothesis start_hidden : hiddenAt db start.

Lemma FloodInv_pushed_hidden (popped : list (Z * Z)) (fs : FloodState) (c : Z * Z) :
  FloodInv MAP_SEED db start popped fs -> c ∈ pushed fs -> hiddenAt db c.
Proof.
  intros Hinv Hc. rewrite (inv_pushed _ _ _ _ _ Hinv) in Hc.
  apply elem_of_cons in Hc as [-> | Hc]; [done |].
  by apply list_elem_of_filter in Hc as [Hc _].
Qed.

Lemma hiddenAt_not_marked (c : Z * Z) :
  hiddenAt db c -> revealedOrFlagged (getCellState db (fst c) (snd c)) = false.
Proof.
  unfold hiddenAt. rewrite hiddenUnflagged_negb. by intros ->%negb_true_iff.
Qed.

(** Every cell taken off the queue is listed for writing. *)
Lemma floodIter_cells (popped rest : list (Z * Z)) (x y : Z) (fs : FloodState) :
  queue fs = (x, y) :: rest ->
  FloodInv MAP_SEED db start popped fs ->
  map cd_key (cellsToReveal fs) = popped ->
  map cd_key
    (cellsToReveal
       (floodIter MAP_SEED db x y
          (MkFlood rest (visited fs) (cellsToReveal fs) (scoreChange fs)
                   (peeked fs) (pushed fs))))
  = popped ++ [(x, y)].
Proof.
  intros Hqueue Hinv Hcells.
  assert (Hxy : hiddenAt db (x, y)).
  { apply (FloodInv_pushed_hidden popped fs); [done |].
    rewrite (inv_queue _ _ _ _ _ Hinv), Hqueue, elem_of_app, elem_of_cons. tauto. }
  apply hiddenAt_not_marked in Hxy. cbn [fst snd] in Hxy.
  unfold floodIter. rewrite Hxy.
  destruct (GameUtils.calculateAdjacentMines MAP_SEED x y =? 0);
    rewrite ?visitNeighbors_cells; cbn [cellsToReveal];
    by rewrite map_app, Hcells.
Qed.

Lemma floodRun_cells (fs : FloodState) :
  floodRun MAP_SEED db (fst start) (snd start) = Some fs ->
  FloodInv MAP_SEED db start (pushed fs) fs
  /\ queue fs = []
  /\ map cd_key (cellsToReveal fs) = pushed fs.
Proof.
  rewrite floodRun_unfold. intros Hrun.
  apply (floodLoop_invariant MAP_SEED db start
           (fun popped fs => map cd_key (cellsToReveal fs) = popped)
           floodIter_cells _ []) in Hrun as (popped & Hinv & Hcells & Hq);
    [| apply floodInit_inv | done].
  assert (Hp : pushed fs = popped).
  { by rewrite (inv_queue _ _ _ _ _ Hinv), Hq, app_nil_r. }
  rewrite Hp. done.
Qed.

Hypothesis start_inGrid : inGrid start.

Lemma neighbour_inGrid (c d : Z * Z) : inGrid (neighbour c d).
Proof.
  unfold inGrid, neighbour. cbn [fst snd].
  pose proof (Z.mod_pos_bound (fst c + fst d) MAP_WIDTH MAP_WIDTH_pos).
  pose proof (Z.mod_pos_bound (snd c + snd d) MAP_HEIGHT MAP_HEIGHT_pos).
  lia.
Qed.

Lemma Reach_inGrid (c : Z * Z) : Reach MAP_SEED db start c -> inGrid c.
Proof. destruct 1; [done | apply neighbour_inGrid]. Qed.

Lemma Reach_hidden (c : Z * Z) : Reach MAP_SEED db start c -> hiddenAt db c.
Proof. by destruct 1. Qed.

Lemma floodInit_reach :
  FloodReach MAP_SEED db start [] (floodInit (fst start) (snd start)).
Proof.
  destruct start as [sx sy]. split.
  - intros c Hc. cbn in Hc. apply elem_of_singleton in Hc as ->. constructor.
  - intros c d Hc. by apply elem_of_nil in Hc.
Qed.

Lemma floodIter_reach (popped rest : list (Z * Z)) (x y : Z) (fs : FloodState) :
  queue fs = (x, y) :: rest ->
  FloodInv MAP_SEED db start popped fs ->
  FloodReach MAP_SEED db start popped fs ->
  FloodReach MAP_SEED db start (popped ++ [(x, y)])
    (floodIter MAP_SEED db x y
       (MkFlood rest (visited fs) (cellsToReveal fs) (scoreChange fs)
                (peeked fs) (pushed fs))).
Proof.
  intros Hqueue Hinv [Hreach Hclosed].
  assert (Hxy : Reach MAP_SEED db start (x, y)).
  { apply Hreach. rewrite (inv_visited _ _ _ _ _ Hinv), elem_of_list_to_set.
    rewrite (inv_queue _ _ _ _ _ Hinv), Hqueue, elem_of_app, elem_of_cons. tauto. }
  pose proof (Reach_inGrid _ Hxy) as Hg.
  pose proof (hiddenAt_not_marked _ (Reach_hidden _ Hxy)) as Hrf.
  cbn [fst snd] in Hrf. unfold floodIter. rewrite Hrf.
  destruct (GameUtils.calculateAdjacentMines MAP_SEED x y =? 0) eqn:Hzero.
  - apply Z.eqb_eq in Hzero. split.
    + intros c Hc. apply (visitNeighbors_visited db _ x y c Hg) in Hc.
      cbn [visited] in Hc. destruct Hc as [Hc | (d & Hd & -> & Hh)]; [by apply Hreach |].
      by apply Reach_step.
    + intros c d Hc Hadj Hd Hh. apply (visitNeighbors_visited db _ x y _ Hg).
      cbn [visited]. apply elem_of_app in Hc as [Hc | Hc].
      * left. by apply Hclosed.
      * apply list_elem_of_singleton in Hc as ->. right. by exists d.
  - apply Z.eqb_neq in Hzero. split; cbn [visited].
    + exact Hreach.
    + intros c d Hc Hadj Hd Hh. apply elem_of_app in Hc as [Hc | Hc].
      * by apply Hclosed.
      * apply list_elem_of_singleton in Hc as ->. done.
Qed.

(** The cells a flood from a hidden cell of the map lists for writing
    are the cells it can reach, each once, the start cell first. *)
Lemma floodRun_reach (fs : FloodState) :
  floodRun MAP_SEED db (fst start) (snd start) = Some fs ->
  (forall c, c ∈ map cd_key (cellsToReveal fs) <-> Reach MAP_SEED db start c)
  /\ NoDup (map cd_key (cellsToReveal fs))
  /\ exists rest, map cd_key (cellsToReveal fs) = start :: rest.
Proof.
  intros Hrun. destruct (floodRun_cells fs Hrun) as (Hinv & Hq & Hcells).
  rewrite floodRun_unfold in Hrun.
  apply (floodLoop_invariant MAP_SEED db start (FloodReach MAP_SEED db start)
           floodIter_reach _ []) in Hrun as (popped & Hinv' & [Hreach Hclosed] & _);
    [| apply floodInit_inv | apply floodInit_reach].
  assert (Hp : pushed fs = popped).
  { by rewrite (inv_queue _ _ _ _ _ Hinv'), Hq, app_nil_r. }
  subst popped. rewrite Hcells. split; [| split].
  - intros c. split.
    + intros Hc. apply Hreach.
      by rewrite (inv_visited _ _ _ _ _ Hinv), elem_of_list_to_set.
    + induction 1 as [| c d Hc IH Hadj Hd Hh].
      * rewrite (inv_pushed _ _ _ _ _ Hinv). apply list_elem_of_here.
      * specialize (Hclosed c d IH Hadj Hd Hh).
        by rewrite (inv_visited _ _ _ _ _ Hinv), elem_of_list_to_set in Hclosed.
  - apply Hinv.
  - rewrite (inv_pushed _ _ _ _ _ Hinv). eauto.
Qed.

End FloodFromHidden.

(** A cell of the map with adjacency count 0 has no mine among its eight
    neighbours. *)
Lemma adjacent_zero_no_mine (MAP_SEED : string) (c d : Z * Z) :
  inGrid c ->
  GameUtils.calculateAdjacentMines MAP_SEED (fst c) (snd c) = 0 ->
  d ∈ offsets8 ->
  GameUtils.isMine MAP_SEED (fst (neighbour c d)) (snd (neighbour c d)) = false.
Proof.
  destruct c as [x y]. intros [Hx Hy] Hzero Hd. cbn [fst snd] in *.
  assert (Hguard : (x <? 0) || (x >=? MAP_WIDTH) || (y <? 0) || (y >=? MAP_HEIGHT) = false).
  { repeat (apply orb_false_intro); lia. }
  unfold GameUtils.calculateAdjacentMines in Hzero. rewrite Hguard in Hzero.
  unfold GameUtils.countNeighbor in Hzero.
  cbn [fold_left Z.eqb andb] in Hzero.
  rewrite !(wrap_rem_mod MAP_WIDTH x) in Hzero by (auto using MAP_WIDTH_pos; lia).
  rewrite !(wrap_rem_mod MAP_HEIGHT y) in Hzero by (auto using MAP_HEIGHT_pos; lia).
  apply elem_of_offsets8 in Hd. unfold neighbour.
  repeat destruct Hd as [-> | Hd]; try subst d; cbn [fst snd];
    (match goal with
     | |- ?m = false => destruct m eqn:Hmine; [exfalso | reflexivity]
     end);
    repeat match type of Hzero with
           | context [GameUtils.isMine ?s ?a ?b] =>
               destruct (GameUtils.isMine s a b)
           end; first [discriminate | lia].
Qed.

(** ** What a reveal returns and writes *)

Lemma upsertAll_lookup (cells : list CellData) (db : Db) (cd : CellData) :
  NoDup (map cd_key cells) -> cd ∈ cells ->
  map_state (upsertAll db cells) !! cd_key cd
  = Some (MkCellRow 1 (Some (cd_is_mine cd)) (cd_adjacent_mines cd) 0).
Proof.
  revert db. induction cells as [| c cells IH]; intros db Hnd Hin.
  - by apply elem_of_nil in Hin.
  - cbn [map] in Hnd. apply NoDup_cons in Hnd as [Hfresh Hnd].
    change (upsertAll db (c :: cells))
      with (upsertAll (upsertRevealedCellState db c) cells).
    apply elem_of_cons in Hin as [-> | Hin].
    + rewrite upsertAll_other by done. cbn. apply lookup_insert_eq.
    + by apply IH.
Qed.

(** The cells of a flood, as client cells. *)
Lemma fresh_cell_client (MAP_SEED : string) (db : Db) (cd : CellData) :
  freshSafeCell MAP_SEED db cd ->
  MkClientCell (cd_x cd) (cd_y cd) StRevealed (cd_adjacent_mines cd)
  = safeCell MAP_SEED (cd_key cd).
Proof. intros (_ & _ & Hadj). unfold safeCell, cd_key. cbn. by rewrite Hadj. Qed.

Lemma elem_of_clientCells (cells : list CellData) (cell : ClientCell) :
  cell ∈ clientCells cells
  <-> exists cd, cd ∈ cells
        /\ cell = MkClientCell (cd_x cd) (cd_y cd) StRevealed (cd_adjacent_mines cd).
Proof.
  unfold clientCells. rewrite list_elem_of_fmap. split.
  - intros (cd & -> & Hcd). eauto.
  - intros (cd & Hcd & ->). eauto.
Qed.

(** X1: a reveal is ignored, leaving the database as it was, exactly on
    a cell stored as revealed or flagged; on any other cell it reports a
    mine hit with the one mine cell where the map has a mine, and
    otherwise a list of revealed cells that is never empty and starts
    with the clicked cell and its adjacency count.  The empty-list exit
    of the code is never taken. *)
Theorem revealCell_outcome (MAP_SEED : string) (db : Db) (p : string) (x y : Z) :
  revealOutcome MAP_SEED db x y
    (fst (revealCell MAP_SEED db p x y)) (snd (revealCell MAP_SEED db p x y)).
Proof.
  unfold revealOutcome.
  destruct (revealCell_spec MAP_SEED db p x y)
    as [Hrf | Hrf Hmine | fs popped Hrf Hmine Hrun Hinv Hcells
        | fs popped Hrf Hmine Hrun Hinv Hcells]; rewrite Hrf; try rewrite Hmine;
    try done.
  - assert (Hhid : hiddenAt db (x, y)).
    { unfold hiddenAt. cbn [fst snd]. by rewrite hiddenUnflagged_negb, Hrf. }
    destruct (floodRun_cells MAP_SEED db (x, y) Hhid fs Hrun) as (Hinv' & _ & Hkeys).
    rewrite (inv_pushed _ _ _ _ _ Hinv'), Hcells in Hkeys. done.
  - assert (Hhid : hiddenAt db (x, y)).
    { unfold hiddenAt. cbn [fst snd]. by rewrite hiddenUnflagged_negb, Hrf. }
    destruct (floodRun_cells MAP_SEED db (x, y) Hhid fs Hrun) as (Hinv' & _ & Hkeys).
    rewrite (inv_pushed _ _ _ _ _ Hinv') in Hkeys.
    destruct (cellsToReveal fs) as [| cd cells] eqn:Hcs; [done |].
    assert (Hkey : cd_key cd = (x, y)) by (cbn [map] in Hkeys; congruence).
    exists (clientCells cells). rewrite (inv_score _ _ _ _ _ Hinv), Hcs.
    pose proof (inv_celldata _ _ _ _ _ Hinv) as Hfresh. rewrite Hcs in Hfresh.
    apply Forall_cons in Hfresh as [Hcd _].
    cbn [clientCells map]. rewrite (fresh_cell_client MAP_SEED db cd Hcd), Hkey.
    f_equal. unfold clientCells. rewrite length_map. cbn [length]. lia.
Qed.

Lemma FloodInv_cells_NoDup (MAP_SEED : string) (db : Db) (start : Z * Z)
    (popped : list (Z * Z)) (fs : FloodState) :
  FloodInv MAP_SEED db start popped fs -> NoDup (map cd_key (cellsToReveal fs)).
Proof.
  intros Hinv. eapply sublist_NoDup; [| apply (inv_cells _ _ _ _ _ Hinv)].
  pose proof (inv_nodup _ _ _ _ _ Hinv) as Hnd.
  rewrite (inv_queue _ _ _ _ _ Hinv) in Hnd. by apply NoDup_app in Hnd as [Hnd _].
Qed.

(** The row stored for every returned cell. *)
Lemma revealCell_rows (MAP_SEED : string) (db : Db) (p : string) (x y : Z)
    (cell : ClientCell) :
  cell ∈ resultCells (snd (revealCell MAP_SEED db p x y)) ->
  getCellState (fst (revealCell MAP_SEED db p x y)) (cell_x cell) (cell_y cell)
  = Some (storedRow cell).
Proof.
  destruct (revealCell_spec MAP_SEED db p x y)
    as [Hrf | Hrf Hmine | fs popped Hrf Hmine Hrun Hinv Hcells
        | fs popped Hrf Hmine Hrun Hinv Hcells]; cbn [resultCells]; intros Hin.
  - by apply elem_of_nil in Hin.
  - apply list_elem_of_singleton in Hin as ->. unfold getCellState. cbn.
    apply lookup_insert_eq.
  - by apply elem_of_nil in Hin.
  - apply elem_of_clientCells in Hin as (cd & Hcd & ->).
    unfold getCellState, storedRow. cbn.
    pose proof (inv_celldata _ _ _ _ _ Hinv) as Hfresh.
    rewrite Forall_forall in Hfresh. destruct (Hfresh cd Hcd) as (_ & Hsafe & _).
    change (cd_x cd, cd_y cd) with (cd_key cd).
    rewrite (upsertAll_lookup _ db cd); [by rewrite Hsafe | | done].
    by eapply FloodInv_cells_NoDup.
Qed.

(** No other row changes. *)
Lemma revealCell_frame (MAP_SEED : string) (db : Db) (p : string) (x y : Z)
    (c : Z * Z) :
  c ∉ map cell_key (resultCells (snd (revealCell MAP_SEED db p x y))) ->
  map_state (fst (revealCell MAP_SEED db p x y)) !! c = map_state db !! c.
Proof.
  destruct (revealCell_spec MAP_SEED db p x y)
    as [Hrf | Hrf Hmine | fs popped Hrf Hmine Hrun Hinv Hcells
        | fs popped Hrf Hmine Hrun Hinv Hcells]; cbn [resultCells]; intros Hout;
    try reflexivity.
  - cbn. apply lookup_insert_ne. cbn in Hout. rewrite elem_of_cons in Hout.
    unfold cell_key in Hout. cbn in Hout. intros <-. tauto.
  - cbn. apply upsertAll_other. by rewrite <- clientCells_keys.
Qed.

Lemma hiddenAt_marked (db : Db) (x y : Z) :
  revealedOrFlagged (getCellState db x y) = false -> hiddenAt db (x, y).
Proof.
  intros Hrf. unfold hiddenAt. cbn [fst snd]. by rewrite hiddenUnflagged_negb, Hrf.
Qed.

(** A flood from a safe cell of the map reaches no mine. *)
Lemma Reach_safe (MAP_SEED : string) (db : Db) (start c : Z * Z) :
  inGrid start -> hiddenAt db start ->
  GameUtils.isMine MAP_SEED (fst start) (snd start) = false ->
  Reach MAP_SEED db start c ->
  GameUtils.isMine MAP_SEED (fst c) (snd c) = false.
Proof.
  intros Hg Hh Hsafe. destruct 1 as [| c d Hc Hadj Hd _]; [done |].
  apply adjacent_zero_no_mine; [| done | done].
  by apply (Reach_inGrid MAP_SEED db start).
Qed.

(** X2: a reveal of a cell of the map that is neither revealed nor
    flagged and holds no mine returns, each once, exactly the cells the
    flood can reach: the clicked cell, and every neighbour around the
    edges of the map, neither revealed nor flagged, of a reached cell
    whose adjacency count is 0. *)
Theorem revealCell_reach (MAP_SEED : string) (db : Db) (p : string) (x y : Z) :
  inGrid (x, y) ->
  revealedOrFlagged (getCellState db x y) = false ->
  GameUtils.isMine MAP_SEED x y = false ->
  NoDup (map cell_key (resultCells (snd (revealCell MAP_SEED db p x y))))
  /\ forall c,
       c ∈ map cell_key (resultCells (snd (revealCell MAP_SEED db p x y)))
       <-> Reach MAP_SEED db (x, y) c.
Proof.
  intros Hg Hrf0 Hmine0. pose proof (hiddenAt_marked db x y Hrf0) as Hhid.
  destruct (revealCell_spec MAP_SEED db p x y)
    as [Hrf | Hrf Hmine | fs popped Hrf Hmine Hrun Hinv Hcells
        | fs popped Hrf Hmine Hrun Hinv Hcells]; try congruence.
  - destruct (floodRun_reach MAP_SEED db (x, y) Hhid Hg fs Hrun) as (_ & _ & rest & Hrest).
    rewrite Hcells in Hrest. done.
  - destruct (floodRun_reach MAP_SEED db (x, y) Hhid Hg fs Hrun) as (Hiff & Hnd & _).
    cbn [resultCells]. by rewrite clientCells_keys.
Qed.

Lemma revealCell_reach_witness :
  inGrid (11, 20)
  /\ revealedOrFlagged (getCellState test_db 11 20) = false
  /\ GameUtils.isMine test_seed 11 20 = false
  /\ NoDup (map cell_key (resultCells (snd (revealCell test_seed test_db "p1" 11 20))))
  /\ forall c,
       c ∈ map cell_key (resultCells (snd (revealCell test_seed test_db "p1" 11 20)))
       <-> Reach test_seed test_db (11, 20) c.
Proof.
  assert (H1 : inGrid (11, 20)) by (repeat split; (discriminate || reflexivity)).
  assert (H2 : revealedOrFlagged (getCellState test_db 11 20) = false)
    by (vm_compute; reflexivity).
  assert (H3 : GameUtils.isMine test_seed 11 20 = false) by (vm_compute; reflexivity).
  exact (conj H1 (conj H2 (conj H3 (revealCell_reach test_seed test_db "p1" 11 20 H1 H2 H3)))).
Defined.

(** The cells returned by a reveal of a cell of the map. *)
Lemma revealCell_cells (MAP_SEED : string) (db : Db) (p : string) (x y : Z) :
  inGrid (x, y) ->
  Forall (fun cell => inGrid (cell_key cell) /\ hiddenAt db (cell_key cell)
                      /\ truthfulCell MAP_SEED cell)
         (resultCells (snd (revealCell MAP_SEED db p x y))).
Proof.
  intros Hg.
  destruct (revealCell_spec MAP_SEED db p x y)
    as [Hrf | Hrf Hmine | fs popped Hrf Hmine Hrun Hinv Hcells
        | fs popped Hrf Hmine Hrun Hinv Hcells]; cbn [resultCells];
    try apply Forall_nil_2.
  - apply Forall_singleton. split; [done |]. split; [by apply hiddenAt_marked |].
    unfold truthfulCell. cbn. by rewrite Hmine.
  - pose proof (hiddenAt_marked db x y Hrf) as Hhid.
    destruct (floodRun_reach MAP_SEED db (x, y) Hhid Hg fs Hrun) as (Hiff & _ & _).
    apply Forall_forall. intros cell Hin.
    apply elem_of_clientCells in Hin as (cd & Hcd & ->).
    assert (Hreach : Reach MAP_SEED db (x, y) (cd_key cd)).
    { apply Hiff. apply list_elem_of_fmap. eauto. }
    pose proof (inv_celldata _ _ _ _ _ Hinv) as Hfresh.
    rewrite Forall_forall in Hfresh. specialize (Hfresh cd Hcd).
    split; [by apply (Reach_inGrid MAP_SEED db (x, y)) |].
    split; [by apply (Reach_hidden MAP_SEED db (x, y)) |].
    pose proof (Reach_safe MAP_SEED db (x, y) (cd_key cd) Hg Hhid Hmine Hreach)
      as Hsafe.
    unfold truthfulCell. cbn [cell_x cell_y cd_key fst snd] in Hsafe |- *.
    rewrite Hsafe.
    by apply (fresh_cell_client MAP_SEED db).
Qed.

(** X3: every cell a reveal of a cell of the map returns is a cell of
    the map that was neither revealed nor flagged, and it tells the
    truth about the map: it is reported as a mine only where the map has
    a mine, and as revealed only where the map has none, with the number
    of mines around it as its value. *)
Theorem revealCell_truthful (MAP_SEED : string) (db : Db) (p : string) (x y : Z) :
  inGrid (x, y) ->
  Forall (fun cell => inGrid (cell_key cell) /\ hiddenAt db (cell_key cell)
                      /\ truthfulCell MAP_SEED cell)
         (resultCells (snd (revealCell MAP_SEED db p x y))).
Proof. apply revealCell_cells. Qed.

Lemma revealCell_truthful_witness :
  inGrid (11, 20)
  /\ Forall (fun cell => inGrid (cell_key cell) /\ hiddenAt test_db (cell_key cell)
                         /\ truthfulCell test_seed cell)
            (resultCells (snd (revealCell test_seed test_db "p1" 11 20))).
Proof.
  assert (H1 : inGrid (11, 20)) by (repeat split; (discriminate || reflexivity)).
  exact (conj H1 (revealCell_truthful test_seed test_db "p1" 11 20 H1)).
Defined.

(** X4: after a reveal, the row of every returned cell is the revealed
    row of that cell, so that a later reveal of it by anyone is ignored
    and changes nothing; and the row of every other cell is as it was
    before the call. *)
Theorem revealCell_writes (MAP_SEED : string) (db : Db) (p : string) (x y : Z) :
  (forall cell,
     cell ∈ resultCells (snd (revealCell MAP_SEED db p x y)) ->
     getCellState (fst (revealCell MAP_SEED db p x y)) (cell_x cell) (cell_y cell)
     = Some (storedRow cell)
     /\ forall q,
          revealCell MAP_SEED (fst (revealCell MAP_SEED db p x y)) q
                     (cell_x cell) (cell_y cell)
          = (fst (revealCell MAP_SEED db p x y), Ignored))
  /\ (forall c,
        c ∉ map cell_key (resultCells (snd (revealCell MAP_SEED db p x y))) ->
        getCellState (fst (revealCell MAP_SEED db p x y)) (fst c) (snd c)
        = getCellState db (fst c) (snd c)).
Proof.
  split.
  - intros cell Hin. pose proof (revealCell_rows MAP_SEED db p x y cell Hin) as Hrow.
    split; [done |]. intros q.
    set (db' := fst (revealCell MAP_SEED db p x y)) in *.
    unfold revealCell at 1. rewrite Hrow.
    by destruct cell as [cx cy [] cv].
  - intros [cx cy] Hout. by apply revealCell_frame.
Qed.

Lemma revealCell_writes_witness :
  safeCell test_seed (12, 20)
    ∈ resultCells (snd (revealCell test_seed test_db "p1" 11 20))
  /\ getCellState (fst (revealCell test_seed test_db "p1" 11 20)) 12 20
     = Some (MkCellRow 1 (Some 0) (Some 0) 0)
  /\ ((8, 8) ∉ map cell_key (resultCells (snd (revealCell test_seed test_db "p1" 11 20))))
  /\ getCellState (fst (revealCell test_seed test_db "p1" 11 20)) 8 8
     = getCellState test_db 8 8.
Proof.
  assert (H1 : safeCell test_seed (12, 20)
               ∈ resultCells (snd (revealCell test_seed test_db "p1" 11 20))).
  { apply list_elem_of_In. vm_compute.
    repeat (try (left; reflexivity); right). }
  assert (H2 : (8, 8) ∉ map cell_key
                 (resultCells (snd (revealCell test_seed test_db "p1" 11 20)))).
  { apply (bool_decide_unpack _). vm_compute. exact I. }
  pose proof (revealCell_writes test_seed test_db "p1" 11 20) as [Hrows Hframe].
  split; [exact H1 |]. split.
  - destruct (Hrows _ H1) as [Hrow _]. cbn [cell_x cell_y safeCell fst snd] in Hrow.
    rewrite Hrow. vm_compute. reflexivity.
  - split; [exact H2 |]. exact (Hframe (8, 8) H2).
Defined.

(** ** The stored map agrees with the procedural map *)

Lemma revealCell_consistent (MAP_SEED : string) (db : Db) (p : string) (x y : Z) :
  inGrid (x, y) -> dbConsistent MAP_SEED db ->
  dbConsistent MAP_SEED (fst (revealCell MAP_SEED db p x y)).
Proof.
  intros Hg Hdb c r Hlook.
  destruct (decide (c ∈ map cell_key (resultCells (snd (revealCell MAP_SEED db p x y)))))
    as [Hin | Hout].
  - apply list_elem_of_fmap in Hin as (cell & -> & Hin).
    pose proof (revealCell_rows MAP_SEED db p x y cell Hin) as Hrow.
    unfold getCellState in Hrow. unfold cell_key in Hlook.
    rewrite Hrow in Hlook. injection Hlook as <-.
    pose proof (revealCell_cells MAP_SEED db p x y Hg) as Hall.
    rewrite Forall_forall in Hall. destruct (Hall cell Hin) as (Hgc & _ & Htrue).
    split; [done |]. unfold truthfulCell in Htrue. unfold rowConsistent.
    cbn [cell_key fst snd].
    destruct (GameUtils.isMine MAP_SEED (cell_x cell) (cell_y cell));
      rewrite Htrue; cbn; tauto.
  - rewrite (revealCell_frame MAP_SEED db p x y c Hout) in Hlook. by apply Hdb.
Qed.

Lemma toggleFlag_consistent (MAP_SEED : string) (db : Db) (p : string) (x y : Z) :
  inGrid (x, y) -> dbConsistent MAP_SEED db ->
  dbConsistent MAP_SEED (fst (toggleFlag db p x y)).
Proof.
  intros Hg Hdb c r. unfold toggleFlag, setFlagState, getCellState.
  destruct (map_state db !! (x, y)) as [row |] eqn:Hrow; cbn.
  - destruct (revealed row =? 1); [apply Hdb |].
    destruct (flag_state row =? 1); cbn; [| apply Hdb].
    destruct (revealed row =? 0); cbn; [| apply Hdb].
    intros Hlook. apply lookup_delete_Some in Hlook as [_ Hlook]. by apply Hdb.
  - intros Hlook. apply lookup_insert_Some in Hlook as [[<- <-] | [_ Hlook]].
    + split; [done |]. by left.
    + by apply Hdb.
Qed.

(** X5: from a database whose rows agree with the map, every run of
    reveals and flag toggles on cells of the map leaves a database whose
    rows agree with the map: rows exist only for cells of the map, a row
    says mine only where the map has a mine, a row says safe only where
    it has none and then carries the true adjacency count, and every
    other row is a flag on a cell not revealed. *)
Theorem runOps_consistent (MAP_SEED : string) (ops : list Op) (db : Db) :
  dbConsistent MAP_SEED db -> Forall opInGrid ops ->
  dbConsistent MAP_SEED (runOps MAP_SEED db ops).
Proof.
  unfold runOps. revert db. induction ops as [| op ops IH]; intros db Hdb Hops; [done |].
  apply Forall_cons in Hops as [Hop Hops]. cbn [fold_left]. apply IH; [| done].
  destruct op as [p x y | p x y]; cbn [runOp opInGrid] in *.
  - by apply revealCell_consistent.
  - by apply toggleFlag_consistent.
Qed.

Lemma runOps_consistent_witness :
  dbConsistent test_seed test_db /\ Forall opInGrid test_ops
  /\ dbConsistent test_seed (runOps test_seed test_db test_ops).
Proof.
  assert (H1 : dbConsistent test_seed test_db).
  { intros c r Hlook. cbn in Hlook. by rewrite lookup_empty in Hlook. }
  assert (H2 : Forall opInGrid test_ops).
  { repeat constructor; (discriminate || reflexivity). }
  exact (conj H1 (conj H2 (runOps_consistent test_seed test_ops test_db H1 H2))).
Defined.

Ltac flag_cases :=
  cbn [map_state players isRevealed isFlagged revealed flag_state fst snd
       Z.eqb Pos.eqb].

(** X6: in a database whose rows agree with the map, two flag toggles
    of the same cell, by any two players, leave the database exactly as
    it was, whether the cell had no row, was flagged or was revealed;
    the first toggle is ignored exactly when the cell is revealed. *)
Theorem toggleFlag_involution (MAP_SEED : string) (db : Db) (p q : string) (x y : Z) :
  dbConsistent MAP_SEED db ->
  fst (toggleFlag (fst (toggleFlag db p x y)) q x y) = db
  /\ (snd (toggleFlag db p x y) = FlagIgnored
      <-> isRevealed (getCellState db x y) = true).
Proof.
  intros Hdb. destruct db as [cells pls].
  unfold toggleFlag, setFlagState, getCellState. cbn [map_state players].
  destruct (cells !! (x, y)) as [row |] eqn:Hrow.
  - destruct (Hdb (x, y) row Hrow) as [_ [-> | [[-> _] | [-> _]]]]; flag_cases.
    + rewrite !lookup_delete_eq. flag_cases.
      rewrite insert_delete_id by done. done.
    + by rewrite Hrow.
    + by rewrite Hrow.
  - flag_cases. rewrite !lookup_insert_eq. flag_cases.
    rewrite delete_insert_id by done. done.
Qed.

Lemma toggleFlag_involution_witness :
  dbConsistent test_seed test_db_flag
  /\ fst (toggleFlag (fst (toggleFlag test_db_flag "p1" 12 21)) "p2" 12 21)
     = test_db_flag
  /\ (snd (toggleFlag test_db_flag "p1" 12 21) = FlagIgnored
      <-> isRevealed (getCellState test_db_flag 12 21) = true).
Proof.
  assert (H1 : dbConsistent test_seed test_db_flag).
  { intros c r Hlook.
    change (map_state test_db_flag)
      with (<[ (12, 21) := MkCellRow 0 None None 1 ]> (∅ : gmap (Z * Z) CellRow))
      in Hlook.
    apply lookup_insert_Some in Hlook as [[<- <-] | [_ Hlook]].
    - split; [repeat split; (discriminate || reflexivity) | by left].
    - by rewrite lookup_empty in Hlook. }
  exact (conj H1 (toggleFlag_involution test_seed test_db_flag "p1" "p2" 12 21 H1)).
Defined.

(** ** The [players] table at connect *)

Lemma findOrCreatePlayer_spec (db : Db) (playerId now : string) :
  snd (findOrCreatePlayer db playerId now)
  = Some (MkPlayerRow (getPlayerScore db playerId) now)
  /\ players (fst (findOrCreatePlayer db playerId now))
     = <[ playerId := MkPlayerRow (getPlayerScore db playerId) now ]> (players db)
  /\ map_state (fst (findOrCreatePlayer db playerId now)) = map_state db.
Proof.
  unfold findOrCreatePlayer, touchLastSeen, insertPlayerOrIgnore, selectPlayer,
    getPlayerScore.
  destruct (players db !! playerId) as [row |] eqn:Hrow;
    cbn [Z.eqb fst snd players map_state].
  - rewrite lookup_insert_eq. cbn [last_seen score]. rewrite String.eqb_refl.
    cbn [negb fst snd players map_state]. done.
  - rewrite Hrow. cbn [players map_state]. rewrite lookup_insert_eq.
    cbn [last_seen score]. rewrite String.eqb_refl.
    cbn [negb fst snd players map_state]. done.
Qed.

(** X7: [findOrCreatePlayer] always returns a row, never [null]: the
    row of the player with its stored score, or with score 0 for an id
    without a row, and with [last_seen] set to the time of the call.
    That row is what the table then holds for the id; no other player's
    row and no cell changes. *)
Theorem findOrCreatePlayer_row (db : Db) (playerId now : string) :
  snd (findOrCreatePlayer db playerId now)
  = Some (MkPlayerRow (getPlayerScore db playerId) now)
  /\ players (fst (findOrCreatePlayer db playerId now))
     = <[ playerId := MkPlayerRow (getPlayerScore db playerId) now ]> (players db)
  /\ map_state (fst (findOrCreatePlayer db playerId now)) = map_state db.
Proof. apply findOrCreatePlayer_spec. Qed.

(** ** JavaScript maps *)

Section MapLaws.
Context {K V : Type} `{EqDecision K}.
Implicit Types (m : list (K * V)) (k : K) (v : V).

Lemma mapGet_None m k : mapGet m k = None <-> k ∉ map fst m.
Proof.
  induction m as [| [k' v'] m IH]; cbn.
  - split; [intros _; apply not_elem_of_nil | done].
  - rewrite not_elem_of_cons. destruct (decide (k' = k)) as [-> | Hne].
    + split; [done | tauto].
    + rewrite IH. split; [intros; split; congruence | tauto].
Qed.

Lemma mapGet_elem_of m k v :
  NoDup (map fst m) -> (mapGet m k = Some v <-> (k, v) ∈ m).
Proof.
  induction m as [| [k' v'] m IH]; cbn; intros Hnd.
  - split; [done | intros H; by apply elem_of_nil in H].
  - apply NoDup_cons in Hnd as [Hfresh Hnd]. rewrite elem_of_cons.
    destruct (decide (k' = k)) as [-> | Hne].
    + split; [intros [= ->]; by left |].
      intros [[= ->] | Hin]; [done |]. exfalso. apply Hfresh.
      apply list_elem_of_fmap. by exists (k, v).
    + rewrite (IH Hnd). split; [tauto |]. intros [[= ? ?] | Hin]; [congruence | done].
Qed.

Lemma mapGet_mapSet_eq m k v : mapGet (mapSet m k v) k = Some v.
Proof.
  induction m as [| [k' v'] m IH]; cbn.
  - by rewrite decide_True.
  - destruct (decide (k' = k)) as [-> | Hne]; cbn.
    + by rewrite decide_True.
    + by rewrite decide_False.
Qed.

Lemma mapGet_mapSet_ne m k k' v : k <> k' -> mapGet (mapSet m k v) k' = mapGet m k'.
Proof.
  intros Hne. induction m as [| [k0 v0] m IH]; cbn.
  - by rewrite decide_False.
  - destruct (decide (k0 = k)) as [-> | Hne0]; cbn.
    + by rewrite !decide_False.
    + by rewrite IH.
Qed.

Lemma mapSet_keys m k v :
  mapGet m k = None -> map fst (mapSet m k v) = map fst m ++ [k].
Proof.
  induction m as [| [k0 v0] m IH]; cbn; [done |].
  destruct (decide (k0 = k)) as [-> | Hne0]; [done |].
  intros Hnone. cbn. by rewrite IH.
Qed.

Lemma mapSet_keys_present m k v :
  mapGet m k <> None -> map fst (mapSet m k v) = map fst m.
Proof.
  induction m as [| [k0 v0] m IH]; cbn; [done |].
  destruct (decide (k0 = k)) as [-> | Hne0]; [done |].
  intros Hsome. cbn. by rewrite IH.
Qed.

Lemma mapSet_NoDup m k v : NoDup (map fst m) -> NoDup (map fst (mapSet m k v)).
Proof.
  intros Hnd. destruct (mapGet m k) as [v' |] eqn:Hget.
  - rewrite mapSet_keys_present by congruence. done.
  - rewrite mapSet_keys by done. apply NoDup_app. split; [done |].
    split; [| apply NoDup_singleton].
    intros k' Hk' ->%list_elem_of_singleton. by apply mapGet_None in Hget.
Qed.

Lemma mapDelete_keys_sublist m k : map fst (mapDelete m k) `sublist_of` map fst m.
Proof.
  induction m as [| [k0 v0] m IH]; cbn; [done |].
  destruct (decide (k0 = k)); cbn.
  - by apply sublist_cons.
  - by apply sublist_skip.
Qed.

Lemma mapDelete_NoDup m k : NoDup (map fst m) -> NoDup (map fst (mapDelete m k)).
Proof. intros Hnd. eapply sublist_NoDup; [exact Hnd | apply mapDelete_keys_sublist]. Qed.

Lemma mapGet_mapDelete_eq m k : NoDup (map fst m) -> mapGet (mapDelete m k) k = None.
Proof.
  induction m as [| [k0 v0] m IH]; cbn; [done |]. intros Hnd.
  apply NoDup_cons in Hnd as [Hfresh Hnd].
  destruct (decide (k0 = k)) as [-> | Hne0]; cbn.
  - by apply mapGet_None.
  - rewrite decide_False by done. by apply IH.
Qed.

Lemma mapGet_mapDelete_ne m k k' : k <> k' -> mapGet (mapDelete m k) k' = mapGet m k'.
Proof.
  intros Hne. induction m as [| [k0 v0] m IH]; cbn; [done |].
  destruct (decide (k0 = k)) as [-> | Hne0]; cbn.
  - by rewrite decide_False.
  - by rewrite IH.
Qed.

Lemma mapDelete_mapSet m k v : mapGet m k = None -> mapDelete (mapSet m k v) k = m.
Proof.
  induction m as [| [k0 v0] m IH]; cbn.
  - by rewrite decide_True.
  - destruct (decide (k0 = k)) as [-> | Hne0]; [done |].
    intros Hnone. cbn. rewrite decide_False by done. by rewrite IH.
Qed.

End MapLaws.

(** ** The player registry *)

Lemma Qle_bool_false (a b : Q) : Qle_bool a b = false -> (b < a)%Q.
Proof.
  intros Hf. apply Qnot_le_lt. intros Hle. apply Qle_bool_iff in Hle. congruence.
Qed.

Lemma js_le_ofZ (a b : Z) :
  PlayerManager.js_le (PlayerManager.ofZ a) (PlayerManager.ofZ b) = true <-> a <= b.
Proof. cbn. by rewrite Qle_bool_iff, <- Zle_Qle. Qed.

Lemma clamp_inMapRange (bound : Z) (v : JsNumber) :
  1 <= bound -> v <> NaN -> inMapRange bound (PlayerManager.clamp bound v).
Proof.
  intros Hb Hv. unfold inMapRange, PlayerManager.clamp.
  assert (H0 : Qle_bool (inject_Z 0) (inject_Z (bound - 1)) = true).
  { apply Qle_bool_iff. rewrite <- Zle_Qle. lia. }
  assert (H00 : Qle_bool (inject_Z 0) (inject_Z 0) = true).
  { apply Qle_bool_iff. apply Qle_refl. }
  assert (H11 : Qle_bool (inject_Z (bound - 1)) (inject_Z (bound - 1)) = true).
  { apply Qle_bool_iff. apply Qle_refl. }
  destruct v as [| | | q]; [done | | |]; cbn.
  - rewrite H0. cbn. by rewrite H0, H11.
  - by rewrite H00, H0.
  - destruct (Qle_bool (inject_Z (bound - 1)) q) eqn:Hhi; cbn.
    + rewrite H0. cbn. by rewrite H0, H11.
    + destruct (Qle_bool (inject_Z 0) q) eqn:Hlo; cbn.
      * rewrite Hlo. split; [done |]. apply Qle_bool_iff, Qlt_le_weak.
        by apply Qle_bool_false.
      * by rewrite H00, H0.
Qed.

Lemma clamp_same (bound : Z) (v : JsNumber) :
  inMapRange bound v -> sameNumber (PlayerManager.clamp bound v) v.
Proof.
  unfold inMapRange, PlayerManager.clamp. destruct v as [| | | q]; cbn; try (intros [? ?]; done).
  intros [Hlo Hhi].
  assert (H0 : Qle_bool (inject_Z 0) (inject_Z (bound - 1)) = true).
  { apply Qle_bool_iff. apply Qle_bool_iff in Hlo, Hhi. by apply (Qle_trans _ q). }
  destruct (Qle_bool (inject_Z (bound - 1)) q) eqn:Hhi'; cbn.
  - rewrite H0. cbn. apply Qle_bool_iff in Hhi, Hhi'. by apply Qle_antisym.
  - rewrite Hlo. cbn. apply Qeq_refl.
Qed.

(** X8: [updatePlayerPosition] on an active player with any two numbers
    other than [NaN], the infinities included, stores a position inside
    the map, [0 <= x <= MAP_WIDTH - 1] and [0 <= y <= MAP_HEIGHT - 1]; a
    coordinate already inside is stored with its value.  The socket,
    the id and the score of the player stay, and no other player
    changes. *)
Theorem updatePlayerPosition_clamps (reg : PlayerManager.Registry) (playerId : string)
    (x y : JsNumber) (player : PlayerManager.Player) :
  PlayerManager.getPlayerById reg playerId = Some player ->
  x <> NaN -> y <> NaN ->
  exists px py,
    PlayerManager.getPlayerById
      (PlayerManager.updatePlayerPosition reg playerId x y) playerId
    = Some (PlayerManager.MkPlayer (PlayerManager.pl_ws player)
              (PlayerManager.pl_id player) px py (PlayerManager.pl_score player))
    /\ inMapRange MAP_WIDTH px /\ inMapRange MAP_HEIGHT py
    /\ (inMapRange MAP_WIDTH x -> sameNumber px x)
    /\ (inMapRange MAP_HEIGHT y -> sameNumber py y)
    /\ forall other, other <> playerId ->
         PlayerManager.getPlayerById
           (PlayerManager.updatePlayerPosition reg playerId x y) other
         = PlayerManager.getPlayerById reg other.
Proof.
  intros Hget Hx Hy.
  exists (PlayerManager.clamp MAP_WIDTH x), (PlayerManager.clamp MAP_HEIGHT y).
  unfold PlayerManager.getPlayerById, PlayerManager.updatePlayerPosition in *.
  rewrite Hget. cbn [PlayerManager.activePlayers].
  split; [apply mapGet_mapSet_eq |].
  split; [by apply clamp_inMapRange |]. split; [by apply clamp_inMapRange |].
  split; [apply clamp_same |]. split; [apply clamp_same |].
  intros other Hne. by apply mapGet_mapSet_ne.
Qed.

Lemma updatePlayerPosition_clamps_witness :
  PlayerManager.getPlayerById test_registry "p1"
  = Some (PlayerManager.MkPlayer 1 "p1" (PlayerManager.ofZ 320) (PlayerManager.ofZ 320) 0)
  /\ PosInfinity <> NaN /\ Finite (-3 # 2) <> NaN
  /\ exists px py,
       PlayerManager.getPlayerById
         (PlayerManager.updatePlayerPosition test_registry "p1" PosInfinity
            (Finite (-3 # 2))) "p1"
       = Some (PlayerManager.MkPlayer 1 "p1" px py 0)
       /\ inMapRange MAP_WIDTH px /\ inMapRange MAP_HEIGHT py
       /\ (inMapRange MAP_WIDTH PosInfinity -> sameNumber px PosInfinity)
       /\ (inMapRange MAP_HEIGHT (Finite (-3 # 2)) -> sameNumber py (Finite (-3 # 2)))
       /\ forall other, other <> "p1"%string ->
            PlayerManager.getPlayerById
              (PlayerManager.updatePlayerPosition test_registry "p1" PosInfinity
                 (Finite (-3 # 2))) other
            = PlayerManager.getPlayerById test_registry other.
Proof.
  assert (H1 : PlayerManager.getPlayerById test_registry "p1"
               = Some (PlayerManager.MkPlayer 1 "p1" (PlayerManager.ofZ 320)
                         (PlayerManager.ofZ 320) 0)) by reflexivity.
  assert (H2 : PosInfinity <> NaN) by discriminate.
  assert (H3 : Finite (-3 # 2) <> NaN) by discriminate.
  exact (conj H1 (conj H2 (conj H3
           (updatePlayerPosition_clamps test_registry "p1" PosInfinity
              (Finite (-3 # 2)) _ H1 H2 H3)))).
Defined.

Lemma emptyRegistry_consistent : registryConsistent PlayerManager.emptyRegistry.
Proof. split; cbn; try done; apply NoDup_nil_2. Qed.

Lemma addPlayer_registry (db : Db) (reg : PlayerManager.Registry) (ws : nat)
    (playerId now : string) :
  afterAdd db reg ws playerId now
  = PlayerManager.MkRegistry
      (mapSet (PlayerManager.activePlayers reg) playerId
         (PlayerManager.MkPlayer ws playerId (PlayerManager.ofZ PlayerManager.START_X)
            (PlayerManager.ofZ PlayerManager.START_Y) (getPlayerScore db playerId)))
      (mapSet (PlayerManager.wsToPlayerId reg) ws playerId)
  /\ snd (PlayerManager.addPlayer db reg ws playerId now)
     = Some (PlayerManager.MkPlayerData playerId
               (PlayerManager.ofZ PlayerManager.START_X)
               (PlayerManager.ofZ PlayerManager.START_Y) (getPlayerScore db playerId))
  /\ fst (fst (PlayerManager.addPlayer db reg ws playerId now))
     = fst (findOrCreatePlayer db playerId now).
Proof.
  unfold afterAdd, PlayerManager.addPlayer.
  destruct (findOrCreatePlayer_spec db playerId now) as (Hrow & _ & _).
  destruct (findOrCreatePlayer db playerId now) as [db' row]. cbn [snd] in Hrow.
  subst row. done.
Qed.

Lemma addPlayer_consistent (db : Db) (reg : PlayerManager.Registry) (ws : nat)
    (playerId now : string) :
  registryConsistent reg ->
  PlayerManager.getPlayerIdByWs reg ws = None ->
  PlayerManager.getPlayerById reg playerId = None ->
  playerId <> ""%string ->
  registryConsistent (afterAdd db reg ws playerId now).
Proof.
  intros [Hnp Hns Hsock Hplay] Hws Hid Hne.
  destruct (addPlayer_registry db reg ws playerId now) as (-> & _ & _).
  unfold PlayerManager.getPlayerIdByWs, PlayerManager.getPlayerById in *.
  split; cbn [PlayerManager.activePlayers PlayerManager.wsToPlayerId].
  - by apply mapSet_NoDup.
  - by apply mapSet_NoDup.
  - intros ws' id' Hget. destruct (decide (ws = ws')) as [<- | Hw].
    + rewrite mapGet_mapSet_eq in Hget. injection Hget as <-.
      rewrite mapGet_mapSet_eq. eauto.
    + rewrite mapGet_mapSet_ne in Hget by done.
      destruct (Hsock ws' id' Hget) as (pl & Hpl & Hpws).
      exists pl. split; [| done]. rewrite mapGet_mapSet_ne; [done |]. congruence.
  - intros id' pl Hget. destruct (decide (playerId = id')) as [<- | Hi].
    + rewrite mapGet_mapSet_eq in Hget. injection Hget as <-. cbn.
      by rewrite mapGet_mapSet_eq.
    + rewrite mapGet_mapSet_ne in Hget by done.
      destruct (Hplay id' pl Hget) as (Hpid & Hnonempty & Hpws).
      split; [done |]. split; [done |]. rewrite mapGet_mapSet_ne; [done |]. congruence.
Qed.

Lemma removePlayer_consistent (db : Db) (reg : PlayerManager.Registry) (ws : nat)
    (now : string) :
  registryConsistent reg -> registryConsistent (afterRemove db reg ws now).
Proof.
  intros Hreg. pose proof Hreg as [Hnp Hns Hsock Hplay].
  unfold afterRemove, PlayerManager.removePlayer.
  destruct (mapGet (PlayerManager.wsToPlayerId reg) ws) as [id |] eqn:Hws; [| done].
  destruct (PlayerManager.truthy id && mapHas (PlayerManager.activePlayers reg) id);
    [| done].
  destruct (Hsock ws id Hws) as (pl0 & Hpl0 & Hpws0).
  split; cbn [fst snd PlayerManager.activePlayers PlayerManager.wsToPlayerId].
  - by apply mapDelete_NoDup.
  - by apply mapDelete_NoDup.
  - intros ws' id' Hget. destruct (decide (ws = ws')) as [<- | Hw].
    + by rewrite mapGet_mapDelete_eq in Hget.
    + rewrite mapGet_mapDelete_ne in Hget by done.
      destruct (Hsock ws' id' Hget) as (pl & Hpl & Hpws).
      exists pl. split; [| done]. rewrite mapGet_mapDelete_ne; [done |].
      intros <-. congruence.
  - intros id' pl Hget. destruct (decide (id = id')) as [<- | Hi].
    + by rewrite mapGet_mapDelete_eq in Hget.
    + rewrite mapGet_mapDelete_ne in Hget by done.
      destruct (Hplay id' pl Hget) as (Hpid & Hnonempty & Hpws).
      split; [done |]. split; [done |]. rewrite mapGet_mapDelete_ne; [done |].
      intros Heq. rewrite <- Heq in Hpws. congruence.
Qed.

Lemma mapSet_same_consistent (reg : PlayerManager.Registry) (playerId : string)
    (player player' : PlayerManager.Player) :
  registryConsistent reg ->
  mapGet (PlayerManager.activePlayers reg) playerId = Some player ->
  PlayerManager.pl_ws player' = PlayerManager.pl_ws player ->
  PlayerManager.pl_id player' = PlayerManager.pl_id player ->
  registryConsistent
    (PlayerManager.MkRegistry
       (mapSet (PlayerManager.activePlayers reg) playerId player')
       (PlayerManager.wsToPlayerId reg)).
Proof.
  intros [Hnp Hns Hsock Hplay] Hget Hws Hid.
  split; cbn [PlayerManager.activePlayers PlayerManager.wsToPlayerId].
  - by apply mapSet_NoDup.
  - done.
  - intros ws' id' Hget'. destruct (Hsock ws' id' Hget') as (pl & Hpl & Hpws).
    destruct (decide (playerId = id')) as [<- | Hi].
    + rewrite mapGet_mapSet_eq. exists player'. split; [done |]. congruence.
    + rewrite mapGet_mapSet_ne by done. eauto.
  - intros id' pl Hget'. destruct (decide (playerId = id')) as [<- | Hi].
    + rewrite mapGet_mapSet_eq in Hget'. injection Hget' as <-.
      rewrite Hws, Hid. by apply Hplay.
    + rewrite mapGet_mapSet_ne in Hget' by done. by apply Hplay.
Qed.

Lemma updatePlayerPosition_consistent (reg : PlayerManager.Registry)
    (playerId : string) (x y : JsNumber) :
  registryConsistent reg ->
  registryConsistent (PlayerManager.updatePlayerPosition reg playerId x y).
Proof.
  intros Hreg. unfold PlayerManager.updatePlayerPosition.
  destruct (mapGet (PlayerManager.activePlayers reg) playerId) as [player |] eqn:Hget;
    [| done].
  by eapply mapSet_same_consistent.
Qed.

Lemma updatePlayerScore_consistent (reg : PlayerManager.Registry)
    (playerId : string) (newScore : Z) :
  registryConsistent reg ->
  registryConsistent (PlayerManager.updatePlayerScore reg playerId newScore).
Proof.
  intros Hreg. unfold PlayerManager.updatePlayerScore.
  destruct (mapGet (PlayerManager.activePlayers reg) playerId) as [player |] eqn:Hget;
    [| done].
  by eapply mapSet_same_consistent.
Qed.

(** X9: the two maps of the player manager stay in step.  The empty
    registry is consistent, and from a consistent registry so is the one
    left by [addPlayer] with a socket and a non-empty id not yet in use,
    by [removePlayer] on any socket, and by [updatePlayerPosition] and
    [updatePlayerScore] on any id.  In a consistent registry a socket
    that has a player id has that player in [activePlayers]: the
    inconsistency [handleMessage] logs cannot arise. *)
Theorem registry_stays_consistent (db : Db) (reg : PlayerManager.Registry) :
  registryConsistent PlayerManager.emptyRegistry
  /\ (registryConsistent reg ->
      (forall ws playerId now,
         PlayerManager.getPlayerIdByWs reg ws = None ->
         PlayerManager.getPlayerById reg playerId = None ->
         playerId <> ""%string ->
         registryConsistent (afterAdd db reg ws playerId now))
      /\ (forall ws now, registryConsistent (afterRemove db reg ws now))
      /\ (forall playerId x y,
            registryConsistent (PlayerManager.updatePlayerPosition reg playerId x y))
      /\ (forall playerId newScore,
            registryConsistent (PlayerManager.updatePlayerScore reg playerId newScore))
      /\ (forall ws playerId,
            PlayerManager.getPlayerIdByWs reg ws = Some playerId ->
            exists player,
              PlayerManager.getPlayerById reg playerId = Some player
              /\ PlayerManager.pl_ws player = ws
              /\ PlayerManager.pl_id player = playerId)).
Proof.
  split; [apply emptyRegistry_consistent |]. intros Hreg.
  split; [intros; by apply addPlayer_consistent |].
  split; [intros; by apply removePlayer_consistent |].
  split; [intros; by apply updatePlayerPosition_consistent |].
  split; [intros; by apply updatePlayerScore_consistent |].
  intros ws playerId Hget.
  destruct (rc_socket reg Hreg ws playerId Hget) as (player & Hpl & Hws).
  exists player. split; [done |]. split; [done |].
  by destruct (rc_player reg Hreg playerId player Hpl).
Qed.

Lemma test_registry_consistent : registryConsistent test_registry.
Proof.
  split.
  - apply (bool_decide_unpack _). vm_compute. exact I.
  - apply (bool_decide_unpack _). vm_compute. exact I.
  - intros ws id Hget. unfold test_registry in *.
    cbn [mapGet PlayerManager.wsToPlayerId PlayerManager.activePlayers] in *.
    repeat case_decide; simplify_eq; cbn; eauto.
  - intros id player Hget. unfold test_registry in *.
    cbn [mapGet PlayerManager.wsToPlayerId PlayerManager.activePlayers] in *.
    repeat case_decide; simplify_eq; cbn; done.
Qed.

Lemma registry_stays_consistent_witness :
  registryConsistent test_registry
  /\ PlayerManager.getPlayerIdByWs test_registry 3 = None
  /\ PlayerManager.getPlayerById test_registry "p3" = None
  /\ "p3"%string <> ""%string
  /\ registryConsistent
       (afterAdd test_db test_registry 3 "p3" "2025-03-29T00:00:01.000Z")
  /\ registryConsistent (afterRemove test_db test_registry 1 "2025-03-29T00:00:01.000Z").
Proof.
  pose proof test_registry_consistent as H1.
  assert (H2 : PlayerManager.getPlayerIdByWs test_registry 3 = None) by reflexivity.
  assert (H3 : PlayerManager.getPlayerById test_registry "p3" = None) by reflexivity.
  assert (H4 : "p3"%string <> ""%string) by discriminate.
  destruct (registry_stays_consistent test_db test_registry) as [_ Hkept].
  destruct (Hkept H1) as (Hadd & Hrem & _).
  exact (conj H1 (conj H2 (conj H3 (conj H4
           (conj (Hadd 3%nat "p3"%string _ H2 H3 H4) (Hrem 1%nat _)))))).
Defined.

Lemma truthy_nonempty (s : string) : s <> ""%string -> PlayerManager.truthy s = true.
Proof.
  intros Hne. unfold PlayerManager.truthy. apply negb_true_iff.
  by apply String.eqb_neq.
Qed.

(** X10: a connect followed by the disconnect of the same socket is a
    round trip on the registry.  With a socket and a non-empty id not
    yet in use, [addPlayer] returns the player at the centre of the map
    with its stored score, 0 for a new id, and registers the socket;
    [removePlayer] on that socket then returns the id and leaves the
    registry exactly as it was before the connect.  What remains is the
    [players] row of the id, with the stored score and the time of the
    disconnect; no cell changes. *)
Theorem addPlayer_removePlayer (db : Db) (reg : PlayerManager.Registry) (ws : nat)
    (playerId now later : string) :
  PlayerManager.getPlayerIdByWs reg ws = None ->
  PlayerManager.getPlayerById reg playerId = None ->
  playerId <> ""%string ->
  let added := PlayerManager.addPlayer db reg ws playerId now in
  let removed :=
    PlayerManager.removePlayer (fst (fst added)) (snd (fst added)) ws later in
  snd added
  = Some (PlayerManager.MkPlayerData playerId (PlayerManager.ofZ 320)
            (PlayerManager.ofZ 320) (getPlayerScore db playerId))
  /\ PlayerManager.getPlayerIdByWs (snd (fst added)) ws = Some playerId
  /\ snd removed = Some playerId
  /\ snd (fst removed) = reg
  /\ players (fst (fst removed))
     = <[ playerId := MkPlayerRow (getPlayerScore db playerId) later ]> (players db)
  /\ map_state (fst (fst removed)) = map_state db.
Proof.
  intros Hws Hid Hne. cbv zeta.
  destruct (addPlayer_registry db reg ws playerId now) as (Hreg & Hdata & Hdb).
  destruct (findOrCreatePlayer_spec db playerId now) as (_ & Hplayers & Hmap).
  unfold afterAdd in Hreg. rewrite <- Hdb in Hplayers, Hmap.
  destruct (PlayerManager.addPlayer db reg ws playerId now) as [[db1 reg1] data].
  cbn [fst snd] in Hreg, Hdata, Hplayers, Hmap |- *. subst reg1 data.
  unfold PlayerManager.getPlayerIdByWs, PlayerManager.getPlayerById in *.
  split; [done |].
  split; [cbn; apply mapGet_mapSet_eq |].
  unfold PlayerManager.removePlayer.
  cbn [PlayerManager.activePlayers PlayerManager.wsToPlayerId].
  rewrite mapGet_mapSet_eq. unfold mapHas. rewrite mapGet_mapSet_eq.
  rewrite (truthy_nonempty playerId Hne). cbn [andb fst snd].
  rewrite !mapDelete_mapSet by done.
  split; [done |]. split; [by destruct reg |].
  unfold updatePlayerLastSeen, touchLastSeen. rewrite Hplayers, lookup_insert_eq.
  cbn [fst players map_state score]. rewrite insert_insert_eq. done.
Qed.

Lemma addPlayer_removePlayer_witness :
  PlayerManager.getPlayerIdByWs test_registry 3 = None
  /\ PlayerManager.getPlayerById test_registry "p3" = None
  /\ "p3"%string <> ""%string
  /\ let added :=
       PlayerManager.addPlayer test_db test_registry 3 "p3" "2025-03-29T00:00:01.000Z" in
     let removed :=
       PlayerManager.removePlayer (fst (fst added)) (snd (fst added)) 3
         "2025-03-29T00:00:02.000Z" in
     snd added
     = Some (PlayerManager.MkPlayerData "p3" (PlayerManager.ofZ 320)
               (PlayerManager.ofZ 320) (getPlayerScore test_db "p3"))
     /\ PlayerManager.getPlayerIdByWs (snd (fst added)) 3 = Some "p3"%string
     /\ snd removed = Some "p3"%string
     /\ snd (fst removed) = test_registry
     /\ players (fst (fst removed))
        = <[ "p3"%string := MkPlayerRow (getPlayerScore test_db "p3")
                              "2025-03-29T00:00:02.000Z" ]> (players test_db)
     /\ map_state (fst (fst removed)) = map_state test_db.
Proof.
  assert (H2 : PlayerManager.getPlayerIdByWs test_registry 3 = None) by reflexivity.
  assert (H3 : PlayerManager.getPlayerById test_registry "p3" = None) by reflexivity.
  assert (H4 : "p3"%string <> ""%string) by discriminate.
  exact (conj H2 (conj H3 (conj H4
           (addPlayer_removePlayer test_db test_registry 3 "p3"
              "2025-03-29T00:00:01.000Z" "2025-03-29T00:00:02.000Z" H2 H3 H4)))).
Defined.

(** ** Regions around a cell *)

Lemma mod_wrap_below (M a : Z) :
  0 < M -> - M <= a < M -> a mod M = if decide (0 <= a) then a else a + M.
Proof.
  intros HM Ha. case_decide.
  - apply Z.mod_small. lia.
  - replace (a + M) with (a + 1 * M) by lia.
    rewrite <- (Z_mod_plus_full a 1 M). apply Z.mod_small. lia.
Qed.

Lemma mod_wrap_above (M a : Z) :
  0 < M -> 0 <= a < 2 * M -> a mod M = if decide (a < M) then a else a - M.
Proof.
  intros HM Ha. case_decide.
  - apply Z.mod_small. lia.
  - replace (a - M) with (a + -1 * M) by lia.
    rewrite <- (Z_mod_plus_full a (-1) M). apply Z.mod_small. lia.
Qed.

(** Along one axis, the interval [broadcastToRegion] computes around
    [c] holds the cells at distance at most [R] around the edge. *)
Lemma region_axis (M c R v : Z) :
  0 <= c < M -> 0 <= v < M -> 0 <= R -> 2 * R < M ->
  inWrappedInterval (Z.rem (c - R + M) M) (Z.rem (c + R) M) v
  <-> torusDist M v c <= R.
Proof.
  intros Hc Hv HR HM.
  rewrite !Z.rem_mod_nonneg by lia.
  replace (c - R + M) with (c - R + 1 * M) by lia. rewrite Z_mod_plus_full.
  unfold inWrappedInterval, torusDist.
  rewrite (mod_wrap_below M (c - R)), (mod_wrap_above M (c + R)),
    (mod_wrap_below M (v - c)), (mod_wrap_below M (c - v)) by lia.
  repeat case_decide; lia.
Qed.

Lemma regionBounds_spec (cx cy x y : Z) :
  inGrid (cx, cy) -> inGrid (x, y) ->
  let '(xMin, yMin, xMax, yMax) :=
    regionBounds cx cy VIEWPORT_RADIUS_X VIEWPORT_RADIUS_Y in
  (inWrappedInterval xMin xMax x /\ inWrappedInterval yMin yMax y)
  <-> inViewport cx cy x y.
Proof.
  intros [Hcx Hcy] [Hx Hy]. cbn [fst snd] in *. unfold regionBounds, inViewport.
  rewrite (region_axis MAP_WIDTH cx VIEWPORT_RADIUS_X x)
    by (unfold MAP_WIDTH, VIEWPORT_RADIUS_X in *; lia).
  rewrite (region_axis MAP_HEIGHT cy VIEWPORT_RADIUS_Y y)
    by (unfold MAP_HEIGHT, VIEWPORT_RADIUS_Y in *; lia).
  done.
Qed.

Lemma torusDist_sym (M a b : Z) : torusDist M a b = torusDist M b a.
Proof. unfold torusDist. lia. Qed.

(** X11: the region [handleConnect] and [broadcastToRegion] compute
    around a cell of the map is the viewport around that cell: a cell of
    the map is inside it exactly when it is at most 30 columns and 20
    rows away, counted around the edges of the map.  The rows
    [getCellStatesInRegion] returns for it are the stored rows of those
    cells, and being inside the viewport of each other is symmetric. *)
Theorem regionBounds_viewport (db : Db) (cx cy x y xMin yMin xMax yMax : Z)
    (r : CellRow) :
  inGrid (cx, cy) -> inGrid (x, y) ->
  regionBounds cx cy VIEWPORT_RADIUS_X VIEWPORT_RADIUS_Y = (xMin, yMin, xMax, yMax) ->
  ((x, y, r) ∈ getCellStatesInRegion db xMin yMin xMax yMax
   <-> getCellState db x y = Some r /\ inViewport cx cy x y)
  /\ (inViewport cx cy x y <-> inViewport x y cx cy).
Proof.
  intros Hc Hxy Hbounds. pose proof (regionBounds_spec cx cy x y Hc Hxy) as Hspec.
  rewrite Hbounds in Hspec. split.
  - rewrite getCellStatesInRegion_spec. tauto.
  - unfold inViewport. by rewrite (torusDist_sym _ x cx), (torusDist_sym _ y cy).
Qed.

Lemma regionBounds_viewport_witness :
  inGrid (5, 630) /\ inGrid (620, 8)
  /\ regionBounds 5 630 VIEWPORT_RADIUS_X VIEWPORT_RADIUS_Y = (615, 610, 35, 10)
  /\ ((620, 8, MkCellRow 0 None None 1)
        ∈ getCellStatesInRegion (fst (toggleFlag test_db "p1" 620 8)) 615 610 35 10
      <-> getCellState (fst (toggleFlag test_db "p1" 620 8)) 620 8
          = Some (MkCellRow 0 None None 1)
          /\ inViewport 5 630 620 8)
  /\ (inViewport 5 630 620 8 <-> inViewport 620 8 5 630).
Proof.
  assert (H1 : inGrid (5, 630)) by (repeat split; (discriminate || reflexivity)).
  assert (H2 : inGrid (620, 8)) by (repeat split; (discriminate || reflexivity)).
  assert (H3 : regionBounds 5 630 VIEWPORT_RADIUS_X VIEWPORT_RADIUS_Y
               = (615, 610, 35, 10)) by reflexivity.
  exact (conj H1 (conj H2 (conj H3
           (regionBounds_viewport (fst (toggleFlag test_db "p1" 620 8))
              5 630 620 8 615 610 35 10 (MkCellRow 0 None None 1) H1 H2 H3)))).
Defined.

(** ** Who is in a region *)

Lemma inRegionAxis_ofZ (lo hi v : Z) :
  PlayerManager.inRegionAxis
    (PlayerManager.js_gt (PlayerManager.ofZ lo) (PlayerManager.ofZ hi))
    (PlayerManager.ofZ lo) (PlayerManager.ofZ hi) (PlayerManager.ofZ v) = true
  <-> inWrappedInterval lo hi v.
Proof.
  unfold PlayerManager.inRegionAxis, PlayerManager.js_gt, PlayerManager.js_ge,
    inWrappedInterval.
  cbn [PlayerManager.ofZ].
  destruct (PlayerManager.js_le (PlayerManager.ofZ lo) (PlayerManager.ofZ hi)) eqn:Hle.
  - apply js_le_ofZ in Hle. rewrite decide_True by done. cbn [negb].
    rewrite andb_true_iff, !js_le_ofZ. done.
  - assert (Hgt : ~ lo <= hi) by (rewrite <- js_le_ofZ; congruence).
    rewrite decide_False by done. cbn [negb].
    rewrite orb_true_iff, !js_le_ofZ. done.
Qed.

(** The loop of [getPlayersInRegion] keeps the entries of
    [activePlayers] that pass its tests, in the order of the map. *)
Lemma getPlayersInRegion_filter (reg : PlayerManager.Registry)
    (xMin yMin xMax yMax : JsNumber) (exclude : option string) :
  PlayerManager.getPlayersInRegion reg xMin yMin xMax yMax exclude
  = map entryPos
      (List.filter (keptEntry xMin yMin xMax yMax exclude)
                   (PlayerManager.activePlayers reg)).
Proof.
  unfold PlayerManager.getPlayersInRegion. cbv zeta.
  set (f := fun (nearbyPlayers : list PlayerManager.PlayerPos)
                (entry : string * PlayerManager.Player) => _).
  assert (Hgen : forall l acc,
    fold_left f l acc
    = acc ++ map entryPos (List.filter (keptEntry xMin yMin xMax yMax exclude) l)).
  { induction l as [| [id player] l IH]; intros acc; cbn [fold_left List.filter].
    - by rewrite app_nil_r.
    - rewrite IH. unfold f, keptEntry. cbn [fst snd].
      case_bool_decide; cbn [negb andb]; [done |].
      destruct (PlayerManager.inRegionAxis _ xMin xMax (PlayerManager.pl_x player));
        cbn [negb andb]; [| done].
      destruct (PlayerManager.inRegionAxis _ yMin yMax (PlayerManager.pl_y player));
        [| done].
      cbn [map]. by rewrite <- app_assoc. }
  by rewrite Hgen.
Qed.

Lemma keptEntry_true (xMin yMin xMax yMax : JsNumber) (exclude : option string)
    (entry : string * PlayerManager.Player) :
  keptEntry xMin yMin xMax yMax exclude entry = true
  <-> Some (fst entry) <> exclude
      /\ PlayerManager.inRegionAxis (PlayerManager.js_gt xMin xMax) xMin xMax
           (PlayerManager.pl_x (snd entry)) = true
      /\ PlayerManager.inRegionAxis (PlayerManager.js_gt yMin yMax) yMin yMax
           (PlayerManager.pl_y (snd entry)) = true.
Proof.
  unfold keptEntry. rewrite !andb_true_iff, negb_true_iff, bool_decide_eq_false. tauto.
Qed.

Lemma consistent_entry (reg : PlayerManager.Registry) (entry : string * PlayerManager.Player) :
  registryConsistent reg ->
  entry ∈ PlayerManager.activePlayers reg ->
  PlayerManager.getPlayerById reg (PlayerManager.pl_id (snd entry)) = Some (snd entry)
  /\ PlayerManager.pl_id (snd entry) = fst entry.
Proof.
  intros Hreg Hin. destruct entry as [id player]. cbn [fst snd].
  apply (mapGet_elem_of _ _ _ (rc_players_nodup reg Hreg)) in Hin.
  destruct (rc_player reg Hreg id player Hin) as (Hid & _ & _).
  unfold PlayerManager.getPlayerById. by rewrite Hid.
Qed.

(** In a consistent registry [broadcastToRegion] sends to the sockets of
    the entries its query keeps, those that are open, in the order of
    the map. *)
Lemma broadcastToRegion_list (isOpen : nat -> bool) (reg : PlayerManager.Registry)
    (cx cy rx ry xMin yMin xMax yMax : Z) (msg : Outbound) (exclude : option string) :
  registryConsistent reg ->
  regionBounds cx cy rx ry = (xMin, yMin, xMax, yMax) ->
  broadcastToRegion isOpen reg cx cy rx ry msg exclude
  = map (fun entry => (PlayerManager.pl_ws (snd entry), msg))
      (List.filter (fun entry => isOpen (PlayerManager.pl_ws (snd entry)))
         (List.filter
            (keptEntry (PlayerManager.ofZ xMin) (PlayerManager.ofZ yMin)
                       (PlayerManager.ofZ xMax) (PlayerManager.ofZ yMax) exclude)
            (PlayerManager.activePlayers reg))).
Proof.
  intros Hreg Hbounds. unfold broadcastToRegion. rewrite Hbounds.
  rewrite getPlayersInRegion_filter.
  set (kept := List.filter _ (PlayerManager.activePlayers reg)).
  assert (Hkept : forall entry, entry ∈ kept -> entry ∈ PlayerManager.activePlayers reg).
  { intros entry Hin. apply list_elem_of_In, filter_In in Hin as [Hin _].
    by apply list_elem_of_In. }
  induction kept as [| entry kept IH]; [done |].
  cbn [map flat_map List.filter].
  destruct (consistent_entry reg entry Hreg) as [Hget _];
    [apply Hkept, list_elem_of_here |].
  cbn [entryPos PlayerManager.pp_id]. rewrite Hget.
  rewrite IH by (intros e He; apply Hkept; by apply list_elem_of_further).
  by destruct (isOpen (PlayerManager.pl_ws (snd entry))).
Qed.

Lemma registry_entries_NoDup (reg : PlayerManager.Registry) :
  registryConsistent reg -> NoDup (PlayerManager.activePlayers reg).
Proof. intros Hreg. eapply NoDup_fmap_1. apply (rc_players_nodup reg Hreg). Qed.

Lemma registry_socket_inj (reg : PlayerManager.Registry)
    (e1 e2 : string * PlayerManager.Player) :
  registryConsistent reg ->
  e1 ∈ PlayerManager.activePlayers reg -> e2 ∈ PlayerManager.activePlayers reg ->
  PlayerManager.pl_ws (snd e1) = PlayerManager.pl_ws (snd e2) -> e1 = e2.
Proof.
  intros Hreg H1 H2 Hws. destruct e1 as [id1 p1], e2 as [id2 p2]. cbn [snd] in Hws.
  apply (mapGet_elem_of _ _ _ (rc_players_nodup reg Hreg)) in H1, H2.
  destruct (rc_player reg Hreg id1 p1 H1) as (_ & _ & Hs1).
  destruct (rc_player reg Hreg id2 p2 H2) as (_ & _ & Hs2).
  rewrite Hws in Hs1. assert (id1 = id2) by congruence. subst id2. congruence.
Qed.

(** An entry passes the two coordinate tests of the viewport region
    around a cell of the map exactly when its cursor is near that
    cell. *)
Lemma entry_near (reg : PlayerManager.Registry) (cx cy xMin yMin xMax yMax : Z)
    (entry : string * PlayerManager.Player) :
  registryConsistent reg -> registryOnGrid reg -> inGrid (cx, cy) ->
  regionBounds cx cy VIEWPORT_RADIUS_X VIEWPORT_RADIUS_Y = (xMin, yMin, xMax, yMax) ->
  entry ∈ PlayerManager.activePlayers reg ->
  (PlayerManager.inRegionAxis
     (PlayerManager.js_gt (PlayerManager.ofZ xMin) (PlayerManager.ofZ xMax))
     (PlayerManager.ofZ xMin) (PlayerManager.ofZ xMax)
     (PlayerManager.pl_x (snd entry)) = true
   /\ PlayerManager.inRegionAxis
        (PlayerManager.js_gt (PlayerManager.ofZ yMin) (PlayerManager.ofZ yMax))
        (PlayerManager.ofZ yMin) (PlayerManager.ofZ yMax)
        (PlayerManager.pl_y (snd entry)) = true)
  <-> playerNear cx cy (snd entry).
Proof.
  intros Hreg Hgrid Hc Hbounds Hin.
  destruct (consistent_entry reg entry Hreg Hin) as [Hget _].
  destruct (Hgrid _ _ Hget) as (x & y & Hxy & Hx & Hy).
  pose proof (regionBounds_spec cx cy x y Hc Hxy) as Hspec.
  rewrite Hbounds in Hspec. rewrite Hx, Hy, !inRegionAxis_ofZ, Hspec.
  unfold playerNear, playerAt. split.
  - intros Hview. exists x, y. done.
  - intros (x' & y' & _ & [Hx' Hy'] & Hview).
    rewrite Hx in Hx'. rewrite Hy in Hy'.
    injection Hx' as <-. injection Hy' as <-. done.
Qed.

(** The entries the query of the viewport region keeps. *)
Lemma kept_near (reg : PlayerManager.Registry) (cx cy xMin yMin xMax yMax : Z)
    (exclude : option string) (entry : string * PlayerManager.Player) :
  registryConsistent reg -> registryOnGrid reg -> inGrid (cx, cy) ->
  regionBounds cx cy VIEWPORT_RADIUS_X VIEWPORT_RADIUS_Y = (xMin, yMin, xMax, yMax) ->
  entry ∈ List.filter
            (keptEntry (PlayerManager.ofZ xMin) (PlayerManager.ofZ yMin)
                       (PlayerManager.ofZ xMax) (PlayerManager.ofZ yMax) exclude)
            (PlayerManager.activePlayers reg)
  <-> PlayerManager.getPlayerById reg (fst entry) = Some (snd entry)
      /\ Some (fst entry) <> exclude
      /\ playerNear cx cy (snd entry).
Proof.
  intros Hreg Hgrid Hc Hbounds.
  rewrite list_elem_of_In, filter_In, <- list_elem_of_In, keptEntry_true.
  unfold PlayerManager.getPlayerById.
  rewrite (mapGet_elem_of _ _ _ (rc_players_nodup reg Hreg)).
  destruct entry as [id player]. cbn [fst snd]. split.
  - intros (Hin & Hex & Hx & Hy). split; [done |]. split; [done |].
    by apply (entry_near reg cx cy xMin yMin xMax yMax (id, player)).
  - intros (Hin & Hex & Hnr). split; [done |]. split; [done |].
    by apply (entry_near reg cx cy xMin yMin xMax yMax (id, player)).
Qed.

(** Who a broadcast with the viewport radii reaches. *)
Lemma broadcastToRegion_spec (isOpen : nat -> bool)
    (reg : PlayerManager.Registry) (cx cy : Z) (msg : Outbound)
    (exclude : option string) :
  registryConsistent reg -> registryOnGrid reg -> inGrid (cx, cy) ->
  (forall ws m,
     (ws, m) ∈ broadcastToRegion isOpen reg cx cy VIEWPORT_RADIUS_X VIEWPORT_RADIUS_Y
                 msg exclude
     <-> m = msg /\ isOpen ws = true
         /\ exists id player,
              PlayerManager.getPlayerById reg id = Some player
              /\ PlayerManager.pl_ws player = ws
              /\ Some id <> exclude
              /\ playerNear cx cy player)
  /\ NoDup (map fst (broadcastToRegion isOpen reg cx cy VIEWPORT_RADIUS_X
                       VIEWPORT_RADIUS_Y msg exclude)).
Proof.
  intros Hreg Hgrid Hc.
  destruct (regionBounds cx cy VIEWPORT_RADIUS_X VIEWPORT_RADIUS_Y)
    as [[[xMin yMin] xMax] yMax] eqn:Hbounds.
  rewrite (broadcastToRegion_list isOpen reg cx cy _ _ xMin yMin xMax yMax msg exclude
             Hreg Hbounds).
  split.
  - intros ws m. rewrite list_elem_of_fmap. split.
    + intros (entry & [= -> ->] & Hin).
      apply list_elem_of_In, filter_In in Hin as [Hin Hopen].
      apply list_elem_of_In,
        (kept_near reg cx cy xMin yMin xMax yMax exclude entry Hreg Hgrid Hc Hbounds)
        in Hin as (Hget & Hex & Hnr).
      split; [done |]. split; [done |]. exists (fst entry), (snd entry). done.
    + intros (-> & Hopen & id & player & Hget & <- & Hex & Hnr).
      exists (id, player). split; [done |].
      apply list_elem_of_In, filter_In. split; [| done].
      apply list_elem_of_In.
      by apply (kept_near reg cx cy xMin yMin xMax yMax exclude (id, player)).
  - rewrite map_map. cbn [fst].
    apply NoDup_fmap_2_strong.
    + intros e1 e2 H1 H2. apply (registry_socket_inj reg e1 e2 Hreg).
      * apply list_elem_of_In, filter_In in H1 as [H1 _].
        apply filter_In in H1 as [H1 _]. by apply list_elem_of_In.
      * apply list_elem_of_In, filter_In in H2 as [H2 _].
        apply filter_In in H2 as [H2 _]. by apply list_elem_of_In.
    + apply NoDup_ListNoDup, List.NoDup_filter, List.NoDup_filter, NoDup_ListNoDup.
      by apply registry_entries_NoDup.
Qed.

Lemma test_registry_onGrid : registryOnGrid test_registry.
Proof.
  intros id player Hget. unfold PlayerManager.getPlayerById, test_registry in Hget.
  cbn [mapGet PlayerManager.activePlayers] in Hget.
  repeat case_decide; simplify_eq.
  - exists 320, 320. repeat split; (discriminate || reflexivity).
  - exists 5, 630. repeat split; (discriminate || reflexivity).
Qed.

(** X12: in a consistent registry whose players have their cursors on
    cells of the map, [broadcastToRegion] around a cell of the map with
    the viewport radii sends the message, unchanged, to exactly the open
    sockets of the active players, other than the excluded one, whose
    cursor is at most 30 columns and 20 rows from the centre, counted
    around the edges; and no socket gets it twice. *)
Theorem broadcastToRegion_recipients (isOpen : nat -> bool)
    (reg : PlayerManager.Registry) (cx cy : Z) (msg : Outbound)
    (exclude : option string) :
  registryConsistent reg -> registryOnGrid reg -> inGrid (cx, cy) ->
  (forall ws m,
     (ws, m) ∈ broadcastToRegion isOpen reg cx cy VIEWPORT_RADIUS_X VIEWPORT_RADIUS_Y
                 msg exclude
     <-> m = msg /\ isOpen ws = true
         /\ exists id player,
              PlayerManager.getPlayerById reg id = Some player
              /\ PlayerManager.pl_ws player = ws
              /\ Some id <> exclude
              /\ playerNear cx cy player)
  /\ NoDup (map fst (broadcastToRegion isOpen reg cx cy VIEWPORT_RADIUS_X
                       VIEWPORT_RADIUS_Y msg exclude)).
Proof. apply broadcastToRegion_spec. Qed.

Lemma broadcastToRegion_recipients_witness :
  registryConsistent test_registry /\ registryOnGrid test_registry
  /\ inGrid (620, 8)
  /\ (forall ws m,
        (ws, m) ∈ broadcastToRegion (fun _ => true) test_registry 620 8
                    VIEWPORT_RADIUS_X VIEWPORT_RADIUS_Y (MapUpdate []) None
        <-> m = MapUpdate [] /\ (fun _ : nat => true) ws = true
            /\ exists id player,
                 PlayerManager.getPlayerById test_registry id = Some player
                 /\ PlayerManager.pl_ws player = ws
                 /\ Some id <> None
                 /\ playerNear 620 8 player)
  /\ NoDup (map fst (broadcastToRegion (fun _ => true) test_registry 620 8
                       VIEWPORT_RADIUS_X VIEWPORT_RADIUS_Y (MapUpdate []) None)).
Proof.
  pose proof test_registry_consistent as H1.
  pose proof test_registry_onGrid as H2.
  assert (H3 : inGrid (620, 8)) by (repeat split; (discriminate || reflexivity)).
  exact (conj H1 (conj H2 (conj H3
           (broadcastToRegion_recipients (fun _ => true) test_registry 620 8
              (MapUpdate []) None H1 H2 H3)))).
Defined.

(** ** A click, from the dispatcher's side *)

Lemma revealCell_getPlayerScore (MAP_SEED : string) (db : Db) (p : string) (x y : Z)
    (row : PlayerRow) :
  players db !! p = Some row ->
  getPlayerScore (fst (revealCell MAP_SEED db p x y)) p
  = score row + resultDelta (snd (revealCell MAP_SEED db p x y)).
Proof.
  intros Hrow.
  destruct (revealCell_spec MAP_SEED db p x y)
    as [Hrf | Hrf Hmine | fs popped Hrf Hmine Hrun Hinv Hcells
        | fs popped Hrf Hmine Hrun Hinv Hcells];
    unfold getPlayerScore, updatePlayerScore, upsertRevealedCellState;
    cbn [resultDelta players];
    rewrite ?lookup_alter_eq, ?upsertAll_players, Hrow; cbn; lia.
Qed.

Lemma updatePlayerScore_get (reg : PlayerManager.Registry) (playerId : string)
    (player : PlayerManager.Player) (newScore : Z) :
  PlayerManager.getPlayerById reg playerId = Some player ->
  PlayerManager.getPlayerById
    (PlayerManager.updatePlayerScore reg playerId newScore) playerId
  = Some (PlayerManager.MkPlayer (PlayerManager.pl_ws player)
            (PlayerManager.pl_id player) (PlayerManager.pl_x player)
            (PlayerManager.pl_y player) newScore).
Proof.
  unfold PlayerManager.getPlayerById, PlayerManager.updatePlayerScore.
  intros ->. cbn. apply mapGet_mapSet_eq.
Qed.

(** X13: the [clickCell] case, for an active player whose cached score
    equals the stored one.  The database is the one [revealCell] leaves;
    the cached score moves by the score change of the result and equals
    the stored score again.  But the score written into the reply,
    [scoreUpdate] or [playerPenalty], is read from the player object
    after [updatePlayerScore] has already changed it: it is the old
    score plus twice the score change.  The reply is followed by the
    broadcast of the returned cells around the clicked cell; an ignored
    click changes the registry not at all and sends nothing. *)
Theorem handleClickCell_reply (isOpen : nat -> bool) (MAP_SEED : string) (db : Db)
    (reg : PlayerManager.Registry) (ws : nat) (playerId : string)
    (player : PlayerManager.Player) (row : PlayerRow) (x y : Z) :
  PlayerManager.getPlayerById reg playerId = Some player ->
  players db !! playerId = Some row ->
  score row = PlayerManager.pl_score player ->
  let r := revealCell MAP_SEED db playerId x y in
  let h := handleClickCell isOpen MAP_SEED db reg ws playerId player x y in
  fst (fst h) = fst r
  /\ (snd r = Ignored -> snd (fst h) = reg)
  /\ (exists held,
        PlayerManager.getPlayerById (snd (fst h)) playerId = Some held
        /\ PlayerManager.pl_score held
           = PlayerManager.pl_score player + resultDelta (snd r)
        /\ getPlayerScore (fst r) playerId = PlayerManager.pl_score held)
  /\ snd h
     = replyThenBroadcast ws (clickReply (PlayerManager.pl_score player) (snd r))
         (broadcastToRegion isOpen (snd (fst h)) x y VIEWPORT_RADIUS_X
            VIEWPORT_RADIUS_Y (MapUpdate (resultCells (snd r))) None).
Proof.
  intros Hget Hrow Hscore. cbv zeta.
  pose proof (revealCell_getPlayerScore MAP_SEED db playerId x y row Hrow) as Hstored.
  unfold handleClickCell.
  destruct (revealCell MAP_SEED db playerId x y) as [db' [| delta stun cells | delta cells]];
    cbn [fst snd resultDelta clickReply replyThenBroadcast resultCells] in *.
  - split; [done |]. split; [done |]. split; [| done].
    exists player. split; [done |]. split; lia.
  - pose proof (updatePlayerScore_get reg playerId player
                  (PlayerManager.pl_score player + delta) Hget) as Hheld.
    split; [done |]. split; [done |]. split.
    + eexists. split; [exact Hheld |]. cbn. split; lia.
    + unfold playerObject. rewrite Hheld. cbn [PlayerManager.pl_score].
      do 3 f_equal. lia.
  - pose proof (updatePlayerScore_get reg playerId player
                  (PlayerManager.pl_score player + delta) Hget) as Hheld.
    split; [done |]. split; [done |]. split.
    + eexists. split; [exact Hheld |]. cbn. split; lia.
    + unfold playerObject. rewrite Hheld. cbn [PlayerManager.pl_score].
      do 3 f_equal. lia.
Qed.

Lemma handleClickCell_reply_witness :
  PlayerManager.getPlayerById test_registry "p1"
  = Some (PlayerManager.MkPlayer 1 "p1" (PlayerManager.ofZ 320) (PlayerManager.ofZ 320) 0)
  /\ players test_db !! "p1"%string = Some (MkPlayerRow 0 "2025-03-29T00:00:00.000Z")
  /\ score (MkPlayerRow 0 "2025-03-29T00:00:00.000Z") = 0
  /\ clickReply 0 (snd (revealCell test_seed test_db "p1" 11 20))
     = Some (ScoreUpdate 24)
  /\ getPlayerScore (fst (revealCell test_seed test_db "p1" 11 20)) "p1" = 12
  /\ snd (handleClickCell (fun _ => true) test_seed test_db test_registry 1 "p1"
            (PlayerManager.MkPlayer 1 "p1" (PlayerManager.ofZ 320)
               (PlayerManager.ofZ 320) 0) 11 20)
     = replyThenBroadcast 1 (clickReply 0 (snd (revealCell test_seed test_db "p1" 11 20)))
         (broadcastToRegion (fun _ => true)
            (snd (fst (handleClickCell (fun _ => true) test_seed test_db test_registry
                         1 "p1"
                         (PlayerManager.MkPlayer 1 "p1" (PlayerManager.ofZ 320)
                            (PlayerManager.ofZ 320) 0) 11 20)))
            11 20 VIEWPORT_RADIUS_X VIEWPORT_RADIUS_Y
            (MapUpdate (resultCells (snd (revealCell test_seed test_db "p1" 11 20))))
            None).
Proof.
  assert (H1 : PlayerManager.getPlayerById test_registry "p1"
               = Some (PlayerManager.MkPlayer 1 "p1" (PlayerManager.ofZ 320)
                         (PlayerManager.ofZ 320) 0)) by reflexivity.
  assert (H2 : players test_db !! "p1"%string
               = Some (MkPlayerRow 0 "2025-03-29T00:00:00.000Z"))
    by (vm_compute; reflexivity).
  assert (H3 : score (MkPlayerRow 0 "2025-03-29T00:00:00.000Z") = 0) by reflexivity.
  assert (H4 : clickReply 0 (snd (revealCell test_seed test_db "p1" 11 20))
               = Some (ScoreUpdate 24)) by (vm_compute; reflexivity).
  assert (H5 : getPlayerScore (fst (revealCell test_seed test_db "p1" 11 20)) "p1" = 12)
    by (vm_compute; reflexivity).
  pose proof (handleClickCell_reply (fun _ => true) test_seed test_db test_registry 1
                "p1" _ _ 11 20 H1 H2 H3) as (_ & _ & _ & Hsent).
  exact (conj H1 (conj H2 (conj H3 (conj H4 (conj H5 Hsent))))).
Defined.

(** ** A connect, from the dispatcher's side *)

Lemma addPlayer_onGrid (db : Db) (reg : PlayerManager.Registry) (ws : nat)
    (playerId now : string) :
  registryOnGrid reg -> registryOnGrid (afterAdd db reg ws playerId now).
Proof.
  intros Hgrid id player.
  destruct (addPlayer_registry db reg ws playerId now) as (-> & _ & _).
  unfold PlayerManager.getPlayerById. cbn [PlayerManager.activePlayers].
  destruct (decide (playerId = id)) as [<- | Hne].
  - rewrite mapGet_mapSet_eq. intros [= <-]. exists 320, 320.
    split; [repeat split; (discriminate || reflexivity) | done].
  - rewrite mapGet_mapSet_ne by done. apply Hgrid.
Qed.

Lemma addPlayer_others (db : Db) (reg : PlayerManager.Registry) (ws : nat)
    (playerId now id : string) :
  Some id <> Some playerId ->
  PlayerManager.getPlayerById (afterAdd db reg ws playerId now) id
  = PlayerManager.getPlayerById reg id.
Proof.
  intros Hne. destruct (addPlayer_registry db reg ws playerId now) as (-> & _ & _).
  unfold PlayerManager.getPlayerById. cbn [PlayerManager.activePlayers].
  apply mapGet_mapSet_ne. congruence.
Qed.

(** X14: a connect on a socket and with a non-empty id not yet in use,
    into a consistent registry whose players are on cells of the map.
    The player is added at the centre [(320, 320)] and its [players] row
    is found or created.  The new socket is sent one message, first of
    all: [initialState] with the id, the stored score (0 for a new id),
    the stored rows of the cells at most 30 columns and 20 rows from the
    centre, each projected to a client cell, the players near the
    centre, and the start position.  Then [playerJoined] goes to the
    open sockets of exactly those players, and not to the new socket. *)
Theorem handleConnect_sends (isOpen : nat -> bool) (db : Db)
    (reg : PlayerManager.Registry) (ws : nat) (playerId now : string) :
  registryConsistent reg -> registryOnGrid reg ->
  PlayerManager.getPlayerIdByWs reg ws = None ->
  PlayerManager.getPlayerById reg playerId = None ->
  playerId <> ""%string ->
  exists rows others joined,
    handleConnect isOpen db reg ws playerId now
    = (fst (findOrCreatePlayer db playerId now), afterAdd db reg ws playerId now,
       Connected
         ((ws, InitialState playerId (getPlayerScore db playerId)
                 (map projectCell rows) others
                 (PlayerManager.ofZ 320) (PlayerManager.ofZ 320))
          :: joined))
    /\ (forall x y r,
          inGrid (x, y) ->
          ((x, y, r) ∈ rows
           <-> getCellState db x y = Some r /\ inViewport 320 320 x y))
    /\ (forall p,
          p ∈ others
          <-> exists id player,
                PlayerManager.getPlayerById reg id = Some player
                /\ playerNear 320 320 player
                /\ p = PlayerManager.MkPlayerPos id (PlayerManager.pl_x player)
                         (PlayerManager.pl_y player))
    /\ (forall ws' m,
          (ws', m) ∈ joined
          <-> m = PlayerJoined playerId (PlayerManager.ofZ 320) (PlayerManager.ofZ 320)
              /\ isOpen ws' = true
              /\ exists id player,
                   PlayerManager.getPlayerById reg id = Some player
                   /\ PlayerManager.pl_ws player = ws'
                   /\ playerNear 320 320 player)
    /\ ws ∉ map fst joined.
Proof.
  intros Hreg Hgrid Hws Hid Hne.
  pose proof (addPlayer_consistent db reg ws playerId now Hreg Hws Hid Hne) as Hreg1.
  pose proof (addPlayer_onGrid db reg ws playerId now Hgrid) as Hgrid1.
  pose proof (addPlayer_others db reg ws playerId now) as Hothers.
  destruct (addPlayer_registry db reg ws playerId now) as (Hafter & Hdata & Hdb).
  destruct (findOrCreatePlayer_spec db playerId now) as (_ & _ & Hmap).
  assert (Hc : inGrid (320, 320)) by (repeat split; (discriminate || reflexivity)).
  assert (Hbounds : regionBounds 320 320 VIEWPORT_RADIUS_X VIEWPORT_RADIUS_Y
                    = (290, 300, 350, 340)) by reflexivity.
  unfold handleConnect. unfold afterAdd in *.
  rewrite <- Hdb in *.
  destruct (PlayerManager.addPlayer db reg ws playerId now) as [[db1 reg1] data].
  cbn [fst snd] in *. subst data.
  change PlayerManager.START_X with 320. change PlayerManager.START_Y with 320.
  rewrite Hbounds. cbn [PlayerManager.pd_id PlayerManager.pd_x PlayerManager.pd_y
                        PlayerManager.pd_score].
  pose proof (broadcastToRegion_spec isOpen reg1 320 320
                (PlayerJoined playerId (PlayerManager.ofZ 320) (PlayerManager.ofZ 320))
                (Some playerId) Hreg1 Hgrid1 Hc) as [Hjoined _].
  eexists _, _, _. split; [reflexivity |].
  split; [| split; [| split]].
  - intros x y r Hxy. rewrite getCellStatesInRegion_spec.
    pose proof (regionBounds_spec 320 320 x y Hc Hxy) as Hspec.
    rewrite Hbounds in Hspec. unfold getCellState. rewrite Hmap. tauto.
  - intros p. rewrite getPlayersInRegion_filter, list_elem_of_fmap. split.
    + intros (entry & -> & Hin).
      pose proof Hin as Hin'. apply list_elem_of_In, filter_In in Hin' as [Hin' _].
      apply list_elem_of_In in Hin'.
      destruct (consistent_entry reg1 entry Hreg1 Hin') as [_ Hpid].
      apply (kept_near reg1 320 320 290 300 350 340 (Some playerId) entry
               Hreg1 Hgrid1 Hc Hbounds) in Hin as (Hget & Hex & Hnr).
      rewrite Hothers in Hget by done.
      exists (fst entry), (snd entry). unfold entryPos. by rewrite Hpid.
    + intros (id & player & Hget & Hnr & ->).
      assert (Hex : Some id <> Some playerId) by congruence.
      exists (id, player).
      assert (Hin : (id, player)
                ∈ List.filter
                    (keptEntry (PlayerManager.ofZ 290) (PlayerManager.ofZ 300)
                       (PlayerManager.ofZ 350) (PlayerManager.ofZ 340) (Some playerId))
                    (PlayerManager.activePlayers reg1)).
      { apply (kept_near reg1 320 320 290 300 350 340 (Some playerId) (id, player)
                 Hreg1 Hgrid1 Hc Hbounds).
        cbn [fst snd]. by rewrite Hothers. }
      split; [| done].
      apply list_elem_of_In, filter_In in Hin as [Hin _]. apply list_elem_of_In in Hin.
      destruct (consistent_entry reg1 (id, player) Hreg1 Hin) as [_ Hpid].
      unfold entryPos. cbn [fst snd] in *. by rewrite Hpid.
  - intros ws' m. rewrite Hjoined. split.
    + intros (-> & Hopen & id & player & Hget & Hpws & Hex & Hnr).
      rewrite Hothers in Hget by done. eauto 10.
    + intros (-> & Hopen & id & player & Hget & Hpws & Hnr).
      assert (Hex : Some id <> Some playerId) by congruence.
      split; [done |]. split; [done |]. exists id, player.
      by rewrite Hothers.
  - intros Hin. apply list_elem_of_fmap in Hin as ([ws' m] & Hfst & Hin).
    cbn [fst] in Hfst. subst ws'.
    apply Hjoined in Hin as (_ & _ & id & player & Hget & Hpws & Hex & _).
    rewrite Hothers in Hget by done.
    destruct (rc_player reg Hreg id player Hget) as (_ & _ & Hsock).
    unfold PlayerManager.getPlayerIdByWs in Hws. congruence.
Qed.

Lemma handleConnect_sends_witness :
  registryConsistent test_registry /\ registryOnGrid test_registry
  /\ PlayerManager.getPlayerIdByWs test_registry 3 = None
  /\ PlayerManager.getPlayerById test_registry "p3" = None
  /\ "p3"%string <> ""%string
  /\ exists rows others joined,
       handleConnect (fun _ => true) test_db_flag test_registry 3 "p3"
         "2025-03-29T00:00:01.000Z"
       = (fst (findOrCreatePlayer test_db_flag "p3" "2025-03-29T00:00:01.000Z"),
          afterAdd test_db_flag test_registry 3 "p3" "2025-03-29T00:00:01.000Z",
          Connected
            ((3%nat, InitialState "p3" (getPlayerScore test_db_flag "p3")
                       (map projectCell rows) others
                       (PlayerManager.ofZ 320) (PlayerManager.ofZ 320))
             :: joined))
       /\ (forall x y r,
             inGrid (x, y) ->
             ((x, y, r) ∈ rows
              <-> getCellState test_db_flag x y = Some r /\ inViewport 320 320 x y))
       /\ (forall p,
             p ∈ others
             <-> exists id player,
                   PlayerManager.getPlayerById test_registry id = Some player
                   /\ playerNear 320 320 player
                   /\ p = PlayerManager.MkPlayerPos id (PlayerManager.pl_x player)
                            (PlayerManager.pl_y player))
       /\ (forall ws' m,
             (ws', m) ∈ joined
             <-> m = PlayerJoined "p3" (PlayerManager.ofZ 320) (PlayerManager.ofZ 320)
                 /\ (fun _ : nat => true) ws' = true
                 /\ exists id player,
                      PlayerManager.getPlayerById test_registry id = Some player
                      /\ PlayerManager.pl_ws player = ws'
                      /\ playerNear 320 320 player)
       /\ 3%nat ∉ map fst joined.
Proof.
  pose proof test_registry_consistent as H1.
  pose proof test_registry_onGrid as H2.
  assert (H3 : PlayerManager.getPlayerIdByWs test_registry 3 = None) by reflexivity.
  assert (H4 : PlayerManager.getPlayerById test_registry "p3" = None) by reflexivity.
  assert (H5 : "p3"%string <> ""%string) by discriminate.
  exact (conj H1 (conj H2 (conj H3 (conj H4 (conj H5
           (handleConnect_sends (fun _ => true) test_db_flag test_registry 3 "p3"
              "2025-03-29T00:00:01.000Z" H1 H2 H3 H4 H5)))))).
Defined.

(** ** What a client holds *)

Lemma storeCells_lookup_out (cells : list ClientCell)
    (mapData : gmap (Z * Z) CellView) (c : Z * Z) :
  c ∉ map cell_key cells -> storeCells mapData cells !! c = mapData !! c.
Proof.
  unfold storeCells. revert mapData.
  induction cells as [| cell cells IH]; intros mapData Hc; [done |].
  cbn [fold_left]. cbn [map] in Hc. apply not_elem_of_cons in Hc as [Hne Hc].
  rewrite IH by done. apply lookup_insert_ne. unfold cell_key in Hne. congruence.
Qed.

Lemma storeCells_lookup_in (cells : list ClientCell)
    (mapData : gmap (Z * Z) CellView) (cell : ClientCell) :
  NoDup (map cell_key cells) -> cell ∈ cells ->
  storeCells mapData cells !! cell_key cell = Some (cellView cell).
Proof.
  revert mapData. induction cells as [| c cells IH]; intros mapData Hnd Hin.
  - by apply elem_of_nil in Hin.
  - cbn [map] in Hnd. apply NoDup_cons in Hnd as [Hfresh Hnd].
    change (storeCells mapData (c :: cells))
      with (storeCells (<[ (cell_x c, cell_y c) :=
                             MkCellView (cell_state c) (cell_value c) ]> mapData) cells).
    apply elem_of_cons in Hin as [-> | Hin].
    + rewrite storeCells_lookup_out by done. apply lookup_insert_eq.
    + by apply IH.
Qed.

Lemma resultCells_NoDup (MAP_SEED : string) (db : Db) (p : string) (x y : Z) :
  NoDup (map cell_key (resultCells (snd (revealCell MAP_SEED db p x y)))).
Proof.
  destruct (revealCell_spec MAP_SEED db p x y)
    as [Hrf | Hrf Hmine | fs popped Hrf Hmine Hrun Hinv Hcells
        | fs popped Hrf Hmine Hrun Hinv Hcells]; cbn [resultCells map];
    try apply NoDup_nil_2.
  - apply NoDup_singleton.
  - rewrite clientCells_keys. by eapply FloodInv_cells_NoDup.
Qed.

Lemma filter_keys_NoDup {A B : Type} (f : A * B -> bool) (l : list (A * B)) :
  NoDup (map fst l) -> NoDup (map fst (List.filter f l)).
Proof.
  induction l as [| e l IH]; cbn; [done |]. intros Hnd.
  apply NoDup_cons in Hnd as [Hfresh Hnd]. destruct (f e); cbn; [| by apply IH].
  apply NoDup_cons. split; [| by apply IH]. intros Hin. apply Hfresh.
  apply list_elem_of_fmap in Hin as (e' & -> & Hin).
  apply list_elem_of_fmap. exists e'. split; [done |].
  apply list_elem_of_In, filter_In in Hin as [Hin _]. by apply list_elem_of_In.
Qed.

Lemma projectCell_key (row : Z * Z * CellRow) : cell_key (projectCell row) = fst row.
Proof. by destruct row as [[x y] r]. Qed.

Lemma regionCells_NoDup (db : Db) (xMin yMin xMax yMax : Z) :
  NoDup (map cell_key (map projectCell (getCellStatesInRegion db xMin yMin xMax yMax))).
Proof.
  rewrite map_map. erewrite map_ext; [| intros row; apply projectCell_key].
  unfold getCellStatesInRegion. apply filter_keys_NoDup.
  apply NoDup_fst_map_to_list.
Qed.

(** The projection [handleConnect] applies to the row stored for a
    returned cell gives that cell back. *)
Lemma projectCell_stored (MAP_SEED : string) (db : Db) (p : string) (x y : Z)
    (cell : ClientCell) :
  cell ∈ resultCells (snd (revealCell MAP_SEED db p x y)) ->
  projectCell (cell_x cell, cell_y cell, storedRow cell) = cell.
Proof.
  destruct (revealCell_spec MAP_SEED db p x y)
    as [Hrf | Hrf Hmine | fs popped Hrf Hmine Hrun Hinv Hcells
        | fs popped Hrf Hmine Hrun Hinv Hcells]; cbn [resultCells]; intros Hin.
  - by apply elem_of_nil in Hin.
  - by apply list_elem_of_singleton in Hin as ->.
  - by apply elem_of_nil in Hin.
  - by apply elem_of_clientCells in Hin as (cd & Hcd & ->).
Qed.

(** X15: what clients hold for a cell a reveal returned.  A client that
    handles the [mapUpdate] carrying the returned cells then holds, for
    each of them, its state and value, and holds for every other cell
    what it held before.  A client that connects afterwards and is sent
    an [initialState] built from the database the reveal left, for any
    region containing the cell, holds the same state and value for it:
    the projection of the stored row is the cell that was broadcast. *)
Theorem client_holds_revealed (MAP_SEED : string) (db : Db) (p : string) (x y : Z)
    (st : ClientState) (cell : ClientCell) :
  cell ∈ resultCells (snd (revealCell MAP_SEED db p x y)) ->
  cl_mapData
    (handleWebSocketMessage st
       (MapUpdate (resultCells (snd (revealCell MAP_SEED db p x y)))))
    !! cell_key cell
  = Some (cellView cell)
  /\ (forall c,
        c ∉ map cell_key (resultCells (snd (revealCell MAP_SEED db p x y))) ->
        cl_mapData
          (handleWebSocketMessage st
             (MapUpdate (resultCells (snd (revealCell MAP_SEED db p x y)))))
          !! c
        = cl_mapData st !! c)
  /\ (forall xMin yMin xMax yMax playerId score others selfX selfY,
        inWrappedInterval xMin xMax (cell_x cell) ->
        inWrappedInterval yMin yMax (cell_y cell) ->
        cl_mapData
          (handleWebSocketMessage st
             (InitialState playerId score
                (map projectCell
                   (getCellStatesInRegion (fst (revealCell MAP_SEED db p x y))
                      xMin yMin xMax yMax))
                others selfX selfY))
          !! cell_key cell
        = Some (cellView cell)).
Proof.
  intros Hin. cbn [handleWebSocketMessage cl_mapData]. split; [| split].
  - apply storeCells_lookup_in; [apply resultCells_NoDup | done].
  - intros c Hout. by apply storeCells_lookup_out.
  - intros xMin yMin xMax yMax _ _ _ _ _ Hx Hy.
    pose proof (revealCell_rows MAP_SEED db p x y cell Hin) as Hrow.
    pose proof (projectCell_stored MAP_SEED db p x y cell Hin) as Hproj.
    rewrite <- Hproj at 1 2.
    apply storeCells_lookup_in; [apply regionCells_NoDup |].
    apply list_elem_of_fmap. eexists. split; [reflexivity |].
    by apply getCellStatesInRegion_spec.
Qed.

Lemma client_holds_revealed_witness :
  safeCell test_seed (12, 20)
    ∈ resultCells (snd (revealCell test_seed test_db "p1" 11 20))
  /\ cl_mapData
       (handleWebSocketMessage initialClient
          (MapUpdate (resultCells (snd (revealCell test_seed test_db "p1" 11 20)))))
       !! cell_key (safeCell test_seed (12, 20))
     = Some (cellView (safeCell test_seed (12, 20)))
  /\ (forall c,
        c ∉ map cell_key (resultCells (snd (revealCell test_seed test_db "p1" 11 20))) ->
        cl_mapData
          (handleWebSocketMessage initialClient
             (MapUpdate (resultCells (snd (revealCell test_seed test_db "p1" 11 20)))))
          !! c
        = cl_mapData initialClient !! c)
  /\ (forall xMin yMin xMax yMax playerId score others selfX selfY,
        inWrappedInterval xMin xMax (cell_x (safeCell test_seed (12, 20))) ->
        inWrappedInterval yMin yMax (cell_y (safeCell test_seed (12, 20))) ->
        cl_mapData
          (handleWebSocketMessage initialClient
             (InitialState playerId score
                (map projectCell
                   (getCellStatesInRegion
                      (fst (revealCell test_seed test_db "p1" 11 20))
                      xMin yMin xMax yMax))
                others selfX selfY))
          !! cell_key (safeCell test_seed (12, 20))
        = Some (cellView (safeCell test_seed (12, 20)))).
Proof.
  assert (H1 : safeCell test_seed (12, 20)
               ∈ resultCells (snd (revealCell test_seed test_db "p1" 11 20))).
  { apply list_elem_of_In. vm_compute.
    repeat (try (left; reflexivity); right). }
  exact (conj H1 (client_holds_revealed test_seed test_db "p1" 11 20 initialClient
                    (safeCell test_seed (12, 20)) H1)).
Defined.

(** ** From a click on the canvas to the engine *)

Lemma rem_wrap (M v : Z) :
  0 < M ->
  (wrapsIntoMap M v -> Z.rem (v + M) M = v mod M)
  /\ (~ wrapsIntoMap M v -> Z.rem (v + M) M < 0).
Proof.
  intros HM. unfold wrapsIntoMap. split.
  - intros [Hge | Hdiv].
    + rewrite Z.rem_mod_nonneg by lia.
      replace (v + M) with (v + 1 * M) by lia. apply Z_mod_plus_full.
    + apply Z.mod_divide in Hdiv as [k ->]; [| lia].
      replace (k * M + M) with ((k + 1) * M) by lia.
      rewrite Z.rem_mul by lia. by rewrite Z_mod_mult.
  - intros Hno.
    assert (Hneg : v + M < 0) by lia.
    pose proof (Z.rem_nonpos (v + M) M ltac:(lia) ltac:(lia)) as Hle.
    destruct (Z.eq_dec (Z.rem (v + M) M) 0) as [Hz | Hnz]; [| lia].
    exfalso. apply Hno. right.
    apply Z.rem_divide in Hz as [k Hk]; [| lia].
    replace v with ((k - 1) * M) by lia. apply Z_mod_mult.
Qed.

Lemma invalidCell_ofZ (x y : Z) :
  invalidCell (JsNum (PlayerManager.ofZ x)) (JsNum (PlayerManager.ofZ y)) = false
  <-> inGrid (x, y).
Proof.
  unfold PlayerManager.ofZ. rewrite invalidCell_finite. unfold inGrid. cbn [fst snd].
  change 0%Q with (inject_Z 0). rewrite <- !Zle_Qle, <- !Zlt_Qlt. tauto.
Qed.

(** X16: a click on the canvas, from the floored map coordinates
    [(mapX, mapY)] that [screenToMapCoords] computes to the dispatcher.
    When each coordinate is at least minus the map size, or a multiple
    of it, the wrap gives the residues modulo the map size, a cell of
    the map, and the [clickCell] message carrying them reaches
    [revealCell].  For every other coordinate, that is after panning
    more than one map size to the left or up, the wrap gives a negative
    number and the message is refused as invalid. *)
Theorem wrapMapCoords_click (p : string) (mapX mapY : Z) :
  let x := fst (wrapMapCoords mapX mapY) in
  let y := snd (wrapMapCoords mapX mapY) in
  let message :=
    clickCell (JsNum (PlayerManager.ofZ x)) (JsNum (PlayerManager.ofZ y)) in
  (wrapsIntoMap MAP_WIDTH mapX /\ wrapsIntoMap MAP_HEIGHT mapY ->
   x = mapX mod MAP_WIDTH /\ y = mapY mod MAP_HEIGHT /\ inGrid (x, y)
   /\ handleMessage (Some p) message
      = CallRevealCell p (JsNum (PlayerManager.ofZ x)) (JsNum (PlayerManager.ofZ y)))
  /\ (~ (wrapsIntoMap MAP_WIDTH mapX /\ wrapsIntoMap MAP_HEIGHT mapY) ->
      (x < 0 \/ y < 0) /\ handleMessage (Some p) message = InvalidCoordinates).
Proof.
  cbv zeta. unfold wrapMapCoords. cbn [fst snd].
  destruct (rem_wrap MAP_WIDTH mapX MAP_WIDTH_pos) as [Hx Hx'].
  destruct (rem_wrap MAP_HEIGHT mapY MAP_HEIGHT_pos) as [Hy Hy'].
  pose proof (Z.mod_pos_bound mapX MAP_WIDTH MAP_WIDTH_pos) as Hbx.
  pose proof (Z.mod_pos_bound mapY MAP_HEIGHT MAP_HEIGHT_pos) as Hby.
  unfold handleMessage, clickCell. cbn [msg_type msg_data String.eqb Ascii.eqb Bool.eqb].
  split.
  - intros [Hwx Hwy]. rewrite (Hx Hwx), (Hy Hwy).
    assert (Hg : inGrid (mapX mod MAP_WIDTH, mapY mod MAP_HEIGHT)) by done.
    split; [done |]. split; [done |]. split; [done |].
    apply invalidCell_ofZ in Hg. by rewrite Hg.
  - intros Hno.
    assert (Hneg : Z.rem (mapX + MAP_WIDTH) MAP_WIDTH < 0
                   \/ Z.rem (mapY + MAP_HEIGHT) MAP_HEIGHT < 0).
    { destruct (decide (wrapsIntoMap MAP_WIDTH mapX)) as [Hwx | Hwx];
        [| left; by apply Hx'].
      right. apply Hy'. tauto. }
    split; [done |].
    destruct (invalidCell _ _) eqn:Hinv; [done |].
    apply invalidCell_ofZ in Hinv as [Hgx Hgy]. cbn [fst snd] in *. lia.
Qed.

Lemma wrapMapCoords_click_witness :
  (wrapsIntoMap MAP_WIDTH (-3) /\ wrapsIntoMap MAP_HEIGHT 700)
  /\ fst (wrapMapCoords (-3) 700) = 637 /\ snd (wrapMapCoords (-3) 700) = 60
  /\ handleMessage (Some "p1"%string)
       (clickCell (JsNum (PlayerManager.ofZ (fst (wrapMapCoords (-3) 700))))
                  (JsNum (PlayerManager.ofZ (snd (wrapMapCoords (-3) 700)))))
     = CallRevealCell "p1"
         (JsNum (PlayerManager.ofZ (fst (wrapMapCoords (-3) 700))))
         (JsNum (PlayerManager.ofZ (snd (wrapMapCoords (-3) 700))))
  /\ ~ (wrapsIntoMap MAP_WIDTH (-641) /\ wrapsIntoMap MAP_HEIGHT 0)
  /\ handleMessage (Some "p1"%string)
       (clickCell (JsNum (PlayerManager.ofZ (fst (wrapMapCoords (-641) 0))))
                  (JsNum (PlayerManager.ofZ (snd (wrapMapCoords (-641) 0)))))
     = InvalidCoordinates.
Proof.
  assert (H1 : wrapsIntoMap MAP_WIDTH (-3) /\ wrapsIntoMap MAP_HEIGHT 700).
  { split; left; discriminate. }
  assert (H2 : ~ (wrapsIntoMap MAP_WIDTH (-641) /\ wrapsIntoMap MAP_HEIGHT 0)).
  { intros [[Hge | Hmod] _]; [by apply Hge | discriminate Hmod]. }
  destruct (wrapMapCoords_click "p1" (-3) 700) as [Hok _].
  destruct (wrapMapCoords_click "p1" (-641) 0) as [_ Hno].
  destruct (Hok H1) as (Hx & Hy & _ & Hcall). destruct (Hno H2) as [_ Hrefused].
  exact (conj H1 (conj Hx (conj Hy (conj Hcall (conj H2 Hrefused))))).
Defined.

Lemma eqb_message (m : Message) (t : string) (X Y : JsValue) :
  String.eqb (msg_type m) t = true -> msg_data m = Some (X, Y) ->
  m = MkMessage t (Some (X, Y)).
Proof. destruct m as [mt md]. cbn. intros ->%String.eqb_eq ->. done. Qed.

(** X17: which messages reach [toggleFlag], and where the engine is
    called.  A [flagCell] message with integer coordinates calls
    [toggleFlag] exactly when they are those of a cell of the map and is
    refused as invalid otherwise; [toggleFlag] is called from no other
    message kind and never without a session; and every call of
    [revealCell] or [toggleFlag] that the dispatcher makes with integer
    coordinates is on a cell of the map. *)
Theorem flagCell_routing (p : string) (x y : Z) :
  (inGrid (x, y) ->
   handleMessage (Some p) (flagCell (jsInt x) (jsInt y))
   = CallToggleFlag p (jsInt x) (jsInt y))
  /\ (~ inGrid (x, y) ->
      handleMessage (Some p) (flagCell (jsInt x) (jsInt y)) = InvalidCoordinates)
  /\ (forall session message,
        handleMessage session message = CallToggleFlag p (jsInt x) (jsInt y) ->
        session = Some p /\ message = flagCell (jsInt x) (jsInt y) /\ inGrid (x, y))
  /\ (forall session message,
        handleMessage session message = CallRevealCell p (jsInt x) (jsInt y) ->
        session = Some p /\ message = clickCell (jsInt x) (jsInt y) /\ inGrid (x, y)).
Proof.
  pose proof (invalidCell_ofZ x y) as Hvalid. unfold jsInt.
  split; [| split; [| split]].
  - intros Hg. apply Hvalid in Hg. unfold handleMessage, flagCell.
    cbn [msg_type msg_data String.eqb Ascii.eqb Bool.eqb]. by rewrite Hg.
  - intros Hg. unfold handleMessage, flagCell.
    cbn [msg_type msg_data String.eqb Ascii.eqb Bool.eqb].
    destruct (invalidCell _ _); [done |]. exfalso. by apply Hg, Hvalid.
  - intros [q |] message; [| done]. unfold handleMessage.
    destruct (String.eqb (msg_type message) "clickCell") eqn:Hclick.
    { destruct (msg_data message) as [[X Y] |]; [| done].
      by destruct (invalidCell X Y). }
    destruct (String.eqb (msg_type message) "flagCell") eqn:Hflag.
    { destruct (msg_data message) as [[X Y] |] eqn:Hdata; [| done].
      destruct (invalidCell X Y) eqn:Hinv; [done |]. intros [= -> -> ->].
      split; [done |]. split; [by apply eqb_message |]. by apply Hvalid. }
    destruct (String.eqb (msg_type message) "updatePosition"); [| done].
    destruct (msg_data message) as [[X Y] |]; [| done].
    by destruct (invalidPosition X Y).
  - intros [q |] message; [| done]. unfold handleMessage.
    destruct (String.eqb (msg_type message) "clickCell") eqn:Hclick.
    { destruct (msg_data message) as [[X Y] |] eqn:Hdata; [| done].
      destruct (invalidCell X Y) eqn:Hinv; [done |]. intros [= -> -> ->].
      split; [done |]. split; [by apply eqb_message |]. by apply Hvalid. }
    destruct (String.eqb (msg_type message) "flagCell") eqn:Hflag.
    { destruct (msg_data message) as [[X Y] |]; [| done].
      by destruct (invalidCell X Y). }
    destruct (String.eqb (msg_type message) "updatePosition"); [| done].
    destruct (msg_data message) as [[X Y] |]; [| done].
    by destruct (invalidPosition X Y).
Qed.

Lemma flagCell_routing_witness :
  inGrid (12, 21)
  /\ handleMessage (Some "p1"%string) (flagCell (jsInt 12) (jsInt 21))
     = CallToggleFlag "p1" (jsInt 12) (jsInt 21)
  /\ ~ inGrid (640, 0)
  /\ handleMessage (Some "p1"%string) (flagCell (jsInt 640) (jsInt 0))
     = InvalidCoordinates.
Proof.
  assert (H1 : inGrid (12, 21)) by (repeat split; (discriminate || reflexivity)).
  assert (H2 : ~ inGrid (640, 0)).
  { intros [[_ Hx] _]. cbn in Hx. discriminate Hx. }
  destruct (flagCell_routing "p1" 12 21) as [Hok _].
  destruct (flagCell_routing "p1" 640 0) as (_ & Hno & _).
  exact (conj H1 (conj (Hok H1) (conj H2 (Hno H2)))).
Defined.

(** ** A move and a disconnect, from the dispatcher's side *)

Lemma integerOf_ofZ (z : Z) : integerOf (PlayerManager.ofZ z) = Some z.
Proof.
  unfold integerOf, PlayerManager.ofZ, inject_Z. cbn [Qnum Qden].
  by rewrite Z.mod_1_r, Z.div_1_r.
Qed.

Lemma js_le_ofZ_false (a b : Z) :
  PlayerManager.js_le (PlayerManager.ofZ a) (PlayerManager.ofZ b) = false <-> b < a.
Proof.
  rewrite <- not_true_iff_false, js_le_ofZ. lia.
Qed.

Lemma clamp_ofZ (bound v : Z) :
  PlayerManager.clamp bound (PlayerManager.ofZ v) = PlayerManager.ofZ (clampZ bound v).
Proof.
  unfold PlayerManager.clamp, clampZ.
  assert (Hmin : PlayerManager.js_min (PlayerManager.ofZ (bound - 1)) (PlayerManager.ofZ v)
                 = PlayerManager.ofZ (Z.min (bound - 1) v)).
  { change (PlayerManager.js_min (PlayerManager.ofZ (bound - 1)) (PlayerManager.ofZ v))
      with (if PlayerManager.js_le (PlayerManager.ofZ (bound - 1)) (PlayerManager.ofZ v)
            then PlayerManager.ofZ (bound - 1) else PlayerManager.ofZ v).
    destruct (PlayerManager.js_le _ _) eqn:Hle.
    - apply js_le_ofZ in Hle. by rewrite Z.min_l.
    - apply js_le_ofZ_false in Hle. by rewrite Z.min_r by lia. }
  rewrite Hmin.
  change (PlayerManager.js_max (PlayerManager.ofZ 0)
            (PlayerManager.ofZ (Z.min (bound - 1) v)))
    with (if PlayerManager.js_le (PlayerManager.ofZ 0)
               (PlayerManager.ofZ (Z.min (bound - 1) v))
          then PlayerManager.ofZ (Z.min (bound - 1) v) else PlayerManager.ofZ 0).
  destruct (PlayerManager.js_le _ _) eqn:Hle.
  - apply js_le_ofZ in Hle. by rewrite Z.max_r.
  - apply js_le_ofZ_false in Hle. by rewrite Z.max_l by lia.
Qed.

Lemma clampZ_inGrid (x y : Z) : inGrid (clampZ MAP_WIDTH x, clampZ MAP_HEIGHT y).
Proof.
  unfold inGrid, clampZ. cbn [fst snd].
  pose proof MAP_WIDTH_pos. pose proof MAP_HEIGHT_pos. lia.
Qed.

Lemma updatePlayerPosition_get (reg : PlayerManager.Registry) (playerId : string)
    (player : PlayerManager.Player) (x y : Z) :
  PlayerManager.getPlayerById reg playerId = Some player ->
  PlayerManager.getPlayerById
    (PlayerManager.updatePlayerPosition reg playerId (PlayerManager.ofZ x)
       (PlayerManager.ofZ y)) playerId
  = Some (PlayerManager.MkPlayer (PlayerManager.pl_ws player)
            (PlayerManager.pl_id player)
            (PlayerManager.ofZ (clampZ MAP_WIDTH x))
            (PlayerManager.ofZ (clampZ MAP_HEIGHT y))
            (PlayerManager.pl_score player))
  /\ forall other, other <> playerId ->
       PlayerManager.getPlayerById
         (PlayerManager.updatePlayerPosition reg playerId (PlayerManager.ofZ x)
            (PlayerManager.ofZ y)) other
       = PlayerManager.getPlayerById reg other.
Proof.
  unfold PlayerManager.getPlayerById, PlayerManager.updatePlayerPosition.
  intros ->. cbn [PlayerManager.activePlayers]. rewrite !clamp_ofZ. split.
  - apply mapGet_mapSet_eq.
  - intros other Hne. by apply mapGet_mapSet_ne.
Qed.

(** X18: the [updatePosition] case for an active player and integer
    coordinates, in a consistent registry whose players are on cells of
    the map.  The position stored is the one sent, each coordinate
    clamped into the map, so the player stays on a cell of the map.  The
    [playerPositionUpdate] message carries that stored position and goes
    to the open sockets of exactly the other players whose cursor is
    within the viewport radii of the new position; the mover's socket
    gets nothing. *)
Theorem handleUpdatePosition_sends (isOpen : nat -> bool)
    (reg : PlayerManager.Registry) (playerId : string)
    (player : PlayerManager.Player) (x y : Z) :
  registryConsistent reg -> registryOnGrid reg ->
  PlayerManager.getPlayerById reg playerId = Some player ->
  exists sent,
    handleUpdatePosition isOpen reg playerId player
      (PlayerManager.ofZ x) (PlayerManager.ofZ y)
    = Some (PlayerManager.updatePlayerPosition reg playerId
              (PlayerManager.ofZ x) (PlayerManager.ofZ y), sent)
    /\ PlayerManager.getPlayerById
         (PlayerManager.updatePlayerPosition reg playerId
            (PlayerManager.ofZ x) (PlayerManager.ofZ y)) playerId
       = Some (PlayerManager.MkPlayer (PlayerManager.pl_ws player)
                 (PlayerManager.pl_id player)
                 (PlayerManager.ofZ (clampZ MAP_WIDTH x))
                 (PlayerManager.ofZ (clampZ MAP_HEIGHT y))
                 (PlayerManager.pl_score player))
    /\ inGrid (clampZ MAP_WIDTH x, clampZ MAP_HEIGHT y)
    /\ (forall ws' m,
          (ws', m) ∈ sent
          <-> m = PlayerPositionUpdate
                    [PlayerManager.MkPlayerPos playerId
                       (PlayerManager.ofZ (clampZ MAP_WIDTH x))
                       (PlayerManager.ofZ (clampZ MAP_HEIGHT y))]
              /\ isOpen ws' = true
              /\ exists id other,
                   id <> playerId
                   /\ PlayerManager.getPlayerById reg id = Some other
                   /\ PlayerManager.pl_ws other = ws'
                   /\ playerNear (clampZ MAP_WIDTH x) (clampZ MAP_HEIGHT y) other)
    /\ PlayerManager.pl_ws player ∉ map fst sent.
Proof.
  intros Hreg Hgrid Hget.
  destruct (updatePlayerPosition_get reg playerId player x y Hget) as [Hnew Hothers].
  pose proof (updatePlayerPosition_consistent reg playerId
                (PlayerManager.ofZ x) (PlayerManager.ofZ y) Hreg) as Hreg'.
  pose proof (clampZ_inGrid x y) as Hc.
  set (reg' := PlayerManager.updatePlayerPosition reg playerId
                 (PlayerManager.ofZ x) (PlayerManager.ofZ y)) in *.
  assert (Hgrid' : registryOnGrid reg').
  { intros id pl Hpl. destruct (decide (id = playerId)) as [-> | Hne].
    - rewrite Hnew in Hpl. injection Hpl as <-.
      exists (clampZ MAP_WIDTH x), (clampZ MAP_HEIGHT y). done.
    - rewrite Hothers in Hpl by done. by apply (Hgrid id). }
  unfold handleUpdatePosition. fold reg'. unfold playerObject. rewrite Hnew.
  cbn [PlayerManager.pl_x PlayerManager.pl_y]. rewrite !integerOf_ofZ.
  pose proof (broadcastToRegion_spec isOpen reg'
                (clampZ MAP_WIDTH x) (clampZ MAP_HEIGHT y)
                (PlayerPositionUpdate
                   [PlayerManager.MkPlayerPos playerId
                      (PlayerManager.ofZ (clampZ MAP_WIDTH x))
                      (PlayerManager.ofZ (clampZ MAP_HEIGHT y))])
                (Some playerId) Hreg' Hgrid' Hc) as [Hsent _].
  eexists. split; [reflexivity |]. split; [done |]. split; [done |].
  split.
  - intros ws' m. rewrite Hsent. split.
    + intros (-> & Hopen & id & other & Hpl & Hws & Hex & Hnr).
      assert (Hne : id <> playerId) by congruence.
      rewrite Hothers in Hpl by done. eauto 10.
    + intros (-> & Hopen & id & other & Hne & Hpl & Hws & Hnr).
      split; [done |]. split; [done |]. exists id, other.
      rewrite Hothers by done. split; [done |]. split; [done |].
      split; [congruence | done].
  - intros Hin. apply list_elem_of_fmap in Hin as ([ws' m] & Hfst & Hin).
    cbn [fst] in Hfst. subst ws'.
    apply Hsent in Hin as (_ & _ & id & other & Hpl & Hws & Hex & _).
    assert (Hne : id <> playerId) by congruence.
    rewrite Hothers in Hpl by done.
    destruct (rc_player reg Hreg id other Hpl) as (_ & _ & Hs1).
    destruct (rc_player reg Hreg playerId player Hget) as (_ & _ & Hs2).
    rewrite Hws in Hs1. congruence.
Qed.

Lemma removePlayer_known (db : Db) (reg : PlayerManager.Registry) (ws : nat)
    (now playerId : string) :
  registryConsistent reg ->
  PlayerManager.getPlayerIdByWs reg ws = Some playerId ->
  PlayerManager.removePlayer db reg ws now
  = (updatePlayerLastSeen db playerId now,
     PlayerManager.MkRegistry
       (mapDelete (PlayerManager.activePlayers reg) playerId)
       (mapDelete (PlayerManager.wsToPlayerId reg) ws),
     Some playerId)
  /\ PlayerManager.truthy playerId = true.
Proof.
  intros Hreg Hws. unfold PlayerManager.getPlayerIdByWs in Hws.
  destruct (rc_socket reg Hreg ws playerId Hws) as (player & Hget & _).
  destruct (rc_player reg Hreg playerId player Hget) as (_ & Hne & _).
  pose proof (truthy_nonempty playerId Hne) as Htruthy.
  unfold PlayerManager.removePlayer, mapHas. by rewrite Hws, Hget, Htruthy.
Qed.

(** X19: a disconnect of a socket that has a player, in a consistent
    registry whose players are on cells of the map.  The player leaves
    both maps of the registry, every other player stays as it was, and
    [last_seen] of the player's row is set; [playerLeft] with the id
    goes to the open sockets of exactly the remaining players whose
    cursor is within the viewport radii of the position the player had,
    and nothing is sent on the closed socket. *)
Theorem handleDisconnect_sends (isOpen : nat -> bool) (db : Db)
    (reg : PlayerManager.Registry) (ws : nat) (now playerId : string) :
  registryConsistent reg -> registryOnGrid reg ->
  PlayerManager.getPlayerIdByWs reg ws = Some playerId ->
  exists player x y sent,
    PlayerManager.getPlayerById reg playerId = Some player
    /\ playerAt player x y
    /\ handleDisconnect isOpen db reg ws now
       = Some (updatePlayerLastSeen db playerId now, afterRemove db reg ws now, sent)
    /\ PlayerManager.getPlayerById (afterRemove db reg ws now) playerId = None
    /\ PlayerManager.getPlayerIdByWs (afterRemove db reg ws now) ws = None
    /\ (forall other, other <> playerId ->
          PlayerManager.getPlayerById (afterRemove db reg ws now) other
          = PlayerManager.getPlayerById reg other)
    /\ (forall ws' m,
          (ws', m) ∈ sent
          <-> m = PlayerLeft playerId /\ isOpen ws' = true
              /\ exists id other,
                   id <> playerId
                   /\ PlayerManager.getPlayerById reg id = Some other
                   /\ PlayerManager.pl_ws other = ws'
                   /\ playerNear x y other)
    /\ ws ∉ map fst sent.
Proof.
  intros Hreg Hgrid Hws.
  destruct (removePlayer_known db reg ws now playerId Hreg Hws) as [Hremove Htruthy].
  pose proof (removePlayer_consistent db reg ws now Hreg) as Hreg'.
  unfold PlayerManager.getPlayerIdByWs in Hws.
  destruct (rc_socket reg Hreg ws playerId Hws) as (player & Hget & Hpws).
  destruct (Hgrid playerId player Hget) as (x & y & Hxy & Hat).
  unfold handleDisconnect, afterRemove in *. unfold PlayerManager.getPlayerIdByWs.
  rewrite Hws, Htruthy.
  assert (Hget' : PlayerManager.getPlayerById reg playerId = Some player) by done.
  rewrite !Hget'. rewrite Hremove in *. cbn [fst snd] in *.
  destruct Hat as [Hx Hy]. rewrite Hx, Hy, !integerOf_ofZ.
  set (reg' := PlayerManager.MkRegistry _ _) in *.
  assert (Hgone : PlayerManager.getPlayerById reg' playerId = None).
  { apply mapGet_mapDelete_eq, Hreg. }
  assert (Hothers : forall other, other <> playerId ->
            PlayerManager.getPlayerById reg' other
            = PlayerManager.getPlayerById reg other).
  { intros other Hne. unfold PlayerManager.getPlayerById, reg'.
    cbn [PlayerManager.activePlayers]. by apply mapGet_mapDelete_ne. }
  assert (Hgrid' : registryOnGrid reg').
  { intros id pl Hpl. destruct (decide (id = playerId)) as [-> | Hne].
    - by rewrite Hgone in Hpl.
    - rewrite Hothers in Hpl by done. by apply (Hgrid id). }
  pose proof (broadcastToRegion_spec isOpen reg' x y (PlayerLeft playerId) None
                Hreg' Hgrid' Hxy) as [Hsent _].
  exists player, x, y. eexists. split; [done |]. split; [done |].
  split; [reflexivity |]. split; [done |]. split; [apply mapGet_mapDelete_eq, Hreg |].
  split; [done |]. split.
  - intros ws' m. rewrite Hsent. split.
    + intros (-> & Hopen & id & other & Hpl & Hows & _ & Hnr).
      assert (Hne : id <> playerId) by (intros ->; by rewrite Hgone in Hpl).
      rewrite Hothers in Hpl by done. eauto 10.
    + intros (-> & Hopen & id & other & Hne & Hpl & Hows & Hnr).
      split; [done |]. split; [done |]. exists id, other.
      by rewrite Hothers.
  - intros Hin. apply list_elem_of_fmap in Hin as ([ws' m] & Hfst & Hin).
    cbn [fst] in Hfst. subst ws'.
    apply Hsent in Hin as (_ & _ & id & other & Hpl & Hows & _ & _).
    assert (Hne : id <> playerId) by (intros ->; by rewrite Hgone in Hpl).
    rewrite Hothers in Hpl by done.
    destruct (rc_player reg Hreg id other Hpl) as (_ & _ & Hs1).
    rewrite Hows in Hs1. congruence.
Qed.

Lemma handleDisconnect_sends_witness :
  registryConsistent test_registry /\ registryOnGrid test_registry
  /\ PlayerManager.getPlayerIdByWs test_registry 2 = Some "p2"%string
  /\ exists player x y sent,
       PlayerManager.getPlayerById test_registry "p2" = Some player
       /\ playerAt player x y
       /\ handleDisconnect (fun _ => true) test_db test_registry 2
            "2025-03-29T00:00:03.000Z"
          = Some (updatePlayerLastSeen test_db "p2" "2025-03-29T00:00:03.000Z",
                  afterRemove test_db test_registry 2 "2025-03-29T00:00:03.000Z", sent)
       /\ PlayerManager.getPlayerById
            (afterRemove test_db test_registry 2 "2025-03-29T00:00:03.000Z") "p2"
          = None
       /\ PlayerManager.getPlayerIdByWs
            (afterRemove test_db test_registry 2 "2025-03-29T00:00:03.000Z") 2
          = None
       /\ (forall other, other <> "p2"%string ->
             PlayerManager.getPlayerById
               (afterRemove test_db test_registry 2 "2025-03-29T00:00:03.000Z") other
             = PlayerManager.getPlayerById test_registry other)
       /\ (forall ws' m,
             (ws', m) ∈ sent
             <-> m = PlayerLeft "p2" /\ (fun _ : nat => true) ws' = true
                 /\ exists id other,
                      id <> "p2"%string
                      /\ PlayerManager.getPlayerById test_registry id = Some other
                      /\ PlayerManager.pl_ws other = ws'
                      /\ playerNear x y other)
       /\ 2%nat ∉ map fst sent.
Proof.
  pose proof test_registry_consistent as H1.
  pose proof test_registry_onGrid as H2.
  assert (H3 : PlayerManager.getPlayerIdByWs test_registry 2 = Some "p2"%string)
    by reflexivity.
  exact (conj H1 (conj H2 (conj H3
           (handleDisconnect_sends (fun _ => true) test_db test_registry 2
              "2025-03-29T00:00:03.000Z" "p2" H1 H2 H3)))).
Defined.

Lemma handleUpdatePosition_sends_witness :
  registryConsistent test_registry /\ registryOnGrid test_registry
  /\ PlayerManager.getPlayerById test_registry "p1"
     = Some (PlayerManager.MkPlayer 1 "p1" (PlayerManager.ofZ 320)
               (PlayerManager.ofZ 320) 0)
  /\ clampZ MAP_WIDTH 700 = 639 /\ clampZ MAP_HEIGHT (-4) = 0
  /\ exists sent,
       handleUpdatePosition (fun _ => true) test_registry "p1"
         (PlayerManager.MkPlayer 1 "p1" (PlayerManager.ofZ 320)
            (PlayerManager.ofZ 320) 0)
         (PlayerManager.ofZ 700) (PlayerManager.ofZ (-4))
       = Some (PlayerManager.updatePlayerPosition test_registry "p1"
                 (PlayerManager.ofZ 700) (PlayerManager.ofZ (-4)), sent)
       /\ PlayerManager.getPlayerById
            (PlayerManager.updatePlayerPosition test_registry "p1"
               (PlayerManager.ofZ 700) (PlayerManager.ofZ (-4))) "p1"
          = Some (PlayerManager.MkPlayer 1 "p1"
                    (PlayerManager.ofZ (clampZ MAP_WIDTH 700))
                    (PlayerManager.ofZ (clampZ MAP_HEIGHT (-4))) 0)
       /\ inGrid (clampZ MAP_WIDTH 700, clampZ MAP_HEIGHT (-4))
       /\ (forall ws' m,
             (ws', m) ∈ sent
             <-> m = PlayerPositionUpdate
                       [PlayerManager.MkPlayerPos "p1"
                          (PlayerManager.ofZ (clampZ MAP_WIDTH 700))
                          (PlayerManager.ofZ (clampZ MAP_HEIGHT (-4)))]
                 /\ (fun _ : nat => true) ws' = true
                 /\ exists id other,
                      id <> "p1"%string
                      /\ PlayerManager.getPlayerById test_registry id = Some other
                      /\ PlayerManager.pl_ws other = ws'
                      /\ playerNear (clampZ MAP_WIDTH 700) (clampZ MAP_HEIGHT (-4)) other)
       /\ 1%nat ∉ map fst sent.
Proof.
  pose proof test_registry_consistent as H1.
  pose proof test_registry_onGrid as H2.
  assert (H3 : PlayerManager.getPlayerById test_registry "p1"
               = Some (PlayerManager.MkPlayer 1 "p1" (PlayerManager.ofZ 320)
                         (PlayerManager.ofZ 320) 0)) by reflexivity.
  assert (H4 : clampZ MAP_WIDTH 700 = 639) by reflexivity.
  assert (H5 : clampZ MAP_HEIGHT (-4) = 0) by reflexivity.
  exact (conj H1 (conj H2 (conj H3 (conj H4 (conj H5
           (handleUpdatePosition_sends (fun _ => true) test_registry "p1" _ 700 (-4)
              H1 H2 H3)))))).
Defined.

(** ** Who sees a click and a flag *)

Lemma updatePlayerScore_near (reg : PlayerManager.Registry) (playerId : string)
    (newScore : Z) (x y : Z) (isOpen : nat -> bool) (ws : nat) :
  audience isOpen (PlayerManager.updatePlayerScore reg playerId newScore) x y ws
  <-> audience isOpen reg x y ws.
Proof.
  unfold audience, PlayerManager.updatePlayerScore, PlayerManager.getPlayerById.
  destruct (mapGet (PlayerManager.activePlayers reg) playerId) as [player |] eqn:Hget;
    [| done].
  cbn [PlayerManager.activePlayers]. split.
  - intros (Hopen & id & pl & Hpl & Hws & Hnr). split; [done |].
    destruct (decide (playerId = id)) as [<- | Hne].
    + rewrite mapGet_mapSet_eq in Hpl. injection Hpl as <-.
      exists playerId, player. done.
    + rewrite mapGet_mapSet_ne in Hpl by done. eauto.
  - intros (Hopen & id & pl & Hpl & Hws & Hnr). split; [done |].
    destruct (decide (playerId = id)) as [<- | Hne].
    + rewrite Hget in Hpl. injection Hpl as <-.
      eexists playerId, _. rewrite mapGet_mapSet_eq. done.
    + exists id, pl. by rewrite mapGet_mapSet_ne.
Qed.

Lemma updatePlayerScore_onGrid (reg : PlayerManager.Registry) (playerId : string)
    (newScore : Z) :
  registryOnGrid reg ->
  registryOnGrid (PlayerManager.updatePlayerScore reg playerId newScore).
Proof.
  intros Hgrid id pl.
  unfold PlayerManager.updatePlayerScore, PlayerManager.getPlayerById.
  destruct (mapGet (PlayerManager.activePlayers reg) playerId) as [player |] eqn:Hget;
    [| apply Hgrid].
  cbn [PlayerManager.activePlayers].
  destruct (decide (playerId = id)) as [<- | Hne].
  - rewrite mapGet_mapSet_eq. intros [= <-].
    destruct (Hgrid playerId player Hget) as (x & y & Hxy & Hat). by exists x, y.
  - rewrite mapGet_mapSet_ne by done. apply Hgrid.
Qed.

Lemma broadcast_audience (isOpen : nat -> bool) (reg : PlayerManager.Registry)
    (x y : Z) (msg : Outbound) (ws : nat) (m : Outbound) :
  registryConsistent reg -> registryOnGrid reg -> inGrid (x, y) ->
  (ws, m) ∈ broadcastToRegion isOpen reg x y VIEWPORT_RADIUS_X VIEWPORT_RADIUS_Y msg None
  <-> m = msg /\ audience isOpen reg x y ws.
Proof.
  intros Hreg Hgrid Hxy.
  destruct (broadcastToRegion_spec isOpen reg x y msg None Hreg Hgrid Hxy) as [Hsent _].
  rewrite Hsent. unfold audience. split.
  - intros (-> & Hopen & id & player & Hget & Hws & _ & Hnr). eauto 10.
  - intros (-> & Hopen & id & player & Hget & Hws & Hnr).
    split; [done |]. split; [done |]. exists id, player. done.
Qed.

(** X20: who is sent the cells of a click.  In a consistent registry
    whose players are on cells of the map, a click on a cell of the map
    that is not ignored sends the [mapUpdate] with the returned cells to
    the open sockets of exactly the players whose cursor is within the
    viewport radii of the clicked cell, counted around the edges.  That
    holds for the clicking player as for everyone else: a player whose
    cursor is farther than that from the cell it clicks gets the score
    reply and no [mapUpdate]. *)
Theorem click_update_audience (isOpen : nat -> bool) (MAP_SEED : string) (db : Db)
    (reg : PlayerManager.Registry) (playerId : string)
    (player : PlayerManager.Player) (x y : Z) :
  registryConsistent reg -> registryOnGrid reg ->
  PlayerManager.getPlayerById reg playerId = Some player ->
  inGrid (x, y) ->
  snd (revealCell MAP_SEED db playerId x y) <> Ignored ->
  forall ws,
    (ws, MapUpdate (resultCells (snd (revealCell MAP_SEED db playerId x y))))
      ∈ snd (handleClickCell isOpen MAP_SEED db reg (PlayerManager.pl_ws player)
               playerId player x y)
    <-> audience isOpen reg x y ws.
Proof.
  intros Hreg Hgrid Hget Hxy Hresult ws. unfold handleClickCell.
  destruct (revealCell MAP_SEED db playerId x y)
    as [db' [| delta stun cells | delta cells]]; cbn [fst snd resultCells] in *;
    [done | |].
  - rewrite elem_of_cons.
    rewrite (broadcast_audience isOpen _ x y (MapUpdate cells) ws (MapUpdate cells))
      by first [done | by apply updatePlayerScore_consistent
                | by apply updatePlayerScore_onGrid].
    rewrite updatePlayerScore_near. split; [| tauto].
    intros [Heq | [_ Haud]]; [congruence | done].
  - rewrite elem_of_cons.
    rewrite (broadcast_audience isOpen _ x y (MapUpdate cells) ws (MapUpdate cells))
      by first [done | by apply updatePlayerScore_consistent
                | by apply updatePlayerScore_onGrid].
    rewrite updatePlayerScore_near. split; [| tauto].
    intros [Heq | [_ Haud]]; [congruence | done].
Qed.

Lemma toggleFlag_outcome (db : Db) (p : string) (x y : Z) :
  (forall row, getCellState db x y = Some row ->
               revealed row = 1 \/ row = MkCellRow 0 None None 1) ->
  flagOutcome db x y (fst (toggleFlag db p x y))
    (match snd (toggleFlag db p x y) with
     | FlagIgnored => None
     | Flagged cx cy state => Some (MkClientCell cx cy state None)
     | Unflagged cx cy state => Some (MkClientCell cx cy state None)
     end).
Proof.
  intros Hrows. unfold flagOutcome, toggleFlag, setFlagState, getCellState in *.
  destruct (map_state db !! (x, y)) as [row |] eqn:Hrow; [| done].
  destruct (Hrows row eq_refl) as [Hrev | ->].
  - cbn [isRevealed]. by rewrite Hrev.
  - flag_cases. done.
Qed.

Lemma consistent_rows (MAP_SEED : string) (db : Db) (x y : Z) (row : CellRow) :
  dbConsistent MAP_SEED db -> getCellState db x y = Some row ->
  revealed row = 1 \/ row = MkCellRow 0 None None 1.
Proof.
  intros Hdb Hrow. destruct (Hdb (x, y) row Hrow) as [_ [-> | [[-> _] | [-> _]]]];
    cbn; tauto.
Qed.

(** X21: the [flagCell] case on a cell of the map, with a database whose
    rows agree with the map.  On a revealed cell nothing changes and
    nothing is sent.  On a cell without a row the flag row is stored and
    the cell is broadcast as flagged; on a flagged cell the row is
    deleted and the cell is broadcast as hidden.  The broadcast is one
    [mapUpdate] with that one cell, to the open sockets of exactly the
    players whose cursor is within the viewport radii of the cell.  No
    score and no registry entry changes, and the projection that
    [handleConnect] applies to a flag row left behind has the state that
    was broadcast. *)
Theorem handleFlagCell_sends (isOpen : nat -> bool) (MAP_SEED : string) (db : Db)
    (reg : PlayerManager.Registry) (p : string) (x y : Z) :
  dbConsistent MAP_SEED db -> registryConsistent reg -> registryOnGrid reg ->
  inGrid (x, y) ->
  exists cell,
    flagOutcome db x y (fst (fst (handleFlagCell isOpen db reg p x y))) cell
    /\ snd (fst (handleFlagCell isOpen db reg p x y)) = reg
    /\ players (fst (fst (handleFlagCell isOpen db reg p x y))) = players db
    /\ (forall ws m,
          (ws, m) ∈ snd (handleFlagCell isOpen db reg p x y)
          <-> exists c, cell = Some c /\ m = MapUpdate [c]
                        /\ audience isOpen reg x y ws)
    /\ (forall row,
          getCellState (fst (fst (handleFlagCell isOpen db reg p x y))) x y = Some row ->
          revealed row <> 1 ->
          exists c,
            cell = Some c
            /\ cell_key c = cell_key (projectCell (x, y, row))
            /\ cell_state c = cell_state (projectCell (x, y, row))).
Proof.
  intros Hdb Hreg Hgrid Hxy.
  pose proof (toggleFlag_outcome db p x y
                (fun row => consistent_rows MAP_SEED db x y row Hdb)) as Hout.
  unfold handleFlagCell.
  destruct (toggleFlag db p x y) as [db' [| cx cy state | cx cy state]];
    cbn [fst snd] in *.
  - exists None. split; [done |]. split; [done |].
    unfold flagOutcome in Hout. destruct (getCellState db x y) as [row |] eqn:Hrow.
    + destruct (revealed row =? 1) eqn:Hrev; destruct Hout as [-> Hnone]; [| done].
      split; [done |]. split.
      * intros ws m. split; [intros Hin; by apply elem_of_nil in Hin |].
        by intros (c & Hc & _).
      * intros row' Hrow' Hne. rewrite Hrow in Hrow'. injection Hrow' as <-.
        by apply Z.eqb_eq in Hrev.
    + by destruct Hout.
  - exists (Some (MkClientCell cx cy state None)). split; [done |]. split; [done |].
    assert (Hplayers : players db' = players db).
    { unfold flagOutcome in Hout. destruct (getCellState db x y) as [row |].
      - destruct (revealed row =? 1); by destruct Hout as [-> _].
      - by destruct Hout as [-> _]. }
    split; [done |]. split.
    + intros ws m. rewrite broadcast_audience by done. split.
      * intros [-> Haud]. eauto.
      * intros (c & [= <-] & -> & Haud). done.
    + intros row Hrow Hne. unfold flagOutcome in Hout.
      destruct (getCellState db x y) as [row0 |].
      * destruct (revealed row0 =? 1); destruct Hout as [-> Hcell]; [done |].
        unfold getCellState in Hrow. cbn in Hrow. by rewrite lookup_delete_eq in Hrow.
      * destruct Hout as [-> Hcell]. unfold getCellState in Hrow. cbn in Hrow.
        rewrite lookup_insert_eq in Hrow. injection Hrow as <-.
        injection Hcell as -> -> ->. eauto.
  - exists (Some (MkClientCell cx cy state None)). split; [done |]. split; [done |].
    assert (Hplayers : players db' = players db).
    { unfold flagOutcome in Hout. destruct (getCellState db x y) as [row |].
      - destruct (revealed row =? 1); by destruct Hout as [-> _].
      - by destruct Hout as [-> _]. }
    split; [done |]. split.
    + intros ws m. rewrite broadcast_audience by done. split.
      * intros [-> Haud]. eauto.
      * intros (c & [= <-] & -> & Haud). done.
    + intros row Hrow Hne. unfold flagOutcome in Hout.
      destruct (getCellState db x y) as [row0 |].
      * destruct (revealed row0 =? 1); destruct Hout as [-> Hcell]; [done |].
        unfold getCellState in Hrow. cbn in Hrow. by rewrite lookup_delete_eq in Hrow.
      * destruct Hout as [-> Hcell]. unfold getCellState in Hrow. cbn in Hrow.
        rewrite lookup_insert_eq in Hrow. injection Hrow as <-.
        injection Hcell as -> -> ->. eauto.
Qed.

Lemma click_update_audience_witness :
  registryConsistent test_registry /\ registryOnGrid test_registry
  /\ PlayerManager.getPlayerById test_registry "p1"
     = Some (PlayerManager.MkPlayer 1 "p1" (PlayerManager.ofZ 320)
               (PlayerManager.ofZ 320) 0)
  /\ inGrid (11, 20)
  /\ snd (revealCell test_seed test_db "p1" 11 20) <> Ignored
  /\ forall ws,
       (ws, MapUpdate (resultCells (snd (revealCell test_seed test_db "p1" 11 20))))
         ∈ snd (handleClickCell (fun _ => true) test_seed test_db test_registry
                  (PlayerManager.pl_ws
                     (PlayerManager.MkPlayer 1 "p1" (PlayerManager.ofZ 320)
                        (PlayerManager.ofZ 320) 0))
                  "p1"
                  (PlayerManager.MkPlayer 1 "p1" (PlayerManager.ofZ 320)
                     (PlayerManager.ofZ 320) 0) 11 20)
       <-> audience (fun _ => true) test_registry 11 20 ws.
Proof.
  pose proof test_registry_consistent as H1.
  pose proof test_registry_onGrid as H2.
  assert (H3 : PlayerManager.getPlayerById test_registry "p1"
               = Some (PlayerManager.MkPlayer 1 "p1" (PlayerManager.ofZ 320)
                         (PlayerManager.ofZ 320) 0)) by reflexivity.
  assert (H4 : inGrid (11, 20)) by (repeat split; (discriminate || reflexivity)).
  assert (H5 : snd (revealCell test_seed test_db "p1" 11 20) <> Ignored).
  { vm_compute. discriminate. }
  exact (conj H1 (conj H2 (conj H3 (conj H4 (conj H5
           (click_update_audience (fun _ => true) test_seed test_db test_registry
              "p1" _ 11 20 H1 H2 H3 H4 H5)))))).
Defined.

Lemma test_db_consistent : dbConsistent test_seed test_db.
Proof. intros c r Hlook. cbn in Hlook. by rewrite lookup_empty in Hlook. Qed.

Lemma handleFlagCell_sends_witness :
  dbConsistent test_seed test_db /\ registryConsistent test_registry
  /\ registryOnGrid test_registry /\ inGrid (620, 8)
  /\ exists cell,
       flagOutcome test_db 620 8
         (fst (fst (handleFlagCell (fun _ => true) test_db test_registry "p1" 620 8)))
         cell
       /\ snd (fst (handleFlagCell (fun _ => true) test_db test_registry "p1" 620 8))
          = test_registry
       /\ players (fst (fst (handleFlagCell (fun _ => true) test_db test_registry
                               "p1" 620 8)))
          = players test_db
       /\ (forall ws m,
             (ws, m) ∈ snd (handleFlagCell (fun _ => true) test_db test_registry
                              "p1" 620 8)
             <-> exists c, cell = Some c /\ m = MapUpdate [c]
                           /\ audience (fun _ => true) test_registry 620 8 ws)
       /\ (forall row,
             getCellState
               (fst (fst (handleFlagCell (fun _ => true) test_db test_registry
                            "p1" 620 8))) 620 8
             = Some row ->
             revealed row <> 1 ->
             exists c,
               cell = Some c
               /\ cell_key c = cell_key (projectCell (620, 8, row))
               /\ cell_state c = cell_state (projectCell (620, 8, row))).
Proof.
  pose proof test_db_consistent as H1.
  pose proof test_registry_consistent as H2.
  pose proof test_registry_onGrid as H3.
  assert (H4 : inGrid (620, 8)) by (repeat split; (discriminate || reflexivity)).
  exact (conj H1 (conj H2 (conj H3 (conj H4
           (handleFlagCell_sends (fun _ => true) test_seed test_db test_registry
              "p1" 620 8 H1 H2 H3 H4))))).
Defined.

(** ** The client after its connect *)

Lemma handleConnect_unfold (isOpen : nat -> bool) (db : Db)
    (reg : PlayerManager.Registry) (ws : nat) (playerId now : string) :
  snd (handleConnect isOpen db reg ws playerId now)
  = Connected
      ((ws, InitialState playerId (getPlayerScore db playerId)
              (map projectCell
                 (getCellStatesInRegion (fst (findOrCreatePlayer db playerId now))
                    290 300 350 340))
              (PlayerManager.getPlayersInRegion (afterAdd db reg ws playerId now)
                 (PlayerManager.ofZ 290) (PlayerManager.ofZ 300)
                 (PlayerManager.ofZ 350) (PlayerManager.ofZ 340) (Some playerId))
              (PlayerManager.ofZ 320) (PlayerManager.ofZ 320))
       :: broadcastToRegion isOpen (afterAdd db reg ws playerId now) 320 320
            VIEWPORT_RADIUS_X VIEWPORT_RADIUS_Y
            (PlayerJoined playerId (PlayerManager.ofZ 320) (PlayerManager.ofZ 320))
            (Some playerId)).
Proof.
  destruct (addPlayer_registry db reg ws playerId now) as (Hafter & Hdata & Hdb).
  unfold handleConnect, afterAdd in *. rewrite <- Hdb.
  destruct (PlayerManager.addPlayer db reg ws playerId now) as [[db1 reg1] data].
  cbn [fst snd] in *. subst data. reflexivity.
Qed.

Lemma storePlayers_lookup_out (l : list PlayerManager.PlayerPos)
    (acc : gmap string PlayerView) (id : string) :
  id ∉ map PlayerManager.pp_id l ->
  fold_left
    (fun acc p =>
       <[ PlayerManager.pp_id p :=
            MkPlayerView (PlayerManager.pp_id p) (PlayerManager.pp_x p)
                         (PlayerManager.pp_y p) false ]> acc) l acc !! id
  = acc !! id.
Proof.
  revert acc. induction l as [| p l IH]; intros acc Hout; [done |].
  cbn [fold_left]. cbn [map] in Hout. apply not_elem_of_cons in Hout as [Hne Hout].
  rewrite IH by done. by apply lookup_insert_ne.
Qed.

Lemma storePlayers_lookup_in (l : list PlayerManager.PlayerPos)
    (acc : gmap string PlayerView) (p : PlayerManager.PlayerPos) :
  NoDup (map PlayerManager.pp_id l) -> p ∈ l ->
  fold_left
    (fun acc p =>
       <[ PlayerManager.pp_id p :=
            MkPlayerView (PlayerManager.pp_id p) (PlayerManager.pp_x p)
                         (PlayerManager.pp_y p) false ]> acc) l acc
    !! PlayerManager.pp_id p
  = Some (MkPlayerView (PlayerManager.pp_id p) (PlayerManager.pp_x p)
            (PlayerManager.pp_y p) false).
Proof.
  revert acc. induction l as [| q l IH]; intros acc Hnd Hin.
  - by apply elem_of_nil in Hin.
  - cbn [map] in Hnd. apply NoDup_cons in Hnd as [Hfresh Hnd]. cbn [fold_left].
    apply elem_of_cons in Hin as [-> | Hin].
    + rewrite storePlayers_lookup_out by done. apply lookup_insert_eq.
    + by apply IH.
Qed.

Lemma kept_ids_NoDup (reg : PlayerManager.Registry)
    (f : string * PlayerManager.Player -> bool) :
  registryConsistent reg ->
  NoDup (map PlayerManager.pp_id
           (map entryPos (List.filter f (PlayerManager.activePlayers reg)))).
Proof.
  intros Hreg. rewrite map_map.
  erewrite map_ext_in.
  - apply filter_keys_NoDup, Hreg.
  - intros entry Hin. apply filter_In in Hin as [Hin _].
    apply list_elem_of_In in Hin.
    by destruct (consistent_entry reg entry Hreg Hin) as [_ Hid].
Qed.

(** X22: the client after its connect.  With a socket and a non-empty id
    not yet in use, in a consistent registry whose players are on cells
    of the map, the client that handles the first message of the connect
    knows its id and its stored score, lists itself at the centre
    [(320, 320)], lists besides exactly the other players whose cursor
    is within the viewport radii of the centre, each at its position,
    and holds for a cell of the map the projection of its stored row
    exactly when the cell has a row and lies within 30 columns and 20
    rows of the centre. *)
Theorem client_after_connect (isOpen : nat -> bool) (db : Db)
    (reg : PlayerManager.Registry) (ws : nat) (playerId now : string)
    (st : ClientState) :
  registryConsistent reg -> registryOnGrid reg ->
  PlayerManager.getPlayerIdByWs reg ws = None ->
  PlayerManager.getPlayerById reg playerId = None ->
  playerId <> ""%string ->
  let st' :=
    clientAfterConnect st (snd (handleConnect isOpen db reg ws playerId now)) in
  cl_playerId st' = Some playerId
  /\ cl_score st' = getPlayerScore db playerId
  /\ cl_players st' !! playerId
     = Some (MkPlayerView playerId (PlayerManager.ofZ 320) (PlayerManager.ofZ 320) true)
  /\ (forall id view,
        id <> playerId ->
        (cl_players st' !! id = Some view
         <-> exists player,
               PlayerManager.getPlayerById reg id = Some player
               /\ playerNear 320 320 player
               /\ view = otherView id player))
  /\ (forall x y view,
        inGrid (x, y) ->
        (cl_mapData st' !! (x, y) = Some view
         <-> exists row,
               getCellState db x y = Some row
               /\ inViewport 320 320 x y
               /\ view = cellView (projectCell (x, y, row)))).
Proof.
  intros Hreg Hgrid Hws Hid Hne. cbv zeta.
  pose proof (addPlayer_consistent db reg ws playerId now Hreg Hws Hid Hne) as Hreg1.
  pose proof (addPlayer_onGrid db reg ws playerId now Hgrid) as Hgrid1.
  pose proof (addPlayer_others db reg ws playerId now) as Hothers.
  destruct (findOrCreatePlayer_spec db playerId now) as (_ & _ & Hmap).
  assert (Hc : inGrid (320, 320)) by (repeat split; (discriminate || reflexivity)).
  assert (Hbounds : regionBounds 320 320 VIEWPORT_RADIUS_X VIEWPORT_RADIUS_Y
                    = (290, 300, 350, 340)) by reflexivity.
  rewrite handleConnect_unfold.
  cbn [clientAfterConnect handleWebSocketMessage cl_playerId cl_score cl_players
       cl_mapData].
  split; [done |]. split; [done |]. split; [apply lookup_insert_eq |]. split.
  - intros id view Hneq. rewrite lookup_insert_ne by done.
    rewrite getPlayersInRegion_filter.
    set (kept := List.filter _ (PlayerManager.activePlayers _)).
    assert (Hnd : NoDup (map PlayerManager.pp_id (map entryPos kept)))
      by (by apply kept_ids_NoDup).
    assert (Hkept : forall entry,
              entry ∈ kept
              <-> PlayerManager.getPlayerById reg (fst entry) = Some (snd entry)
                  /\ fst entry <> playerId
                  /\ playerNear 320 320 (snd entry)).
    { intros entry. unfold kept.
      rewrite (kept_near _ 320 320 290 300 350 340 (Some playerId) entry
                 Hreg1 Hgrid1 Hc Hbounds).
      split.
      - intros (Hget & Hex & Hnr). assert (fst entry <> playerId) by congruence.
        rewrite Hothers in Hget by done. done.
      - intros (Hget & Hex & Hnr). assert (Some (fst entry) <> Some playerId) by congruence.
        by rewrite Hothers. }
    assert (Hids : forall entry, entry ∈ kept ->
              PlayerManager.pl_id (snd entry) = fst entry).
    { intros entry Hin. apply Hkept in Hin as (Hget & _ & _).
      by destruct (rc_player reg Hreg _ _ Hget). }
    split.
    + intros Hlook.
      destruct (decide (id ∈ map PlayerManager.pp_id (map entryPos kept)))
        as [Hin | Hout].
      * apply list_elem_of_fmap in Hin as (p & -> & Hin).
        rewrite (storePlayers_lookup_in _ _ p Hnd Hin) in Hlook.
        injection Hlook as <-.
        apply list_elem_of_fmap in Hin as (entry & -> & Hin).
        pose proof (Hids entry Hin) as Hpid.
        apply Hkept in Hin as (Hget & _ & Hnr).
        exists (snd entry). unfold entryPos, otherView.
        cbn [PlayerManager.pp_id PlayerManager.pp_x PlayerManager.pp_y].
        rewrite Hpid. done.
      * rewrite storePlayers_lookup_out in Hlook by done.
        by rewrite lookup_empty in Hlook.
    + intros (player & Hget & Hnr & ->).
      assert (Hin : (id, player) ∈ kept) by (by apply Hkept).
      pose proof (Hids _ Hin) as Hpid. cbn [fst snd] in Hpid.
      assert (Hpos : PlayerManager.MkPlayerPos id (PlayerManager.pl_x player)
                       (PlayerManager.pl_y player)
                     ∈ map entryPos kept).
      { apply list_elem_of_fmap. exists (id, player). split; [| done].
        unfold entryPos. cbn [fst snd]. by rewrite Hpid. }
      exact (storePlayers_lookup_in _ ∅ _ Hnd Hpos).
  - intros x y view Hxy.
    pose proof (regionBounds_spec 320 320 x y Hc Hxy) as Hspec.
    rewrite Hbounds in Hspec.
    set (rows := getCellStatesInRegion _ 290 300 350 340).
    assert (Hnd : NoDup (map cell_key (map projectCell rows)))
      by apply regionCells_NoDup.
    assert (Hrows : forall r, (x, y, r) ∈ rows
                              <-> getCellState db x y = Some r /\ inViewport 320 320 x y).
    { intros r. unfold rows. rewrite getCellStatesInRegion_spec.
      unfold getCellState. rewrite Hmap. tauto. }
    split.
    + intros Hlook.
      destruct (decide ((x, y) ∈ map cell_key (map projectCell rows))) as [Hin | Hout].
      * apply list_elem_of_fmap in Hin as (cell & Hkey & Hin).
        rewrite Hkey, (storeCells_lookup_in _ _ cell Hnd Hin) in Hlook.
        injection Hlook as <-.
        apply list_elem_of_fmap in Hin as ([[x' y'] r] & -> & Hin).
        rewrite projectCell_key in Hkey. cbn [fst] in Hkey. injection Hkey as <- <-.
        apply Hrows in Hin as [Hrow Hview]. eauto.
      * rewrite storeCells_lookup_out in Hlook by done.
        by rewrite lookup_empty in Hlook.
    + intros (row & Hrow & Hview & ->).
      assert (Hin : projectCell (x, y, row) ∈ map projectCell rows).
      { apply list_elem_of_fmap. eexists. split; [reflexivity |]. by apply Hrows. }
      by rewrite <- (storeCells_lookup_in _ ∅ _ Hnd Hin).
Qed.

Lemma client_after_connect_witness :
  registryConsistent test_registry /\ registryOnGrid test_registry
  /\ PlayerManager.getPlayerIdByWs test_registry 3 = None
  /\ PlayerManager.getPlayerById test_registry "p3" = None
  /\ "p3"%string <> ""%string
  /\ let st' :=
       clientAfterConnect initialClient
         (snd (handleConnect (fun _ => true) test_db_flag test_registry 3 "p3"
                 "2025-03-29T00:00:01.000Z")) in
     cl_playerId st' = Some "p3"%string
     /\ cl_score st' = getPlayerScore test_db_flag "p3"
     /\ cl_players st' !! "p3"%string
        = Some (MkPlayerView "p3" (PlayerManager.ofZ 320) (PlayerManager.ofZ 320) true)
     /\ (forall id view,
           id <> "p3"%string ->
           (cl_players st' !! id = Some view
            <-> exists player,
                  PlayerManager.getPlayerById test_registry id = Some player
                  /\ playerNear 320 320 player
                  /\ view = otherView id player))
     /\ (forall x y view,
           inGrid (x, y) ->
           (cl_mapData st' !! (x, y) = Some view
            <-> exists row,
                  getCellState test_db_flag x y = Some row
                  /\ inViewport 320 320 x y
                  /\ view = cellView (projectCell (x, y, row)))).
Proof.
  pose proof test_registry_consistent as H1.
  pose proof test_registry_onGrid as H2.
  assert (H3 : PlayerManager.getPlayerIdByWs test_registry 3 = None) by reflexivity.
  assert (H4 : PlayerManager.getPlayerById test_registry "p3" = None) by reflexivity.
  assert (H5 : "p3"%string <> ""%string) by discriminate.
  exact (conj H1 (conj H2 (conj H3 (conj H4 (conj H5
           (client_after_connect (fun _ => true) test_db_flag test_registry 3 "p3"
              "2025-03-29T00:00:01.000Z" initialClient H1 H2 H3 H4 H5)))))).
Defined.

(** ** The players a client lists *)

Lemma movePlayers_lookup (me : option string) (l : list PlayerManager.PlayerPos)
    (acc : gmap string PlayerView) (id : string) :
  (is_Some
     (fold_left
        (fun acc p =>
           match acc !! PlayerManager.pp_id p with
           | Some view =>
               if bool_decide (Some (PlayerManager.pp_id p) = me) then acc
               else <[ PlayerManager.pp_id p :=
                         MkPlayerView (pv_id view) (PlayerManager.pp_x p)
                                      (PlayerManager.pp_y p) (pv_isSelf view) ]> acc
           | None => acc
           end) l acc !! id)
   <-> is_Some (acc !! id))
  /\ (Some id = me \/ id ∉ map PlayerManager.pp_id l ->
      fold_left
        (fun acc p =>
           match acc !! PlayerManager.pp_id p with
           | Some view =>
               if bool_decide (Some (PlayerManager.pp_id p) = me) then acc
               else <[ PlayerManager.pp_id p :=
                         MkPlayerView (pv_id view) (PlayerManager.pp_x p)
                                      (PlayerManager.pp_y p) (pv_isSelf view) ]> acc
           | None => acc
           end) l acc !! id
      = acc !! id).
Proof.
  revert acc. induction l as [| p l IH]; intros acc; [done |].
  cbn [fold_left map].
  destruct (acc !! PlayerManager.pp_id p) as [view |] eqn:Hp.
  - case_bool_decide as Hme.
    + destruct (IH acc) as [Hdom Hsame]. split; [done |].
      intros [Hself | Hout]; apply Hsame; [by left |].
      apply not_elem_of_cons in Hout as [_ Hout]. by right.
    + destruct (IH (<[ PlayerManager.pp_id p :=
                         MkPlayerView (pv_id view) (PlayerManager.pp_x p)
                                      (PlayerManager.pp_y p) (pv_isSelf view) ]> acc))
        as [Hdom Hsame].
      split.
      * rewrite Hdom, lookup_insert_is_Some.
        destruct (decide (PlayerManager.pp_id p = id)) as [<- | Hne].
        -- rewrite Hp. split; [eauto | by left].
        -- split; [by intros [? | [_ ?]] | by right].
      * intros Hcase. rewrite Hsame.
        -- apply lookup_insert_ne. destruct Hcase as [Hself | Hout]; [congruence |].
           apply not_elem_of_cons in Hout as [Hne _]. congruence.
        -- destruct Hcase as [Hself | Hout]; [by left |].
           apply not_elem_of_cons in Hout as [_ Hout]. by right.
  - destruct (IH acc) as [Hdom Hsame]. split; [done |].
    intros [Hself | Hout]; apply Hsame; [by left |].
    apply not_elem_of_cons in Hout as [_ Hout]. by right.
Qed.

(** X23: the players a client lists.  A [playerJoined] for the client's
    own id changes nothing.  A [playerJoined] for another id that is not
    listed, followed by the [playerLeft] for it, leaves the client's
    state exactly as it was.  A [playerPositionUpdate] never adds or
    removes a player, leaves the client's own entry and the entry of
    every player it does not name as they were, and changes neither the
    score nor the cells held. *)
Theorem client_players_tracking (st : ClientState) (me : string) :
  cl_playerId st = Some me ->
  (forall x y, handleWebSocketMessage st (PlayerJoined me x y) = st)
  /\ (forall id x y,
        id <> me -> ~ listed st id ->
        listed (handleWebSocketMessage st (PlayerJoined id x y)) id
        /\ handleWebSocketMessage (handleWebSocketMessage st (PlayerJoined id x y))
             (PlayerLeft id)
           = st)
  /\ (forall positions,
        let st' := handleWebSocketMessage st (PlayerPositionUpdate positions) in
        (forall id, listed st' id <-> listed st id)
        /\ cl_players st' !! me = cl_players st !! me
        /\ (forall id, id ∉ map PlayerManager.pp_id positions ->
                       cl_players st' !! id = cl_players st !! id)
        /\ cl_score st' = cl_score st /\ cl_mapData st' = cl_mapData st
        /\ cl_playerId st' = cl_playerId st).
Proof.
  intros Hme. destruct st as [pid sc cells pls]. cbn [cl_playerId] in Hme. subst pid.
  split; [| split].
  - intros x y. cbn [handleWebSocketMessage cl_playerId].
    by rewrite bool_decide_eq_true_2.
  - intros id x y Hne Hnot. unfold listed in *. cbn [handleWebSocketMessage cl_playerId].
    rewrite bool_decide_eq_false_2 by congruence.
    cbn [handleWebSocketMessage cl_playerId cl_score cl_mapData cl_players] in *.
    split; [rewrite lookup_insert_eq; eauto |].
    f_equal. apply delete_insert_id.
    destruct (pls !! id) eqn:Hl; [| done]. exfalso. apply Hnot. eauto.
  - intros positions. cbv zeta. unfold listed.
    cbn [handleWebSocketMessage cl_playerId cl_score cl_mapData cl_players].
    split; [| split; [| split]].
    + intros id. apply (movePlayers_lookup (Some me) positions pls id).
    + apply (movePlayers_lookup (Some me) positions pls me). by left.
    + intros id Hout. apply (movePlayers_lookup (Some me) positions pls id). by right.
    + done.
Qed.

Lemma client_players_tracking_witness :
  cl_playerId
    (clientAfterConnect initialClient
       (snd (handleConnect (fun _ => true) test_db test_registry 3 "p3"
               "2025-03-29T00:00:01.000Z")))
  = Some "p3"%string
  /\ forall x y,
       handleWebSocketMessage
         (clientAfterConnect initialClient
            (snd (handleConnect (fun _ => true) test_db test_registry 3 "p3"
                    "2025-03-29T00:00:01.000Z")))
         (PlayerJoined "p3" x y)
       = clientAfterConnect initialClient
           (snd (handleConnect (fun _ => true) test_db test_registry 3 "p3"
                   "2025-03-29T00:00:01.000Z")).
Proof.
  assert (H1 : cl_playerId
                 (clientAfterConnect initialClient
                    (snd (handleConnect (fun _ => true) test_db test_registry 3 "p3"
                            "2025-03-29T00:00:01.000Z")))
               = Some "p3"%string) by reflexivity.
  exact (conj H1 (proj1 (client_players_tracking _ "p3" H1))).
Defined.

(** ** The score of a reveal *)





